(** * Computer-use agent toolkit: dispatch, hooks and the agent loop

    A shallow embedding of the TypeScript SDK's [ActionExecutor]
    (actions.ts), [HookRegistry] (hooks.ts), [WorkflowEngine] (workflow.ts)
    and [ComputerUseAgent] (agent.ts), and the properties of the
    orchestration loop proved over it.

    Modelling conventions.
    - JavaScript values are the JSON fragment [JsValue], without arrays.
      Numbers are integers, plus NaN: on integers of magnitude below 2^53
      the arithmetic, comparison and printing of IEEE doubles are those
      of [Z].  Objects are association lists with distinct keys and are
      assumed not to shadow [toString]/[valueOf].
    - An exception is represented by its [String(error)] rendering.
    - Mutable state lives in [World]; every method is a function
      [World -> World * Outcome _], so a mutation made before a [throw]
      survives it, as it does in JavaScript.
    - Callbacks (hooks, custom tools, conditions, handlers) are functions:
      they read the context and their arguments, may replace
      [context.state], and report a changed payload through their return
      value.  The registries are fixed while a dispatch or a run executes.
    - [trace] is a ghost log of every callback invocation, screen capture,
      robot call, console line, reasoning-service request and entry into
      the loop body, in the order in which they happen.
    - [await] points are sequential; [setTimeout] only advances the clock. *)

From Stdlib Require Import ZArith String List Bool Lia DecimalString.
From stdpp Require Import base option list gmap strings.

Set Warnings "-register-all".
Local Open Scope string_scope.
Local Open Scope list_scope.

(** ** JavaScript values *)

Inductive JsValue : Type :=
| JUndefined
| JNull
| JBool (b : bool)
| JNum (n : Z)
| JNaN
| JStr (s : string)
| JObj (fields : list (string * JsValue)).

(** Built-ins of the JavaScript runtime that the code calls and that are
    taken as given: the string-to-number conversion used by relational
    operators, and the text [`${JSON.stringify(v)}`]. *)
Class JsRuntime : Type := {
  StringToNumber : string -> option Z;
  JSON_stringify : JsValue -> string
}.

Definition decimal (n : Z) : string := NilEmpty.string_of_int (Z.to_int n).

Definition is_undefined (v : JsValue) : bool :=
  match v with JUndefined => true | _ => false end.

(** [a ?? d] *)
Definition nullish_or (a d : JsValue) : JsValue :=
  match a with JUndefined | JNull => d | _ => a end.

(** [if (v)] *)
Definition truthy (v : JsValue) : bool :=
  match v with
  | JUndefined | JNull | JNaN => false
  | JBool b => b
  | JNum n => negb (n =? 0)%Z
  | JStr s => negb (String.eqb s "")
  | JObj _ => true
  end.

Fixpoint obj_get (k : string) (fields : list (string * JsValue)) : JsValue :=
  match fields with
  | [] => JUndefined
  | (k', v) :: rest => if String.eqb k k' then v else obj_get k rest
  end.

(** [v.k] for a [v] that is neither [null] nor [undefined]; of the
    properties read by the code only [length] exists on a primitive. *)
Definition get_field (v : JsValue) (k : string) : JsValue :=
  match v with
  | JObj fields => obj_get k fields
  | JStr s => if String.eqb k "length" then JNum (Z.of_nat (String.length s)) else JUndefined
  | _ => JUndefined
  end.

(** The abstract operation ToNumber; [None] is NaN. *)
Definition ToNumber `{JsRuntime} (v : JsValue) : option Z :=
  match v with
  | JUndefined => None
  | JNull => Some 0%Z
  | JBool true => Some 1%Z
  | JBool false => Some 0%Z
  | JNum n => Some n
  | JNaN => None
  | JStr s => StringToNumber s
  | JObj _ => None
  end.

(** [`${v}`] *)
Definition ToString (v : JsValue) : string :=
  match v with
  | JUndefined => "undefined"
  | JNull => "null"
  | JBool true => "true"
  | JBool false => "false"
  | JNum n => decimal n
  | JNaN => "NaN"
  | JStr s => s
  | JObj _ => "[object Object]"
  end.

(** [a <= v] and [v <= b] with a number on one side. *)
Definition num_le_js `{JsRuntime} (a : Z) (v : JsValue) : bool :=
  match ToNumber v with Some n => (a <=? n)%Z | None => false end.

Definition js_le_num `{JsRuntime} (v : JsValue) (b : Z) : bool :=
  match ToNumber v with Some n => (n <=? b)%Z | None => false end.

(** [-v] *)
Definition js_neg `{JsRuntime} (v : JsValue) : JsValue :=
  match ToNumber v with Some n => JNum (- n) | None => JNaN end.

(** ** types.ts *)

Inductive ActionType : Type :=
| SCREENSHOT | MOUSE_MOVE | CLICK | DOUBLE_CLICK | TYPE | KEY | SCROLL.

Definition ActionType_str (t : ActionType) : string :=
  match t with
  | SCREENSHOT => "screenshot"
  | MOUSE_MOVE => "mouse_move"
  | CLICK => "click"
  | DOUBLE_CLICK => "double_click"
  | TYPE => "type"
  | KEY => "key"
  | SCROLL => "scroll"
  end.

Module ScrollDirection.
Definition UP := JStr "up".
Definition DOWN := JStr "down".
Definition LEFT := JStr "left".
Definition RIGHT := JStr "right".
End ScrollDirection.

Module MouseButton.
Definition LEFT := JStr "left".
Definition RIGHT := JStr "right".
Definition MIDDLE := JStr "middle".
End MouseButton.

Module ScreenRegion.
Record t : Type := {
  x : Z;
  y : Z;
  width : Z;
  height : Z
}.
End ScreenRegion.

Record ActionResult : Type := {
  success : bool;
  actionType : ActionType;
  error : option string;
  data : JsValue
}.

Record AgentContext : Type := {
  state : gmap string JsValue;
  iteration : nat;
  actionHistory : list ActionResult;
  lastScreenshot : option string;
  lastScreenshotText : option string
}.

(** [new AgentContext()] *)
Definition new_AgentContext : AgentContext :=
  {| state := ∅; iteration := 0; actionHistory := [];
     lastScreenshot := None; lastScreenshotText := None |}.

(** The result object as a callback sees it. *)
Definition ActionResult_js (r : ActionResult) : JsValue :=
  JObj [("success", JBool (success r));
        ("actionType", JStr (ActionType_str (actionType r)));
        ("error", match error r with Some e => JStr e | None => JUndefined end);
        ("data", data r)].

(** ** Conversation messages *)

Inductive ContentBlock : Type :=
| ImageBlock (image_data : JsValue)
| TextBlock (text : string)
| ToolUseBlock (id : string) (name : string) (input : JsValue)
| ToolResultBlock (tool_use_id : string) (content : list ContentBlock).

Inductive Role : Type := user | assistant.

Record Message : Type := {
  role : Role;
  msg_content : list ContentBlock
}.

Record ToolSchema : Type := {
  schema_name : string;
  schema_description : string
}.

Record Request : Type := {
  req_model : string;
  req_max_tokens : Z;
  req_system : string;
  req_messages : list Message;
  req_tools : list ToolSchema
}.

Record Response : Type := {
  stop_reason : string;
  resp_content : list ContentBlock
}.

(** ** The world: mutable state and the ghost trace *)

Inductive RobotCall : Type :=
| moveMouse (rx ry : JsValue)
| mouseClick (button : JsValue)
| typeString (text : JsValue)
| keyTap (key : JsValue)
| scrollMouse (dx dy : JsValue).

Inductive HookPoint : Type :=
| BeforeScreenshot
| AfterScreenshot
| BeforeAction
| AfterAction
| OnToolCall (key : string)
| OnIterationStart
| OnIterationEnd.

Inductive Outcome (A : Type) : Type :=
| Returned (a : A)
| Raised (e : string).
Arguments Returned {A} a.
Arguments Raised {A} e.

(** Each event records what the callback received and how it ended. *)
Inductive Event : Type :=
| EvHook (point : HookPoint) (index : nat) (args : list JsValue)
         (result : Outcome JsValue)
| EvCapture (result : Outcome string)
| EvRobot (call : RobotCall)
| EvCustomTool (name : string) (args : JsValue) (result : Outcome JsValue)
| EvCondition (kind : string) (index : nat) (result : Outcome bool)
| EvHandler (kind : string) (index : nat) (result : Outcome unit)
| EvConsoleError (msg : string)
| EvApiCall (req : Request)
| EvLoopPass (iteration : nat).

Record World : Type := {
  context : AgentContext;
  messages : list Message;
  lastActionTime : Z;
  now : Z;
  trace : list Event
}.

Definition set_context (c : AgentContext) (w : World) : World :=
  {| context := c; messages := messages w; lastActionTime := lastActionTime w;
     now := now w; trace := trace w |}.

Definition set_state (s : gmap string JsValue) (w : World) : World :=
  set_context {| state := s; iteration := iteration (context w);
                 actionHistory := actionHistory (context w);
                 lastScreenshot := lastScreenshot (context w);
                 lastScreenshotText := lastScreenshotText (context w) |} w.

Definition set_iteration (i : nat) (w : World) : World :=
  set_context {| state := state (context w); iteration := i;
                 actionHistory := actionHistory (context w);
                 lastScreenshot := lastScreenshot (context w);
                 lastScreenshotText := lastScreenshotText (context w) |} w.

Definition set_lastScreenshot (s : string) (w : World) : World :=
  set_context {| state := state (context w); iteration := iteration (context w);
                 actionHistory := actionHistory (context w);
                 lastScreenshot := Some s;
                 lastScreenshotText := lastScreenshotText (context w) |} w.

(** [context.actionHistory.push(r)] *)
Definition push_actionHistory (r : ActionResult) (w : World) : World :=
  set_context {| state := state (context w); iteration := iteration (context w);
                 actionHistory := actionHistory (context w) ++ [r];
                 lastScreenshot := lastScreenshot (context w);
                 lastScreenshotText := lastScreenshotText (context w) |} w.

Definition set_messages (ms : list Message) (w : World) : World :=
  {| context := context w; messages := ms; lastActionTime := lastActionTime w;
     now := now w; trace := trace w |}.

(** [messages.push(m)] *)
Definition push_message (m : Message) (w : World) : World :=
  set_messages (messages w ++ [m]) w.

Definition set_lastActionTime (t : Z) (w : World) : World :=
  {| context := context w; messages := messages w; lastActionTime := t;
     now := now w; trace := trace w |}.

(** [await new Promise(resolve => setTimeout(resolve, ms))] *)
Definition sleep (ms : Z) (w : World) : World :=
  {| context := context w; messages := messages w;
     lastActionTime := lastActionTime w;
     now := (now w + Z.max 0 ms)%Z; trace := trace w |}.

Definition log (e : Event) (w : World) : World :=
  {| context := context w; messages := messages w;
     lastActionTime := lastActionTime w; now := now w;
     trace := trace w ++ [e] |}.

(** ** Computations that mutate the world and may throw *)

Definition M (A : Type) : Type := World -> World * Outcome A.

Definition ret {A} (a : A) : M A := fun w => (w, Returned a).

Definition throw {A} (e : string) : M A := fun w => (w, Raised e).

Definition bind {A B} (m : M A) (k : A -> M B) : M B :=
  fun w =>
    match m w with
    | (w1, Returned a) => k a w1
    | (w1, Raised e) => (w1, Raised e)
    end.

(** [try { m } catch (error) { h(String(error)) }] *)
Definition try_catch {A} (m : M A) (h : string -> M A) : M A :=
  fun w =>
    match m w with
    | (w1, Returned a) => (w1, Returned a)
    | (w1, Raised e) => h e w1
    end.

Definition modify (f : World -> World) : M unit := fun w => (f w, Returned tt).

Definition gets {A} (f : World -> A) : M A := fun w => (w, Returned (f w)).

Declare Scope js_scope.
Delimit Scope js_scope with js.
Notation "x <- m ;; k" := (bind m (fun x => k))
  (at level 100, m at next level, right associativity) : js_scope.
Notation "m ;; k" := (bind m (fun _ => k))
  (at level 100, right associativity) : js_scope.
Local Open Scope js_scope.

(** [arr.forEach(f)], with the position of each element. *)
Fixpoint forEach_from {A} (i : nat) (f : nat -> A -> M unit) (l : list A) : M unit :=
  match l with
  | [] => ret tt
  | a :: rest => f i a ;; forEach_from (S i) f rest
  end.

Definition forEach {A} (f : nat -> A -> M unit) (l : list A) : M unit :=
  forEach_from 0 f l.

(** [v.k]: throws a TypeError when [v] is [null] or [undefined]. *)
Definition get_prop (v : JsValue) (k : string) : M JsValue :=
  match v with
  | JUndefined =>
      throw ("TypeError: Cannot read properties of undefined (reading '" +:+ k +:+ "')")
  | JNull =>
      throw ("TypeError: Cannot read properties of null (reading '" +:+ k +:+ "')")
  | _ => ret (get_field v k)
  end.

(** [v === s] for a string constant [s] *)
Definition js_is_str (v : JsValue) (s : string) : bool :=
  match v with JStr s' => String.eqb s' s | _ => false end.

(** A parameter declared [p = d]: the default applies to [undefined]. *)
Definition default_param (v d : JsValue) : JsValue :=
  if is_undefined v then d else v.

Fixpoint repeat_M (n : nat) (m : M unit) : M unit :=
  match n with
  | O => ret tt
  | S k => m ;; repeat_M k m
  end.

(** ** actions.ts *)

Module ActionExecutor.

(** Delays are in milliseconds (the source multiplies its seconds by
    1000).  [robot w c = Some e] when the robotjs call [c] throws [e]. *)
Record t : Type := {
  allowedRegion : option ScreenRegion.t;
  safetyDelay : Z;
  confirmationMode : string;
  rateLimitDelay : Z;
  robot : World -> RobotCall -> option string
}.

Section Methods.
Context `{JsRuntime}.
Variable this : t.

Definition checkAllowed (x y : JsValue) : bool :=
  match allowedRegion this with
  | None => true
  | Some r =>
      num_le_js (ScreenRegion.x r) x
      && js_le_num x (ScreenRegion.x r + ScreenRegion.width r)
      && num_le_js (ScreenRegion.y r) y
      && js_le_num y (ScreenRegion.y r + ScreenRegion.height r)
  end.

Definition rateLimit : M unit :=
  fun w =>
    let elapsed := (now w - lastActionTime w)%Z in
    let w1 := if (elapsed <? rateLimitDelay this)%Z
              then sleep (rateLimitDelay this - elapsed) w
              else w in
    (set_lastActionTime (now w1) w1, Returned tt).

(** One call into robotjs. *)
Definition robot_call (c : RobotCall) : M unit :=
  fun w =>
    match robot this w c with
    | Some e => (log (EvRobot c) w, Raised e)
    | None => (log (EvRobot c) w, Returned tt)
    end.

Definition executeWithSafety (actionFunc : M JsValue) (actionType : ActionType)
  : M ActionResult :=
  if String.eqb (confirmationMode this) "dry-run" then
    ret {| success := true; actionType := actionType; error := None;
           data := JObj [("dryRun", JBool true)] |}
  else
    rateLimit ;;
    try_catch
      (result <- actionFunc ;;
       modify (sleep (safetyDelay this)) ;;
       ret {| success := true; actionType := actionType; error := None;
              data := result |})
      (fun e =>
         ret {| success := false; actionType := actionType; error := Some e;
                data := JUndefined |}).

Definition outside_allowed_region (actionType : ActionType) (x y : JsValue)
  : ActionResult :=
  {| success := false; actionType := actionType;
     error := Some ("Coordinates (" +:+ ToString x +:+ ", " +:+ ToString y
                    +:+ ") outside allowed region");
     data := JUndefined |}.

(** The [duration] parameter of the source is never read. *)
Definition mouseMove_actionFunc (x y : JsValue) : M JsValue :=
  robot_call (moveMouse x y) ;;
  ret (JObj [("x", x); ("y", y)]).

Definition mouseMove (x y : JsValue) : M ActionResult :=
  if negb (checkAllowed x y) then ret (outside_allowed_region MOUSE_MOVE x y)
  else executeWithSafety (mouseMove_actionFunc x y) MOUSE_MOVE.

Definition click_actionFunc (x y button clicks : JsValue) : M JsValue :=
  robot_call (moveMouse x y) ;;
  repeat_M (match ToNumber clicks with Some n => Z.to_nat n | None => O end)
           (robot_call (mouseClick button)) ;;
  ret (JObj [("x", x); ("y", y); ("button", button); ("clicks", clicks)]).

Definition click (x y button clicks : JsValue) : M ActionResult :=
  let button := default_param button MouseButton.LEFT in
  let clicks := default_param clicks (JNum 1) in
  if negb (checkAllowed x y) then ret (outside_allowed_region CLICK x y)
  else executeWithSafety (click_actionFunc x y button clicks) CLICK.

Definition doubleClick (x y : JsValue) : M ActionResult :=
  click x y MouseButton.LEFT (JNum 2).

(** The [interval] parameter of the source is never read. *)
Definition typeText_actionFunc (text : JsValue) : M JsValue :=
  robot_call (typeString text) ;;
  len <- get_prop text "length" ;;
  ret (JObj [("text", text); ("length", len)]).

Definition typeText (text : JsValue) : M ActionResult :=
  executeWithSafety (typeText_actionFunc text) TYPE.

Definition pressKey_actionFunc (key : JsValue) : M JsValue :=
  robot_call (keyTap key) ;;
  ret (JObj [("key", key)]).

Definition pressKey (key : JsValue) : M ActionResult :=
  executeWithSafety (pressKey_actionFunc key) KEY.

Definition has_coordinates (x y : JsValue) : bool :=
  negb (is_undefined x) && negb (is_undefined y).

Definition scroll_actionFunc (direction amount x y : JsValue) : M JsValue :=
  (if has_coordinates x y then robot_call (moveMouse x y) else ret tt) ;;
  let scrollAmount :=
    if js_is_str direction "up" || js_is_str direction "left"
    then js_neg amount else amount in
  robot_call (scrollMouse (JNum 0) scrollAmount) ;;
  ret (JObj [("direction", direction); ("amount", amount)]).

Definition scroll (direction amount x y : JsValue) : M ActionResult :=
  let amount := default_param amount (JNum 3) in
  if has_coordinates x y && negb (checkAllowed x y)
  then ret (outside_allowed_region SCROLL x y)
  else executeWithSafety (scroll_actionFunc direction amount x y) SCROLL.

End Methods.

End ActionExecutor.

(** ** hooks.ts *)

(** [(context, ...args) => any]: the replaced [context.state] and the
    returned value or the thrown error. *)
Definition HookFunction : Type :=
  AgentContext -> list JsValue -> gmap string JsValue * Outcome JsValue.

(** [hook(context, ...args)] for the hook at position [index] of the list
    registered for [point]. *)
Definition call_hook (point : HookPoint) (index : nat) (hook : HookFunction)
  (args : list JsValue) : M JsValue :=
  fun w =>
    let '(s, o) := hook (context w) args in
    (log (EvHook point index args o) (set_state s w), o).

(** [arr.forEach(f)] where [f] assigns to a captured local variable: the
    variable's value is threaded through the calls. *)
Fixpoint forEach_var_from {A V} (i : nat) (f : nat -> A -> V -> M V) (l : list A)
  (v : V) : M V :=
  match l with
  | [] => ret v
  | a :: rest => v' <- f i a v ;; forEach_var_from (S i) f rest v'
  end.

Definition forEach_var {A V} (f : nat -> A -> V -> M V) (l : list A) (v : V) : M V :=
  forEach_var_from 0 f l v.

Module HookRegistry.

Record t : Type := {
  beforeScreenshot : list HookFunction;
  afterScreenshot : list HookFunction;
  beforeAction : list HookFunction;
  afterAction : list HookFunction;
  onToolCall : gmap string (list HookFunction);
  onIterationStart : list HookFunction;
  onIterationEnd : list HookFunction
}.

(** [new HookRegistry()] *)
Definition new : t :=
  {| beforeScreenshot := []; afterScreenshot := []; beforeAction := [];
     afterAction := []; onToolCall := ∅; onIterationStart := [];
     onIterationEnd := [] |}.

Definition registerBeforeScreenshot (func : HookFunction) (this : t) : t :=
  {| beforeScreenshot := beforeScreenshot this ++ [func];
     afterScreenshot := afterScreenshot this; beforeAction := beforeAction this;
     afterAction := afterAction this; onToolCall := onToolCall this;
     onIterationStart := onIterationStart this;
     onIterationEnd := onIterationEnd this |}.

Definition registerAfterScreenshot (func : HookFunction) (this : t) : t :=
  {| beforeScreenshot := beforeScreenshot this;
     afterScreenshot := afterScreenshot this ++ [func];
     beforeAction := beforeAction this;
     afterAction := afterAction this; onToolCall := onToolCall this;
     onIterationStart := onIterationStart this;
     onIterationEnd := onIterationEnd this |}.

Definition registerBeforeAction (func : HookFunction) (this : t) : t :=
  {| beforeScreenshot := beforeScreenshot this;
     afterScreenshot := afterScreenshot this;
     beforeAction := beforeAction this ++ [func];
     afterAction := afterAction this; onToolCall := onToolCall this;
     onIterationStart := onIterationStart this;
     onIterationEnd := onIterationEnd this |}.

Definition registerAfterAction (func : HookFunction) (this : t) : t :=
  {| beforeScreenshot := beforeScreenshot this;
     afterScreenshot := afterScreenshot this;
     beforeAction := beforeAction this;
     afterAction := afterAction this ++ [func]; onToolCall := onToolCall this;
     onIterationStart := onIterationStart this;
     onIterationEnd := onIterationEnd this |}.

(** [toolName || "*"]: [null] and the empty string select the wildcard. *)
Definition registerOnToolCall (toolName : option string) (func : HookFunction)
  (this : t) : t :=
  let key := match toolName with
             | Some s => if String.eqb s "" then "*" else s
             | None => "*"
             end in
  {| beforeScreenshot := beforeScreenshot this;
     afterScreenshot := afterScreenshot this;
     beforeAction := beforeAction this;
     afterAction := afterAction this;
     onToolCall := <[key := default [] (onToolCall this !! key) ++ [func]]>
                     (onToolCall this);
     onIterationStart := onIterationStart this;
     onIterationEnd := onIterationEnd this |}.

Definition registerOnIterationStart (func : HookFunction) (this : t) : t :=
  {| beforeScreenshot := beforeScreenshot this;
     afterScreenshot := afterScreenshot this;
     beforeAction := beforeAction this;
     afterAction := afterAction this; onToolCall := onToolCall this;
     onIterationStart := onIterationStart this ++ [func];
     onIterationEnd := onIterationEnd this |}.

Definition registerOnIterationEnd (func : HookFunction) (this : t) : t :=
  {| beforeScreenshot := beforeScreenshot this;
     afterScreenshot := afterScreenshot this;
     beforeAction := beforeAction this;
     afterAction := afterAction this; onToolCall := onToolCall this;
     onIterationStart := onIterationStart this;
     onIterationEnd := onIterationEnd this ++ [func] |}.

Section Triggers.
Variable this : t.

(** An observer point: every hook is called, its return value dropped. *)
Definition observe (point : HookPoint) (args : list JsValue)
  (hooks : list HookFunction) : M unit :=
  forEach (fun i hook => _ <- call_hook point i hook args ;; ret tt) hooks.

Definition triggerBeforeScreenshot : M unit :=
  observe BeforeScreenshot [] (beforeScreenshot this).

Definition triggerAfterScreenshot (image : string) : M unit :=
  observe AfterScreenshot [JStr image] (afterScreenshot this).

Definition triggerBeforeAction (action : JsValue) : M JsValue :=
  forEach_var
    (fun i hook modifiedAction =>
       result <- call_hook BeforeAction i hook [modifiedAction] ;;
       ret (if negb (is_undefined result) then result else modifiedAction))
    (beforeAction this) action.

Definition triggerAfterAction (action : JsValue) (result : ActionResult) : M unit :=
  observe AfterAction [action; ActionResult_js result] (afterAction this).

Definition triggerOnToolCall (toolName : string) (args : JsValue) : M JsValue :=
  modifiedArgs <-
    match onToolCall this !! toolName with
    | Some hooks =>
        forEach_var
          (fun i hook modifiedArgs =>
             result <- call_hook (OnToolCall toolName) i hook [modifiedArgs] ;;
             ret (if negb (is_undefined result) then result else modifiedArgs))
          hooks args
    | None => ret args
    end ;;
  match onToolCall this !! "*" with
  | Some hooks =>
      forEach_var
        (fun i hook modifiedArgs =>
           result <- call_hook (OnToolCall "*") i hook
                       [JStr toolName; modifiedArgs] ;;
           ret (if negb (is_undefined result) then result else modifiedArgs))
        hooks modifiedArgs
  | None => ret modifiedArgs
  end.

Definition triggerOnIterationStart (iteration : nat) : M unit :=
  observe OnIterationStart [JNum (Z.of_nat iteration)] (onIterationStart this).

Definition triggerOnIterationEnd (iteration : nat) : M unit :=
  observe OnIterationEnd [JNum (Z.of_nat iteration)] (onIterationEnd this).

End Triggers.

End HookRegistry.

(** ** workflow.ts *)

(** A tool function sees its arguments and, through the closure that
    defined it, [agent.state]. *)
Definition ToolFunction : Type :=
  gmap string JsValue -> JsValue -> gmap string JsValue * Outcome JsValue.

Definition ConditionFunction : Type :=
  AgentContext -> JsValue -> gmap string JsValue * Outcome bool.

Definition HandlerFunction : Type :=
  AgentContext -> JsValue -> gmap string JsValue * Outcome unit.

Record ToolDefinition : Type := {
  name : string;
  description : string;
  inputSchema : JsValue;
  function : ToolFunction
}.

Record ConditionalHandler : Type := {
  condition : ConditionFunction;
  handler : HandlerFunction
}.

(** A JavaScript [Map] with string keys: [set] on a present key keeps the
    key's position, on a fresh key appends, so [values()] comes out in
    insertion order. *)
Fixpoint Map_get {V} (k : string) (m : list (string * V)) : option V :=
  match m with
  | [] => None
  | (k', v) :: rest => if String.eqb k k' then Some v else Map_get k rest
  end.

Definition Map_has {V} (k : string) (m : list (string * V)) : bool :=
  match Map_get k m with Some _ => true | None => false end.

Fixpoint Map_set {V} (k : string) (v : V) (m : list (string * V)) : list (string * V) :=
  match m with
  | [] => [(k, v)]
  | (k', v') :: rest =>
      if String.eqb k k' then (k', v) :: rest else (k', v') :: Map_set k v rest
  end.

Definition Map_values {V} (m : list (string * V)) : list V := map snd m.

Module WorkflowEngine.

Record t : Type := {
  customTools : list (string * ToolDefinition);
  conditionalHandlers : gmap string (list ConditionalHandler)
}.

(** [new WorkflowEngine()] *)
Definition new : t := {| customTools := []; conditionalHandlers := ∅ |}.

Definition registerTool (name description : string) (func : ToolFunction)
  (this : t) : t :=
  let inputSchema := JObj [("type", JStr "object"); ("properties", JObj [])] in
  {| customTools :=
       Map_set name {| name := name; description := description;
                       inputSchema := inputSchema; function := func |}
               (customTools this);
     conditionalHandlers := conditionalHandlers this |}.

Definition registerConditionalHandler (actionType : string)
  (condition : ConditionFunction) (handler : HandlerFunction) (this : t) : t :=
  {| customTools := customTools this;
     conditionalHandlers :=
       <[actionType := default [] (conditionalHandlers this !! actionType)
                         ++ [{| condition := condition; handler := handler |}]]>
         (conditionalHandlers this) |}.

Section Methods.
Variable this : t.

(** [tool.function(args)] *)
Definition call_tool (tool : ToolDefinition) (toolName : string) (args : JsValue)
  : M JsValue :=
  fun w =>
    let '(s, o) := function tool (state (context w)) args in
    (log (EvCustomTool toolName args o) (set_state s w), o).

Definition executeTool (toolName : string) (args : JsValue) : M JsValue :=
  match Map_get toolName (customTools this) with
  | None => throw ("Error: Tool '" +:+ toolName +:+ "' not found")
  | Some tool => call_tool tool toolName args
  end.

Definition call_condition (kind : string) (index : nat) (c : ConditionFunction)
  (action : JsValue) : M bool :=
  fun w =>
    let '(s, o) := c (context w) action in
    (log (EvCondition kind index o) (set_state s w), o).

Definition call_handler (kind : string) (index : nat) (h : HandlerFunction)
  (action : JsValue) : M unit :=
  fun w =>
    let '(s, o) := h (context w) action in
    (log (EvHandler kind index o) (set_state s w), o).

(** [console.error("Error in conditional handler:", error)] *)
Definition console_error (e : string) : M unit :=
  modify (log (EvConsoleError ("Error in conditional handler: " +:+ e))).

Definition checkConditionalHandlers (actionType : string) (action : JsValue)
  : M unit :=
  match conditionalHandlers this !! actionType with
  | None => ret tt
  | Some handlers =>
      forEach
        (fun i ch =>
           try_catch
             (b <- call_condition actionType i (condition ch) action ;;
              if b then call_handler actionType i (handler ch) action
              else ret tt)
             console_error)
        handlers
  end.

(** The input-shape descriptor of each schema is left out of
    [ToolSchema]. *)
Definition getToolSchemas : list ToolSchema :=
  map (fun tool => {| schema_name := name tool;
                      schema_description := description tool |})
      (Map_values (customTools this)).

Definition hasTool (toolName : string) : bool :=
  Map_has toolName (customTools this).

End Methods.

End WorkflowEngine.

(** ** tools.ts *)

Definition getDefaultTools : list ToolSchema :=
  [ {| schema_name := "screenshot";
       schema_description :=
         "Take a screenshot of the current screen or a specific region" |};
    {| schema_name := "mouse_move";
       schema_description := "Move the mouse cursor to specific coordinates" |};
    {| schema_name := "click";
       schema_description := "Click at specific coordinates" |};
    {| schema_name := "type";
       schema_description := "Type text using the keyboard" |};
    {| schema_name := "key";
       schema_description := "Press a keyboard key" |};
    {| schema_name := "scroll";
       schema_description := "Scroll in a direction" |} ].

(** ** agent.ts *)

(** [for (const a of l)] with a local variable assigned in the body. *)
Fixpoint for_of {A V} (f : A -> V -> M V) (l : list A) (v : V) : M V :=
  match l with
  | [] => ret v
  | a :: rest => v' <- f a v ;; for_of f rest v'
  end.

(** The record returned by [run]; a field the source leaves out is [None]. *)
Module RunResult.
Record t : Type := {
  success : bool;
  error : option string;
  iteration : option nat;
  iterations : option nat;
  state : gmap string JsValue;
  actionHistory : option (list ActionResult)
}.
End RunResult.

(** How the [try] statement in the loop body completes. *)
Inductive Completion : Type :=
| Normal
| Break
| Return (r : RunResult.t).

Module ComputerUseAgent.

(** [client w req] is the reply of [client.messages.create(req)] and
    [screen w] that of [screen.captureBase64()], both external. *)
Record t : Type := {
  client : World -> Request -> Outcome Response;
  screen : World -> Outcome string;
  executor : ActionExecutor.t;
  workflow : WorkflowEngine.t;
  hooks : HookRegistry.t;
  model : string;
  maxTokens : Z
}.

Definition default_system : string :=
  "You are a computer use agent. You can see the screen and take actions "
  +:+ "like clicking, typing, and scrolling. Analyze what you see and take "
  +:+ "appropriate actions to achieve the given goal.".

Section Methods.
Context `{JsRuntime}.
Variable this : t.

Definition callTool (toolName : string) (args : JsValue) : M JsValue :=
  WorkflowEngine.executeTool (workflow this) toolName args.

Definition buildTools : list ToolSchema :=
  getDefaultTools ++ WorkflowEngine.getToolSchemas (workflow this).

(** [await this.screen.captureBase64()] *)
Definition captureBase64 : M string :=
  fun w => (log (EvCapture (screen this w)) w, screen this w).

Definition takeScreenshot : M string :=
  HookRegistry.triggerBeforeScreenshot (hooks this) ;;
  imageB64 <- captureBase64 ;;
  modify (set_lastScreenshot imageB64) ;;
  HookRegistry.triggerAfterScreenshot (hooks this) imageB64 ;;
  ret imageB64.

(** The arguments [action.duration ?? 0.5] and [action.interval ?? 0.0]
    are read from an object whose earlier property read succeeded and
    are ignored by the executor; they are left out. *)
Definition executeTool (toolName : string) (toolInput : JsValue) : M ActionResult :=
  modifiedInput <- HookRegistry.triggerOnToolCall (hooks this) toolName toolInput ;;
  if WorkflowEngine.hasTool (workflow this) toolName then
    try_catch
      (result <- WorkflowEngine.executeTool (workflow this) toolName modifiedInput ;;
       ret {| success := true; actionType := SCREENSHOT; error := None;
              data := JObj [("result", result)] |})
      (fun e =>
         ret {| success := false; actionType := SCREENSHOT; error := Some e;
                data := JUndefined |})
  else if String.eqb toolName "screenshot" then
    imageB64 <- takeScreenshot ;;
    ret {| success := true; actionType := SCREENSHOT; error := None;
           data := JObj [("image", JStr imageB64)] |}
  else if String.eqb toolName "mouse_move" then
    action1 <- HookRegistry.triggerBeforeAction (hooks this) modifiedInput ;;
    x <- get_prop action1 "x" ;;
    y <- get_prop action1 "y" ;;
    result <- ActionExecutor.mouseMove (executor this) x y ;;
    HookRegistry.triggerAfterAction (hooks this) modifiedInput result ;;
    WorkflowEngine.checkConditionalHandlers (workflow this) "mouse_move" modifiedInput ;;
    ret result
  else if String.eqb toolName "click" then
    action2 <- HookRegistry.triggerBeforeAction (hooks this) modifiedInput ;;
    x <- get_prop action2 "x" ;;
    y <- get_prop action2 "y" ;;
    button <- get_prop action2 "button" ;;
    clicks <- get_prop action2 "clicks" ;;
    result <- ActionExecutor.click (executor this) x y
                (nullish_or button MouseButton.LEFT)
                (nullish_or clicks (JNum 1)) ;;
    HookRegistry.triggerAfterAction (hooks this) modifiedInput result ;;
    WorkflowEngine.checkConditionalHandlers (workflow this) "click" modifiedInput ;;
    ret result
  else if String.eqb toolName "type" then
    action3 <- HookRegistry.triggerBeforeAction (hooks this) modifiedInput ;;
    text <- get_prop action3 "text" ;;
    result <- ActionExecutor.typeText (executor this) text ;;
    HookRegistry.triggerAfterAction (hooks this) modifiedInput result ;;
    WorkflowEngine.checkConditionalHandlers (workflow this) "type" modifiedInput ;;
    ret result
  else if String.eqb toolName "key" then
    action4 <- HookRegistry.triggerBeforeAction (hooks this) modifiedInput ;;
    key <- get_prop action4 "key" ;;
    result <- ActionExecutor.pressKey (executor this) key ;;
    HookRegistry.triggerAfterAction (hooks this) modifiedInput result ;;
    WorkflowEngine.checkConditionalHandlers (workflow this) "key" modifiedInput ;;
    ret result
  else if String.eqb toolName "scroll" then
    action5 <- HookRegistry.triggerBeforeAction (hooks this) modifiedInput ;;
    direction <- get_prop action5 "direction" ;;
    amount <- get_prop action5 "amount" ;;
    x <- get_prop action5 "x" ;;
    y <- get_prop action5 "y" ;;
    result <- ActionExecutor.scroll (executor this) direction
                (nullish_or amount (JNum 3)) x y ;;
    HookRegistry.triggerAfterAction (hooks this) modifiedInput result ;;
    WorkflowEngine.checkConditionalHandlers (workflow this) "scroll" modifiedInput ;;
    ret result
  else
    ret {| success := false; actionType := SCREENSHOT;
           error := Some ("Unknown tool: " +:+ toolName); data := JUndefined |}.

(** The argument of [this.client.messages.create]. *)
Definition request (system : string) (w : World) : Request :=
  {| req_model := model this; req_max_tokens := maxTokens this;
     req_system := system; req_messages := messages w;
     req_tools := buildTools |}.

(** [await this.client.messages.create({...})] *)
Definition messages_create (system : string) : M Response :=
  fun w => (log (EvApiCall (request system w)) w, client this w (request system w)).

(** The content of the [tool_result] block built for [result]. *)
Definition toolResultContent (name : string) (result : ActionResult)
  : list ContentBlock :=
  if success result then
    if String.eqb name "screenshot" && truthy (data result)
    then [ImageBlock (get_field (data result) "image")]
    else [TextBlock ("Success: " +:+ JSON_stringify (data result))]
  else
    [TextBlock ("Error: " +:+ match error result with
                               | Some e => e
                               | None => "undefined"
                               end)].

(** The body of [for (const block of response.content)]. *)
Definition process_block (block : ContentBlock) (toolResults : list ContentBlock)
  : M (list ContentBlock) :=
  match block with
  | ToolUseBlock id name input =>
      result <- executeTool name input ;;
      modify (push_actionHistory result) ;;
      ret (toolResults ++ [ToolResultBlock id (toolResultContent name result)])
  | _ => ret toolResults
  end.

(** The statements of the [try] block that follow the request. *)
Definition handle_response (iteration : nat) (response : Response)
  : M Completion :=
  modify (push_message {| role := assistant;
                          msg_content := resp_content response |}) ;;
  if String.eqb (stop_reason response) "end_turn" then
    HookRegistry.triggerOnIterationEnd (hooks this) iteration ;;
    ret Break
  else
    (if String.eqb (stop_reason response) "tool_use" then
       toolResults <- for_of process_block (resp_content response) [] ;;
       modify (push_message {| role := user; msg_content := toolResults |})
     else ret tt) ;;
    HookRegistry.triggerOnIterationEnd (hooks this) iteration ;;
    ret Normal.

(** The block guarded by [try] in the loop body. *)
Definition guarded_block (system : string) (iteration : nat) : M Completion :=
  response <- messages_create system ;;
  handle_response iteration response.

(** The record returned by the [catch] clause. *)
Definition failure_record (e : string) (iteration : nat)
  (s : gmap string JsValue) : RunResult.t :=
  {| RunResult.success := false;
     RunResult.error := Some e;
     RunResult.iteration := Some iteration;
     RunResult.iterations := None;
     RunResult.state := s;
     RunResult.actionHistory := None |}.

(** [try { ... } catch (error) { return {...} }] *)
Definition loop_try (system : string) (iteration : nat) : M Completion :=
  try_catch
    (guarded_block system iteration)
    (fun e =>
       s <- gets (fun w => state (context w)) ;;
       ret (Return (failure_record e iteration s))).

(** One pass through the body of the [for] loop. *)
Definition loop_pass (system : string) (iteration : nat) : M Completion :=
  modify (log (EvLoopPass iteration)) ;;
  modify (set_iteration iteration) ;;
  HookRegistry.triggerOnIterationStart (hooks this) iteration ;;
  loop_try system iteration.

(** [for (let iteration = ...; iteration < maxIterations; iteration++)],
    with [fuel = maxIterations - iteration] passes left. *)
Fixpoint loop (system : string) (fuel : nat) (iteration : nat) : M Completion :=
  match fuel with
  | O => ret Normal
  | S fuel' =>
      c <- loop_pass system iteration ;;
      match c with
      | Normal => loop system fuel' (S iteration)
      | Break => ret Break
      | Return r => ret (Return r)
      end
  end.

(** [systemPrompt || "You are a computer use agent. ..."] *)
Definition effective_system (systemPrompt : option string) : string :=
  match systemPrompt with
  | Some s => if String.eqb s "" then default_system else s
  | None => default_system
  end.

(** The record returned after the loop. *)
Definition success_record (ctx : AgentContext) : RunResult.t :=
  {| RunResult.success := true;
     RunResult.error := None;
     RunResult.iteration := None;
     RunResult.iterations := Some (iteration ctx + 1);
     RunResult.state := state ctx;
     RunResult.actionHistory := Some (actionHistory ctx) |}.

Definition run (goal : string) (maxIterations : nat) (systemPrompt : option string)
  : M RunResult.t :=
  modify (set_context new_AgentContext) ;;
  modify (set_messages []) ;;
  initialScreenshot <- takeScreenshot ;;
  modify (push_message
            {| role := user;
               msg_content := [ImageBlock (JStr initialScreenshot);
                               TextBlock goal] |}) ;;
  let system := effective_system systemPrompt in
  c <- loop system maxIterations 0 ;;
  match c with
  | Return r => ret r
  | _ => ctx <- gets context ;; ret (success_record ctx)
  end.

End Methods.

End ComputerUseAgent.

(** * Reasoning principles *)

(** ** Frames: what a computation leaves alone

    [frame P w w'] holds when [w'] differs from [w] at most in
    [context.state], [context.lastScreenshot], the clock and the rate
    limiter, and in a suffix of [trace] made of events satisfying [P]. *)

Record frame (P : Event -> Prop) (w w' : World) : Prop := {
  frame_iteration : iteration (context w') = iteration (context w);
  frame_history : actionHistory (context w') = actionHistory (context w);
  frame_messages : messages w' = messages w;
  frame_trace : exists evs, trace w' = trace w ++ evs /\ Forall P evs
}.

Definition respects (R : World -> World -> Prop) {A} (m : M A) : Prop :=
  forall w, R w (m w).1.

(** ** The allowed region *)

(** [(x, y)] lies in the rectangle [r], all four bounds included. *)
Definition inside (r : ScreenRegion.t) (x y : Z) : Prop :=
  (ScreenRegion.x r <= x <= ScreenRegion.x r + ScreenRegion.width r)%Z
  /\ (ScreenRegion.y r <= y <= ScreenRegion.y r + ScreenRegion.height r)%Z.

(** A runtime whose conversions are stubs, for the examples below; none
    of them converts a string to a number or prints JSON. *)
Definition stub_runtime : JsRuntime :=
  {| StringToNumber := fun _ => None; JSON_stringify := fun _ => "" |}.

Definition region_100_100_800_600 : ScreenRegion.t :=
  {| ScreenRegion.x := 100; ScreenRegion.y := 100;
     ScreenRegion.width := 800; ScreenRegion.height := 600 |}.

(** An executor restricted to that region, in mode [auto], whose robot
    never throws. *)
Definition region_executor : ActionExecutor.t :=
  {| ActionExecutor.allowedRegion := Some region_100_100_800_600;
     ActionExecutor.safetyDelay := 100;
     ActionExecutor.confirmationMode := "auto";
     ActionExecutor.rateLimitDelay := 50;
     ActionExecutor.robot := fun _ _ => None |}.


(** ** Classes of trace events *)

Definition is_robot_call (e : Event) : bool :=
  match e with EvRobot _ => true | _ => false end.

Definition is_api_call (e : Event) : bool :=
  match e with EvApiCall _ => true | _ => false end.

(** Events a single dispatch can produce: everything but a request to
    the reasoning service and the entry into a loop pass. *)
Definition dispatch_event (e : Event) : bool :=
  match e with EvApiCall _ | EvLoopPass _ => false | _ => true end.

(** The executor makes no robot call outside [P]: either it runs in
    dry-run mode or [P] admits robot calls. *)
Definition robot_within (P : Event -> Prop) (ex : ActionExecutor.t) : Prop :=
  ActionExecutor.confirmationMode ex = "dry-run" \/ forall c, P (EvRobot c).

(** ** Dry-run *)

(** The result is a success whose data carries the dry-run marker. *)
Definition dry_run_marked (r : ActionResult) : Prop :=
  success r = true /\ get_field (data r) "dryRun" = JBool true.

(** The result is the refusal of out-of-region coordinates. *)
Definition out_of_region (r : ActionResult) : Prop :=
  exists t x y, r = ActionExecutor.outside_allowed_region t x y.

Definition no_robot_call (e : Event) : Prop := is_robot_call e = false.

(** The built-in actions that go through the executor. *)
Definition executor_action (toolName : string) : Prop :=
  toolName = "mouse_move" \/ toolName = "click" \/ toolName = "type"
  \/ toolName = "key" \/ toolName = "scroll".

(** ** Example configurations *)

Definition init_world : World :=
  {| context := new_AgentContext; messages := []; lastActionTime := 0;
     now := 0; trace := [] |}.

(** An agent with no hook, tool or handler registered, a screen that
    always yields the same image, a robot that never throws and a
    reasoning service that ends the turn at once. *)
Definition plain_agent (mode : string) (region : option ScreenRegion.t)
  : ComputerUseAgent.t :=
  {| ComputerUseAgent.client :=
       fun _ _ => Returned {| stop_reason := "end_turn"; resp_content := [] |};
     ComputerUseAgent.screen := fun _ => Returned "iVBORw0KGgo=";
     ComputerUseAgent.executor :=
       {| ActionExecutor.allowedRegion := region;
          ActionExecutor.safetyDelay := 100;
          ActionExecutor.confirmationMode := mode;
          ActionExecutor.rateLimitDelay := 50;
          ActionExecutor.robot := fun _ _ => None |};
     ComputerUseAgent.workflow := WorkflowEngine.new;
     ComputerUseAgent.hooks := HookRegistry.new;
     ComputerUseAgent.model := "claude-sonnet-4-20250514";
     ComputerUseAgent.maxTokens := 4096 |}.

Definition dry_run_agent : ComputerUseAgent.t :=
  plain_agent "dry-run" (Some region_100_100_800_600).

Definition point (px py : Z) : JsValue := JObj [("x", JNum px); ("y", JNum py)].

(** ** Mutation-chaining hooks *)

(** A callback that returns [undefined] leaves the candidate as it is; any
    other return value replaces it. *)
Definition replace_if_defined (candidate result : JsValue) : JsValue :=
  if is_undefined result then candidate else result.

(** The payload after callbacks that returned [results], in that order. *)
Definition chain_result (original : JsValue) (results : list JsValue) : JsValue :=
  fold_left replace_if_defined results original.

(** The trace of a chain whose callbacks returned [results]: the callback
    at position [i] received the candidate left by those before it. *)
Fixpoint chain_events (point : HookPoint) (mk : JsValue -> list JsValue) (i : nat)
  (candidate : JsValue) (results : list JsValue) : list Event :=
  match results with
  | [] => []
  | r :: rest =>
      EvHook point i (mk candidate) (Returned r)
      :: chain_events point mk (S i) (replace_if_defined candidate r) rest
  end.

(** The callback that a mutation-chaining trigger gives to [forEach]. *)
Definition chain_step (point : HookPoint) (mk : JsValue -> list JsValue)
  : nat -> HookFunction -> JsValue -> M JsValue :=
  fun i hook candidate =>
    result <- call_hook point i hook (mk candidate) ;;
    ret (if negb (is_undefined result) then result else candidate).

(** The hook returns [v] whatever it is given. *)
Definition hook_returns (h : HookFunction) (v : JsValue) : Prop :=
  forall ctx args, (h ctx args).2 = Returned v.

(** A hook that returns [v] and leaves [context.state] alone. *)
Definition const_hook (v : JsValue) : HookFunction :=
  fun ctx _ => (state ctx, Returned v).

(** A hook that throws [e]. *)
Definition raising_hook (e : string) : HookFunction :=
  fun ctx _ => (state ctx, Raised e).

(** Before-action hooks returning [A = {x:1, y:2}], [undefined] and
    [B = {x:3, y:4}], registered in that order. *)
Definition chain_A_undefined_B : HookRegistry.t :=
  HookRegistry.registerBeforeAction (const_hook (point 3 4))
    (HookRegistry.registerBeforeAction (const_hook JUndefined)
       (HookRegistry.registerBeforeAction (const_hook (point 1 2))
          HookRegistry.new)).

(** ** Conditional handlers *)

(** What became of one registered (condition, handler) pair. *)
Inductive Firing : Type :=
| ConditionRaised (e : string)
| ConditionFalse
| Fired (o : Outcome unit).

Definition handler_error_line (e : string) : Event :=
  EvConsoleError ("Error in conditional handler: " +:+ e).

(** The events left by the pair at position [i]: its condition is
    evaluated; if true its handler runs; an exception from either is
    written to the console. *)
Definition firing_events (kind : string) (i : nat) (f : Firing) : list Event :=
  match f with
  | ConditionRaised e => [EvCondition kind i (Raised e); handler_error_line e]
  | ConditionFalse => [EvCondition kind i (Returned false)]
  | Fired (Returned u) =>
      [EvCondition kind i (Returned true); EvHandler kind i (Returned u)]
  | Fired (Raised e) =>
      [EvCondition kind i (Returned true); EvHandler kind i (Raised e);
       handler_error_line e]
  end.

Fixpoint firings_trace (kind : string) (i : nat) (fs : list Firing) : list Event :=
  match fs with
  | [] => []
  | f :: rest => firing_events kind i f ++ firings_trace kind (S i) rest
  end.

(** The body of [for (const { condition, handler } of handlers)]. *)
Definition handler_step (kind : string) (action : JsValue)
  : nat -> ConditionalHandler -> M unit :=
  fun i ch =>
    try_catch
      (b <- WorkflowEngine.call_condition kind i (condition ch) action ;;
       if b then WorkflowEngine.call_handler kind i (handler ch) action
       else ret tt)
      WorkflowEngine.console_error.

(** The condition holds whatever it is given. *)
Definition always_true (c : ConditionFunction) : Prop :=
  forall ctx action, (c ctx action).2 = Returned true.

(** The context [ctx] after a callback replaced its state by [s]. *)
Definition with_state (s : gmap string JsValue) (ctx : AgentContext)
  : AgentContext :=
  {| state := s; iteration := iteration ctx;
     actionHistory := actionHistory ctx;
     lastScreenshot := lastScreenshot ctx;
     lastScreenshotText := lastScreenshotText ctx |}.

(** What becomes of the pair [ch] when it is evaluated in context [ctx]:
    its condition is applied to [ctx] and, when it returns true, its
    handler is applied to the context the condition left. *)
Definition pair_firing (ch : ConditionalHandler) (action : JsValue)
  (ctx : AgentContext) : Firing :=
  match (condition ch ctx action).2 with
  | Raised e => ConditionRaised e
  | Returned false => ConditionFalse
  | Returned true =>
      Fired (handler ch (with_state (condition ch ctx action).1 ctx) action).2
  end.

(** The context the pair [ch] leaves: the state is the one left by its
    handler when it ran, by its condition otherwise. *)
Definition pair_context (ch : ConditionalHandler) (action : JsValue)
  (ctx : AgentContext) : AgentContext :=
  match (condition ch ctx action).2 with
  | Returned true =>
      with_state
        (handler ch (with_state (condition ch ctx action).1 ctx) action).1 ctx
  | _ => with_state (condition ch ctx action).1 ctx
  end.

(** Every pair of [handlers] evaluated, in order, in the context left by
    the pairs before it, whatever these did. *)
Fixpoint pair_firings (handlers : list ConditionalHandler) (action : JsValue)
  (ctx : AgentContext) : list Firing :=
  match handlers with
  | [] => []
  | ch :: rest =>
      pair_firing ch action ctx :: pair_firings rest action (pair_context ch action ctx)
  end.

Fixpoint pairs_context (handlers : list ConditionalHandler) (action : JsValue)
  (ctx : AgentContext) : AgentContext :=
  match handlers with
  | [] => ctx
  | ch :: rest => pairs_context rest action (pair_context ch action ctx)
  end.

(** Two handlers for [click]: the first one throws, the second one
    counts its calls in [context.state]. *)
Definition throwing_then_counting : WorkflowEngine.t :=
  WorkflowEngine.registerConditionalHandler "click"
    (fun ctx _ => (state ctx, Returned true))
    (fun ctx _ => (<["seen" := JNum 1]> (state ctx), Returned tt))
    (WorkflowEngine.registerConditionalHandler "click"
       (fun ctx _ => (state ctx, Returned true))
       (fun ctx _ => (state ctx, Raised "Error: handler failed"))
       WorkflowEngine.new).

(** ** Routing of a dispatch *)

(** The names routed by the [switch] of [executeTool]. *)
Definition builtin_name (toolName : string) : bool :=
  String.eqb toolName "screenshot" || String.eqb toolName "mouse_move"
  || String.eqb toolName "click" || String.eqb toolName "type"
  || String.eqb toolName "key" || String.eqb toolName "scroll".

Definition unknown_tool_result (toolName : string) : ActionResult :=
  {| success := false; actionType := SCREENSHOT;
     error := Some ("Unknown tool: " +:+ toolName); data := JUndefined |}.

(** The result wrapped around the outcome of a custom tool. *)
Definition custom_tool_result (o : Outcome JsValue) : ActionResult :=
  match o with
  | Returned result =>
      {| success := true; actionType := SCREENSHOT; error := None;
         data := JObj [("result", result)] |}
  | Raised e =>
      {| success := false; actionType := SCREENSHOT; error := Some e;
         data := JUndefined |}
  end.

(** The event is a call of an on-tool-call hook. *)
Definition on_tool_call_hook (e : Event) : Prop :=
  match e with EvHook (OnToolCall _) _ _ _ => True | _ => False end.

(** The dispatch ends in a failed result that names the unknown tool. *)
Definition yields_unknown_tool_failure `{JsRuntime} (ag : ComputerUseAgent.t)
  (toolName : string) (toolInput : JsValue) (w : World) : Prop :=
  exists w' r,
    ComputerUseAgent.executeTool ag toolName toolInput w = (w', Returned r)
    /\ success r = false
    /\ error r = Some ("Unknown tool: " +:+ toolName).

(** The custom tool [toolName] was called during [evs]. *)
Definition tool_executed (toolName : string) (evs : list Event) : Prop :=
  exists args o, In (EvCustomTool toolName args o) evs.

Definition with_hooks (h : HookRegistry.t) (ag : ComputerUseAgent.t)
  : ComputerUseAgent.t :=
  {| ComputerUseAgent.client := ComputerUseAgent.client ag;
     ComputerUseAgent.screen := ComputerUseAgent.screen ag;
     ComputerUseAgent.executor := ComputerUseAgent.executor ag;
     ComputerUseAgent.workflow := ComputerUseAgent.workflow ag;
     ComputerUseAgent.hooks := h;
     ComputerUseAgent.model := ComputerUseAgent.model ag;
     ComputerUseAgent.maxTokens := ComputerUseAgent.maxTokens ag |}.

Definition with_workflow (wf : WorkflowEngine.t) (ag : ComputerUseAgent.t)
  : ComputerUseAgent.t :=
  {| ComputerUseAgent.client := ComputerUseAgent.client ag;
     ComputerUseAgent.screen := ComputerUseAgent.screen ag;
     ComputerUseAgent.executor := ComputerUseAgent.executor ag;
     ComputerUseAgent.workflow := wf;
     ComputerUseAgent.hooks := ComputerUseAgent.hooks ag;
     ComputerUseAgent.model := ComputerUseAgent.model ag;
     ComputerUseAgent.maxTokens := ComputerUseAgent.maxTokens ag |}.

Definition with_client (c : World -> Request -> Outcome Response)
  (ag : ComputerUseAgent.t) : ComputerUseAgent.t :=
  {| ComputerUseAgent.client := c;
     ComputerUseAgent.screen := ComputerUseAgent.screen ag;
     ComputerUseAgent.executor := ComputerUseAgent.executor ag;
     ComputerUseAgent.workflow := ComputerUseAgent.workflow ag;
     ComputerUseAgent.hooks := ComputerUseAgent.hooks ag;
     ComputerUseAgent.model := ComputerUseAgent.model ag;
     ComputerUseAgent.maxTokens := ComputerUseAgent.maxTokens ag |}.


Definition auto_agent : ComputerUseAgent.t := plain_agent "auto" None.

(** A custom tool registered under the built-in name [click]. *)
Definition click_shadowed : WorkflowEngine.t :=
  WorkflowEngine.registerTool "click" "Record a click instead of making it"
    (fun s args => (<["clicked" := args]> s, Returned (JStr "recorded")))
    WorkflowEngine.new.

Definition shadowing_agent : ComputerUseAgent.t :=
  with_workflow click_shadowed auto_agent.

(** A wildcard on-tool-call hook that throws. *)
Definition blocking_hooks : HookRegistry.t :=
  HookRegistry.registerOnToolCall None (raising_hook "Error: blocked")
    HookRegistry.new.

Definition blocking_agent : ComputerUseAgent.t :=
  with_hooks blocking_hooks shadowing_agent.

(** The events of the custom-tool path: on-tool-call hooks and the call
    of the tool itself. *)
Definition custom_path_event (toolName : string) (e : Event) : Prop :=
  match e with
  | EvHook (OnToolCall _) _ _ _ => True
  | EvCustomTool n _ _ => n = toolName
  | _ => False
  end.

Definition any_event (e : Event) : Prop := True.

(** ** The agent loop *)

(** The [tool_use] blocks of a reply, in order: id, name and input. *)
Fixpoint tool_uses (blocks : list ContentBlock) : list (string * string * JsValue) :=
  match blocks with
  | [] => []
  | ToolUseBlock id name input :: rest => (id, name, input) :: tool_uses rest
  | _ :: rest => tool_uses rest
  end.

(** The [tool_result] block that answers a [tool_use] block. *)
Definition tool_result_for `{JsRuntime} (use : string * string * JsValue)
  (r : ActionResult) : ContentBlock :=
  ToolResultBlock use.1.1 (ComputerUseAgent.toolResultContent use.1.2 r).

(** [r] is what dispatching the [tool_use] block returned. *)
Definition dispatched `{JsRuntime} (ag : ComputerUseAgent.t)
  (use : string * string * JsValue) (r : ActionResult) : Prop :=
  exists w w', ComputerUseAgent.executeTool ag use.1.2 use.2 w = (w', Returned r).

(** Between [w], where the reply [resp] was requested, and [w'], every
    [tool_use] block of the reply was dispatched and answered: the
    history gained the results of the blocks, one each and in order, and
    the messages gained the reply and then one user message holding the
    [tool_result] blocks, one per [tool_use] block, same ids, same order. *)
Definition reply_paired `{JsRuntime} (ag : ComputerUseAgent.t) (resp : Response)
  (w w' : World) : Prop :=
  exists results,
    Forall2 (dispatched ag) (tool_uses (resp_content resp)) results
    /\ actionHistory (context w') = actionHistory (context w) ++ results
    /\ messages w' =
         messages w
         ++ [ {| role := assistant; msg_content := resp_content resp |};
              {| role := user;
                 msg_content :=
                   zip_with tool_result_for (tool_uses (resp_content resp))
                     results |} ].

(** The number of requests to the reasoning service in [evs]. *)
Definition api_calls (evs : list Event) : nat :=
  length (List.filter is_api_call evs).

(** The loop passes entered during [evs]. *)
Fixpoint loop_passes (evs : list Event) : list nat :=
  match evs with
  | [] => []
  | EvLoopPass i :: rest => i :: loop_passes rest
  | _ :: rest => loop_passes rest
  end.

(** The reasoning service answers every request with a [tool_use] stop
    signal. *)
Definition always_tool_use (ag : ComputerUseAgent.t) : Prop :=
  forall w req,
    exists resp,
      ComputerUseAgent.client ag w req = Returned resp
      /\ stop_reason resp = "tool_use".

(** ** The passes of a run *)

(** [every_pass P ag system fuel it w] holds when [P it' w'] holds of
    every pass that the loop, started in world [w] at iteration [it] with
    [fuel] passes left, really enters: the pass entered in [w], and each
    later pass as long as the one before it completed normally. *)
Fixpoint every_pass `{JsRuntime} (P : nat -> World -> Prop)
  (ag : ComputerUseAgent.t) (system : string) (fuel it : nat) (w : World)
  : Prop :=
  match fuel with
  | O => True
  | S fuel' =>
      P it w
      /\ match ComputerUseAgent.loop_pass ag system it w with
         | (w', Returned Normal) => every_pass P ag system fuel' (S it) w'
         | _ => True
         end
  end.

(** The world in which the pass [it] entered in [w] sends its request:
    the one its iteration-start hooks leave. *)
Definition request_world (ag : ComputerUseAgent.t) (it : nat) (w : World)
  : World :=
  (HookRegistry.triggerOnIterationStart (ComputerUseAgent.hooks ag) it
     (set_iteration it (log (EvLoopPass it) w))).1.


(** The reasoning service answers the request of the pass [it] entered in
    [w] with the stop signal [stop]. *)
Definition pass_answered `{JsRuntime} (ag : ComputerUseAgent.t)
  (system stop : string) (it : nat) (w : World) : Prop :=
  exists resp,
    ComputerUseAgent.client ag (request_world ag it w)
      (ComputerUseAgent.request ag system (request_world ag it w))
    = Returned resp
    /\ stop_reason resp = stop.

(** The pass [it] entered in [w] is not cut short by an exception:
    nothing is thrown before its [try] statement and its [catch] clause
    does not run. *)
Definition not_cut_short `{JsRuntime} (ag : ComputerUseAgent.t)
  (system : string) (it : nat) (w : World) : Prop :=
  exists w' c,
    ComputerUseAgent.loop_pass ag system it w = (w', Returned c)
    /\ forall r, c <> Return r.

(** The request of the pass is answered with [tool_use] and the pass is
    not cut short. *)
Definition tool_use_pass `{JsRuntime} (ag : ComputerUseAgent.t)
  (system : string) (it : nat) (w : World) : Prop :=
  pass_answered ag system "tool_use" it w /\ not_cut_short ag system it w.

(** The first user message of a run. *)
Definition initial_message (img goal : string) : Message :=
  {| role := user; msg_content := [ImageBlock (JStr img); TextBlock goal] |}.

(** The world in which [run] takes its first screenshot. *)
Definition reset (w : World) : World :=
  set_messages [] (set_context new_AgentContext w).


(** [run] makes exactly [n] passes and [n] requests and reports success
    after [n] iterations. *)
Definition exhausts `{JsRuntime} (ag : ComputerUseAgent.t) (goal : string)
  (n : nat) (systemPrompt : option string) (w : World) : Prop :=
  exists w' r evs,
    ComputerUseAgent.run ag goal n systemPrompt w = (w', Returned r)
    /\ trace w' = trace w ++ evs
    /\ loop_passes evs = seq 0 n
    /\ api_calls evs = n
    /\ RunResult.success r = true
    /\ RunResult.iterations r = Some n.

(** A reply asking for two clicks, with ids [a] and [b]. *)
Definition two_clicks_reply : Response :=
  {| stop_reason := "tool_use";
     resp_content := [TextBlock "Clicking twice.";
                      ToolUseBlock "a" "click" (point 10 20);
                      ToolUseBlock "b" "click" (point 30 40)] |}.

(** An agent whose reasoning service always asks for those two clicks. *)
Definition clicking_agent : ComputerUseAgent.t :=
  with_client (fun _ _ => Returned two_clicks_reply) auto_agent.

(** A before-action hook that lets one action through and throws at the
    next. *)
Definition refuse_second : HookFunction :=
  fun ctx _ =>
    match state ctx !! "armed" with
    | Some _ => (state ctx, Raised "Error: second action refused")
    | None => (<["armed" := JBool true]> (state ctx), Returned JUndefined)
    end.

Definition refusing_agent : ComputerUseAgent.t :=
  with_hooks (HookRegistry.registerBeforeAction refuse_second HookRegistry.new)
    clicking_agent.


(** [evolves P w w'] holds when [w'] keeps the iteration index of [w] and
    extends its trace by events satisfying [P]; messages and history may
    have grown. *)
Record evolves (P : Event -> Prop) (w w' : World) : Prop := {
  evolves_iteration : iteration (context w') = iteration (context w);
  evolves_trace : exists evs, trace w' = trace w ++ evs /\ Forall P evs
}.

Definition is_dispatch_event (e : Event) : Prop := dispatch_event e = true.

(** The clicking agent in dry-run mode. *)
Definition dry_clicking_agent : ComputerUseAgent.t :=
  with_client (fun _ _ => Returned two_clicks_reply) (plain_agent "dry-run" None).

(** An iteration-start hook that throws from iteration 5 on. *)
Definition impatient : HookFunction :=
  fun ctx _ =>
    if Nat.leb 5 (iteration ctx)
    then (state ctx, Raised "Error: too many iterations")
    else (state ctx, Returned JUndefined).

(** The dry-run clicking agent with that hook: its passes 0 to 4 go
    through, a pass 5 would not. *)
Definition impatient_agent : ComputerUseAgent.t :=
  with_hooks (HookRegistry.registerOnIterationStart impatient HookRegistry.new)
    dry_clicking_agent.

(** The plain agent with the hooks [A], [undefined], [B] before actions. *)
Definition chained_agent : ComputerUseAgent.t :=
  with_hooks chain_A_undefined_B auto_agent.

(** ** The registration methods of the agent (agent.ts) *)

Module AgentMethods.

(** [agent.tool(name, description, func)] *)
Definition tool (name description : string) (func : ToolFunction)
  (this : ComputerUseAgent.t) : ComputerUseAgent.t :=
  with_workflow
    (WorkflowEngine.registerTool name description func (ComputerUseAgent.workflow this))
    this.

(** [agent.when(actionType, condition, handler)] *)
Definition when (actionType : string) (condition : ConditionFunction)
  (handler : HandlerFunction) (this : ComputerUseAgent.t) : ComputerUseAgent.t :=
  with_workflow
    (WorkflowEngine.registerConditionalHandler actionType condition handler
       (ComputerUseAgent.workflow this))
    this.

Definition onBeforeScreenshot (func : HookFunction) (this : ComputerUseAgent.t)
  : ComputerUseAgent.t :=
  with_hooks (HookRegistry.registerBeforeScreenshot func (ComputerUseAgent.hooks this))
    this.

Definition onAfterScreenshot (func : HookFunction) (this : ComputerUseAgent.t)
  : ComputerUseAgent.t :=
  with_hooks (HookRegistry.registerAfterScreenshot func (ComputerUseAgent.hooks this))
    this.

Definition onBeforeAction (func : HookFunction) (this : ComputerUseAgent.t)
  : ComputerUseAgent.t :=
  with_hooks (HookRegistry.registerBeforeAction func (ComputerUseAgent.hooks this))
    this.

Definition onAfterAction (func : HookFunction) (this : ComputerUseAgent.t)
  : ComputerUseAgent.t :=
  with_hooks (HookRegistry.registerAfterAction func (ComputerUseAgent.hooks this))
    this.

Definition onToolCall (toolName : option string) (func : HookFunction)
  (this : ComputerUseAgent.t) : ComputerUseAgent.t :=
  with_hooks
    (HookRegistry.registerOnToolCall toolName func (ComputerUseAgent.hooks this))
    this.

Definition onIterationStart (func : HookFunction) (this : ComputerUseAgent.t)
  : ComputerUseAgent.t :=
  with_hooks (HookRegistry.registerOnIterationStart func (ComputerUseAgent.hooks this))
    this.

Definition onIterationEnd (func : HookFunction) (this : ComputerUseAgent.t)
  : ComputerUseAgent.t :=
  with_hooks (HookRegistry.registerOnIterationEnd func (ComputerUseAgent.hooks this))
    this.

End AgentMethods.

(** ** The tool registry *)

(** The engines that the registration methods can build. *)
Inductive Registered : WorkflowEngine.t -> Prop :=
| Registered_new : Registered WorkflowEngine.new
| Registered_tool name description func wf :
    Registered wf ->
    Registered (WorkflowEngine.registerTool name description func wf)
| Registered_handler actionType condition handler wf :
    Registered wf ->
    Registered (WorkflowEngine.registerConditionalHandler actionType condition
                  handler wf).

(** The registry after the calls [registerTool(name, description, func)]
    of [regs], made in this order on [wf]. *)
Definition register_all (regs : list (string * string * ToolFunction))
  (wf : WorkflowEngine.t) : WorkflowEngine.t :=
  fold_left (fun wf r => WorkflowEngine.registerTool r.1.1 r.1.2 r.2 wf) regs wf.

(** The function of the last registration under [toolName] in [regs],
    [earlier] when there is none. *)
Definition last_registered (toolName : string)
  (regs : list (string * string * ToolFunction)) (earlier : option ToolFunction)
  : option ToolFunction :=
  fold_left (fun found r => if String.eqb toolName r.1.1 then Some r.2 else found)
    regs earlier.

(** Every key of the registry is the name of the tool stored under it. *)
Definition keyed_by_name (m : list (string * ToolDefinition)) : Prop :=
  Forall (fun kt => name kt.2 = kt.1) m.

Definition schema_names (schemas : list ToolSchema) : list string :=
  map schema_name schemas.

(** The outcome of calling the function [func] on [args] in world [w]. *)
Definition tool_call (toolName : string) (func : ToolFunction) (args : JsValue)
  (w : World) : World * Outcome JsValue :=
  (log (EvCustomTool toolName args (func (state (context w)) args).2)
     (set_state (func (state (context w)) args).1 w),
   (func (state (context w)) args).2).

Definition tool_not_found (toolName : string) : string :=
  "Error: Tool '" +:+ toolName +:+ "' not found".

(** A tool that doubles the number it is given, and one that throws. *)
Definition doubling_tool : ToolFunction :=
  fun s args =>
    match args with
    | JNum n => (s, Returned (JNum (2 * n)))
    | _ => (s, Raised "Error: not a number")
    end.

Definition failing_tool : ToolFunction :=
  fun s _ => (s, Raised "Error: out of service").

Definition two_tools : WorkflowEngine.t :=
  WorkflowEngine.registerTool "double" "Double a number, second version" doubling_tool
    (WorkflowEngine.registerTool "status" "Report the status" failing_tool
       (WorkflowEngine.registerTool "double" "Double a number" failing_tool
          WorkflowEngine.new)).

(** ** Hook triggers *)

(** The trace of an observer trigger whose first hooks returned [results]:
    every hook receives the same arguments. *)
Fixpoint observer_events (point : HookPoint) (args : list JsValue) (i : nat)
  (results : list JsValue) : list Event :=
  match results with
  | [] => []
  | r :: rest => EvHook point i args (Returned r) :: observer_events point args (S i) rest
  end.

(** What an observer trigger over [hooks] did between [w] and [w']: either
    all hooks returned, or one threw and those after it were not called. *)
Definition observed (point : HookPoint) (args : list JsValue)
  (hooks : list HookFunction) (w : World) (r : World * Outcome unit) : Prop :=
  exists results,
    match r with
    | (w', Returned _) =>
        length results = length hooks
        /\ trace w' = trace w ++ observer_events point args 0 results
    | (w', Raised e) =>
        length results < length hooks
        /\ trace w' = trace w ++ observer_events point args 0 results
                        ++ [EvHook point (length results) args (Raised e)]
    end.

(** The hooks registered for the tool name and the wildcard hooks. *)
Definition specific_hooks (hooks : HookRegistry.t) (toolName : string)
  : list HookFunction :=
  default [] (HookRegistry.onToolCall hooks !! toolName).

Definition wildcard_hooks (hooks : HookRegistry.t) : list HookFunction :=
  default [] (HookRegistry.onToolCall hooks !! "*").

(** A hook that adds 1 to the [x] of the payload it is given last. *)
Definition shift_x : HookFunction :=
  fun ctx args =>
    match last args with
    | Some payload =>
        match get_field payload "x" with
        | JNum n => (state ctx, Returned (JObj [("x", JNum (n + 1));
                                                  ("y", get_field payload "y")]))
        | _ => (state ctx, Returned JUndefined)
        end
    | None => (state ctx, Returned JUndefined)
    end.

(** ** The executor *)

(** The robot calls a [scroll] may make: a move to the coordinates when
    both are given, and a scroll whose horizontal amount is 0 and whose
    vertical amount is [-amount] for [up] and [left], [amount] otherwise. *)
Definition scroll_robot_event `{JsRuntime} (direction amount x y : JsValue)
  (e : Event) : Prop :=
  match e with
  | EvRobot (scrollMouse dx dy) =>
      dx = JNum 0
      /\ dy = if js_is_str direction "up" || js_is_str direction "left"
              then js_neg amount else amount
  | EvRobot (moveMouse mx my) =>
      ActionExecutor.has_coordinates x y = true /\ mx = x /\ my = y
  | _ => False
  end.

(** The robot never throws. *)
Definition robot_reliable (ex : ActionExecutor.t) : Prop :=
  forall w c, ActionExecutor.robot ex w c = None.

(** The executor really acts: it is not in dry-run mode. *)
Definition acting (ex : ActionExecutor.t) : Prop :=
  String.eqb (ActionExecutor.confirmationMode ex) "dry-run" = false.

(** An executor without allowed region, in mode [auto], whose robot never
    throws. *)
Definition free_executor : ActionExecutor.t :=
  {| ActionExecutor.allowedRegion := None;
     ActionExecutor.safetyDelay := 100;
     ActionExecutor.confirmationMode := "auto";
     ActionExecutor.rateLimitDelay := 50;
     ActionExecutor.robot := fun _ _ => None |}.

(** ** Dispatch *)

(** The call of the executor that the [switch] of [executeTool] makes for
    the built-in action [toolName] on the payload [action]:
    [this.executor.click(action.x, action.y, action.button ?? "left",
    action.clicks ?? 1)] and the like. *)
Definition perform `{JsRuntime} (ex : ActionExecutor.t) (toolName : string)
  (action : JsValue) : M ActionResult :=
  if String.eqb toolName "mouse_move" then
    x <- get_prop action "x" ;;
    y <- get_prop action "y" ;;
    ActionExecutor.mouseMove ex x y
  else if String.eqb toolName "click" then
    x <- get_prop action "x" ;;
    y <- get_prop action "y" ;;
    button <- get_prop action "button" ;;
    clicks <- get_prop action "clicks" ;;
    ActionExecutor.click ex x y (nullish_or button MouseButton.LEFT)
      (nullish_or clicks (JNum 1))
  else if String.eqb toolName "type" then
    text <- get_prop action "text" ;;
    ActionExecutor.typeText ex text
  else if String.eqb toolName "key" then
    key <- get_prop action "key" ;;
    ActionExecutor.pressKey ex key
  else
    direction <- get_prop action "direction" ;;
    amount <- get_prop action "amount" ;;
    x <- get_prop action "x" ;;
    y <- get_prop action "y" ;;
    ActionExecutor.scroll ex direction (nullish_or amount (JNum 3)) x y.

(** [w'] keeps the last screenshot of [w]. *)
Definition keeps_lastScreenshot (w w' : World) : Prop :=
  lastScreenshot (context w') = lastScreenshot (context w).

(** A custom tool registered under the built-in name [screenshot]. *)
Definition screenshot_shadowed : WorkflowEngine.t :=
  WorkflowEngine.registerTool "screenshot" "Describe the screen in words"
    (fun s _ => (s, Returned (JStr "a login form")))
    WorkflowEngine.new.

Definition describing_agent : ComputerUseAgent.t :=
  with_workflow screenshot_shadowed auto_agent.

(** An agent with a before-action hook that replaces the payload and an
    after-action observer. *)
Definition observing_agent : ComputerUseAgent.t :=
  AgentMethods.onAfterAction (const_hook JUndefined)
    (AgentMethods.onBeforeAction (const_hook (point 3 4)) auto_agent).

(** ** Runs *)

Definition iteration_end_hook (e : Event) : Prop :=
  match e with EvHook OnIterationEnd _ _ _ => True | _ => False end.


(** [w'] extends the messages and the action history of [w]. *)
Definition grows (w w' : World) : Prop :=
  (exists ms, messages w' = messages w ++ ms)
  /\ (exists rs, actionHistory (context w') = actionHistory (context w) ++ rs).

Definition builtin_names : list string :=
  ["screenshot"; "mouse_move"; "click"; "type"; "key"; "scroll"].

(** A reasoning service that ends the turn when the conversation holds
    one message, and asks for two clicks otherwise. *)
Definition end_turn_at_first : World -> Request -> Outcome Response :=
  fun _ req =>
    if Nat.eqb (length (req_messages req)) 1
    then Returned {| stop_reason := "end_turn"; resp_content := [TextBlock "Done."] |}
    else Returned two_clicks_reply.

Definition brief_agent : ComputerUseAgent.t :=
  with_client end_turn_at_first auto_agent.

(** A reply cut off by the token limit in the middle of a tool request. *)
Definition truncated_reply : Response :=
  {| stop_reason := "max_tokens";
     resp_content := [ToolUseBlock "toolu_9" "click" (point 10 20)] |}.

(** The number of schemas named [toolName] sent with every request. *)
Definition advertised (ag : ComputerUseAgent.t) (toolName : string) : nat :=
  count_occ String.string_dec
    (schema_names (ComputerUseAgent.buildTools ag)) toolName.

(** * Sequencing *)

Lemma bind_eq {A B} (m : M A) (k : A -> M B) w :
  bind m k w
  = match m w with
    | (w1, Returned a) => k a w1
    | (w1, Raised e) => (w1, Raised e)
    end.
Proof. reflexivity. Qed.

Section Respects.
Variable R : World -> World -> Prop.
Hypothesis R_refl : forall w, R w w.
Hypothesis R_trans : forall w1 w2 w3, R w1 w2 -> R w2 w3 -> R w1 w3.

Lemma respects_ret {A} (a : A) : respects R (ret a).
Proof. intros w. apply R_refl. Qed.

Lemma respects_throw {A} (e : string) : respects R (@throw A e).
Proof. intros w. apply R_refl. Qed.

Lemma respects_gets {A} (f : World -> A) : respects R (gets f).
Proof. intros w. apply R_refl. Qed.

Lemma respects_bind {A B} (m : M A) (k : A -> M B) :
  respects R m -> (forall a, respects R (k a)) -> respects R (bind m k).
Proof.
  intros Hm Hk w. unfold bind. specialize (Hm w).
  destruct (m w) as [w1 [a|e]]; simpl in *; [|assumption].
  eapply R_trans; [eassumption|apply Hk].
Qed.

Lemma respects_try_catch {A} (m : M A) (h : string -> M A) :
  respects R m -> (forall e, respects R (h e)) -> respects R (try_catch m h).
Proof.
  intros Hm Hh w. unfold try_catch. specialize (Hm w).
  destruct (m w) as [w1 [a|e]]; simpl in *; [assumption|].
  eapply R_trans; [eassumption|apply Hh].
Qed.

Lemma respects_forEach_from {A} (f : nat -> A -> M unit) (l : list A) :
  (forall i a, respects R (f i a)) -> forall i, respects R (forEach_from i f l).
Proof.
  intros Hf. induction l as [|a l IH]; intros i; simpl.
  - apply respects_ret.
  - apply respects_bind; [apply Hf|intros _; apply IH].
Qed.

Lemma respects_forEach {A} (f : nat -> A -> M unit) (l : list A) :
  (forall i a, respects R (f i a)) -> respects R (forEach f l).
Proof. intros Hf. apply respects_forEach_from, Hf. Qed.

Lemma respects_forEach_var_from {A V} (f : nat -> A -> V -> M V) (l : list A) :
  (forall i a v, respects R (f i a v)) ->
  forall i v, respects R (forEach_var_from i f l v).
Proof.
  intros Hf. induction l as [|a l IH]; intros i v; simpl.
  - apply respects_ret.
  - apply respects_bind; [apply Hf|intros v'; apply IH].
Qed.

Lemma respects_forEach_var {A V} (f : nat -> A -> V -> M V) (l : list A) v :
  (forall i a v, respects R (f i a v)) -> respects R (forEach_var f l v).
Proof. intros Hf. apply respects_forEach_var_from, Hf. Qed.

Lemma respects_for_of {A V} (f : A -> V -> M V) (l : list A) :
  (forall a v, respects R (f a v)) -> forall v, respects R (for_of f l v).
Proof.
  intros Hf. induction l as [|a l IH]; intros v; simpl.
  - apply respects_ret.
  - apply respects_bind; [apply Hf|intros v'; apply IH].
Qed.

Lemma respects_repeat_M (n : nat) (m : M unit) :
  respects R m -> respects R (repeat_M n m).
Proof.
  intros Hm. induction n as [|n IH]; simpl.
  - apply respects_ret.
  - apply respects_bind; [exact Hm|intros _; exact IH].
Qed.

Lemma respects_get_prop v k : respects R (get_prop v k).
Proof. destruct v; simpl; first [apply respects_throw | apply respects_ret]. Qed.

End Respects.

Section Frame.
Variable P : Event -> Prop.

Lemma frame_refl w : frame P w w.
Proof. split; try reflexivity. exists []. by rewrite app_nil_r. Qed.

Lemma frame_trans w1 w2 w3 : frame P w1 w2 -> frame P w2 w3 -> frame P w1 w3.
Proof.
  intros [Hi1 Hh1 Hm1 (evs1 & Ht1 & HP1)] [Hi2 Hh2 Hm2 (evs2 & Ht2 & HP2)].
  split; try congruence.
  exists (evs1 ++ evs2). split.
  - by rewrite Ht2, Ht1, app_assoc.
  - by apply Forall_app.
Qed.

Lemma frame_log e w : P e -> frame P w (log e w).
Proof.
  intros He. split; try reflexivity.
  exists [e]. split; [reflexivity|by constructor].
Qed.

Lemma frame_set_state s w : frame P w (set_state s w).
Proof. split; try reflexivity. exists []. by rewrite app_nil_r. Qed.

Lemma frame_set_lastScreenshot s w : frame P w (set_lastScreenshot s w).
Proof. split; try reflexivity. exists []. by rewrite app_nil_r. Qed.

Lemma frame_sleep n w : frame P w (sleep n w).
Proof. split; try reflexivity. exists []. by rewrite app_nil_r. Qed.

Lemma frame_set_lastActionTime n w : frame P w (set_lastActionTime n w).
Proof. split; try reflexivity. exists []. by rewrite app_nil_r. Qed.

Ltac frame_side := first [exact frame_refl | exact frame_trans].

Lemma respects_modify (f : World -> World) :
  (forall w, frame P w (f w)) -> respects (frame P) (modify f).
Proof. intros Hf w. apply Hf. Qed.

Lemma respects_call_hook point i h args :
  (forall o, P (EvHook point i args o)) ->
  respects (frame P) (call_hook point i h args).
Proof.
  intros HP w. unfold call_hook. destruct (h (context w) args) as [s o]. simpl.
  eapply frame_trans; [apply frame_set_state|apply frame_log, HP].
Qed.

Lemma respects_observe point args hooks :
  (forall i o, P (EvHook point i args o)) ->
  respects (frame P) (HookRegistry.observe point args hooks).
Proof.
  intros HP. apply respects_forEach; try frame_side.
  intros i h. apply respects_bind; try frame_side.
  - apply respects_call_hook. auto.
  - intros _. apply respects_ret, frame_refl.
Qed.

Lemma respects_chain point hooks (mk : JsValue -> list JsValue) v :
  (forall i args o, P (EvHook point i args o)) ->
  respects (frame P)
    (forEach_var
       (fun i hook cand =>
          result <- call_hook point i hook (mk cand) ;;
          ret (if negb (is_undefined result) then result else cand))
       hooks v).
Proof.
  intros HP. apply respects_forEach_var; try frame_side.
  intros i h c. apply respects_bind; try frame_side.
  - apply respects_call_hook. auto.
  - intros r. apply respects_ret, frame_refl.
Qed.

Lemma respects_triggerOnToolCall hooks toolName args :
  (forall key i a o, P (EvHook (OnToolCall key) i a o)) ->
  respects (frame P) (HookRegistry.triggerOnToolCall hooks toolName args).
Proof.
  intros HP. unfold HookRegistry.triggerOnToolCall.
  apply respects_bind; [exact frame_trans| |].
  - destruct (_ !! toolName); [|apply respects_ret, frame_refl].
    apply (respects_chain (OnToolCall toolName) _ (fun c => [c])). auto.
  - intros a. destruct (_ !! "*"); [|apply respects_ret, frame_refl].
    apply (respects_chain (OnToolCall "*") _ (fun c => [JStr toolName; c])). auto.
Qed.

End Frame.

Lemma frame_weaken (P Q : Event -> Prop) w w' :
  (forall e, P e -> Q e) -> frame P w w' -> frame Q w w'.
Proof.
  intros HPQ [Hi Hh Hm (evs & Ht & HP)]. split; try assumption.
  exists evs. split; [assumption|]. eapply Forall_impl; eauto.
Qed.


(** ** Frames of the methods *)

Section FrameMethods.
Context `{JsRuntime}.
Variable P : Event -> Prop.

Local Abbreviation ok := (respects (frame P)).

Lemma fr_ret {A} (a : A) : ok (ret a).
Proof. apply respects_ret, frame_refl. Qed.

Lemma fr_throw {A} e : ok (@throw A e).
Proof. apply respects_throw, frame_refl. Qed.

Lemma fr_gets {A} (f : World -> A) : ok (gets f).
Proof. apply respects_gets, frame_refl. Qed.

Lemma fr_get_prop v k : ok (get_prop v k).
Proof. apply respects_get_prop, frame_refl. Qed.

Lemma fr_bind {A B} (m : M A) (k : A -> M B) :
  ok m -> (forall a, ok (k a)) -> ok (bind m k).
Proof. apply respects_bind, frame_trans. Qed.

Lemma fr_try_catch {A} (m : M A) (h : string -> M A) :
  ok m -> (forall e, ok (h e)) -> ok (try_catch m h).
Proof. apply respects_try_catch, frame_trans. Qed.

Lemma fr_sleep n : ok (modify (sleep n)).
Proof. apply respects_modify, frame_sleep. Qed.

Lemma fr_set_lastScreenshot s : ok (modify (set_lastScreenshot s)).
Proof. apply respects_modify, frame_set_lastScreenshot. Qed.

Lemma fr_log e : P e -> ok (modify (log e)).
Proof. intros He. apply respects_modify. intros w. by apply frame_log. Qed.

Ltac fr :=
  repeat match goal with
    | |- respects _ (ret _) => apply fr_ret
    | |- respects _ (throw _) => apply fr_throw
    | |- respects _ (gets _) => apply fr_gets
    | |- respects _ (get_prop _ _) => apply fr_get_prop
    | |- respects _ (modify (sleep _)) => apply fr_sleep
    | |- respects _ (modify (set_lastScreenshot _)) => apply fr_set_lastScreenshot
    | |- respects _ (bind _ _) => apply fr_bind; [|intros ?]
    | |- respects _ (try_catch _ _) => apply fr_try_catch; [|intros ?]
    end.

(** *** ActionExecutor *)

Lemma fr_rateLimit ex : ok (ActionExecutor.rateLimit ex).
Proof.
  intros w. unfold ActionExecutor.rateLimit. simpl.
  destruct (_ <? _)%Z.
  - eapply frame_trans; [apply frame_sleep|apply frame_set_lastActionTime].
  - apply frame_set_lastActionTime.
Qed.

Lemma fr_robot_call ex c : P (EvRobot c) -> ok (ActionExecutor.robot_call ex c).
Proof.
  intros Hc w. unfold ActionExecutor.robot_call.
  destruct (ActionExecutor.robot ex w c); simpl; by apply frame_log.
Qed.

Lemma fr_executeWithSafety_dry ex f t :
  ActionExecutor.confirmationMode ex = "dry-run" ->
  ok (ActionExecutor.executeWithSafety ex f t).
Proof.
  intros Hd. unfold ActionExecutor.executeWithSafety. rewrite Hd. simpl.
  apply fr_ret.
Qed.

Lemma fr_executeWithSafety ex f t :
  ok f -> ok (ActionExecutor.executeWithSafety ex f t).
Proof.
  intros Hf. unfold ActionExecutor.executeWithSafety.
  destruct (String.eqb _ _); fr; auto using fr_rateLimit.
Qed.

Lemma fr_repeat_M n (m : M unit) : ok m -> ok (repeat_M n m).
Proof. apply respects_repeat_M; [exact (frame_refl P)|exact (frame_trans P)]. Qed.

Section Executor.
Variable ex : ActionExecutor.t.
Hypothesis Hex : robot_within P ex.

Lemma fr_safely f t :
  ((forall c, P (EvRobot c)) -> ok f) ->
  ok (ActionExecutor.executeWithSafety ex f t).
Proof.
  intros Hf. destruct Hex as [Hd|Hr].
  - by apply fr_executeWithSafety_dry.
  - apply fr_executeWithSafety. auto.
Qed.

Lemma fr_mouseMove x y : ok (ActionExecutor.mouseMove ex x y).
Proof.
  unfold ActionExecutor.mouseMove. destruct (negb _); [apply fr_ret|].
  apply fr_safely. intros Hr. unfold ActionExecutor.mouseMove_actionFunc.
  fr. by apply fr_robot_call.
Qed.

Lemma fr_click x y button clicks : ok (ActionExecutor.click ex x y button clicks).
Proof.
  unfold ActionExecutor.click. destruct (negb _); [apply fr_ret|].
  apply fr_safely. intros Hr. unfold ActionExecutor.click_actionFunc.
  fr; [by apply fr_robot_call|]. apply fr_repeat_M. by apply fr_robot_call.
Qed.

Lemma fr_typeText text : ok (ActionExecutor.typeText ex text).
Proof.
  unfold ActionExecutor.typeText. apply fr_safely. intros Hr.
  unfold ActionExecutor.typeText_actionFunc. fr. by apply fr_robot_call.
Qed.

Lemma fr_pressKey key : ok (ActionExecutor.pressKey ex key).
Proof.
  unfold ActionExecutor.pressKey. apply fr_safely. intros Hr.
  unfold ActionExecutor.pressKey_actionFunc. fr. by apply fr_robot_call.
Qed.

Lemma fr_scroll direction amount x y :
  ok (ActionExecutor.scroll ex direction amount x y).
Proof.
  unfold ActionExecutor.scroll. destruct (_ && negb _); [apply fr_ret|].
  apply fr_safely. intros Hr. unfold ActionExecutor.scroll_actionFunc.
  fr; [|by apply fr_robot_call].
  destruct (ActionExecutor.has_coordinates x y);
    [by apply fr_robot_call|apply fr_ret].
Qed.

End Executor.

(** *** HookRegistry *)

Hypothesis P_dispatch :
  forall e, dispatch_event e = true -> is_robot_call e = false -> P e.

Lemma fr_observe point args hooks : ok (HookRegistry.observe point args hooks).
Proof. apply respects_observe. intros. by apply P_dispatch. Qed.

Lemma fr_triggerBeforeAction hooks action :
  ok (HookRegistry.triggerBeforeAction hooks action).
Proof.
  unfold HookRegistry.triggerBeforeAction.
  apply (respects_chain P BeforeAction _ (fun c => [c])).
  intros. by apply P_dispatch.
Qed.

Lemma fr_triggerOnToolCall hooks toolName args :
  ok (HookRegistry.triggerOnToolCall hooks toolName args).
Proof. apply respects_triggerOnToolCall. intros. by apply P_dispatch. Qed.

(** *** WorkflowEngine *)

Lemma fr_workflow_executeTool wf toolName args :
  ok (WorkflowEngine.executeTool wf toolName args).
Proof.
  unfold WorkflowEngine.executeTool. destruct (Map_get _ _); [|apply fr_throw].
  intros w. unfold WorkflowEngine.call_tool.
  destruct (function _ _ _) as [s o]. simpl.
  eapply frame_trans; [apply frame_set_state|]. apply frame_log. by apply P_dispatch.
Qed.

Lemma fr_checkConditionalHandlers wf actionType action :
  ok (WorkflowEngine.checkConditionalHandlers wf actionType action).
Proof.
  unfold WorkflowEngine.checkConditionalHandlers.
  destruct (_ !! actionType); [|apply fr_ret].
  apply respects_forEach; [exact (frame_refl P)|exact (frame_trans P)|].
  intros i ch. apply fr_try_catch.
  - apply fr_bind.
    + intros w. unfold WorkflowEngine.call_condition.
      destruct (condition _ _ _) as [s o]. simpl.
      eapply frame_trans; [apply frame_set_state|].
      apply frame_log. by apply P_dispatch.
    + intros [|]; [|apply fr_ret].
      intros w. unfold WorkflowEngine.call_handler.
      destruct (handler _ _ _) as [s o]. simpl.
      eapply frame_trans; [apply frame_set_state|].
      apply frame_log. by apply P_dispatch.
  - intros e. apply fr_log. by apply P_dispatch.
Qed.

(** *** ComputerUseAgent *)

Lemma fr_takeScreenshot ag : ok (ComputerUseAgent.takeScreenshot ag).
Proof.
  unfold ComputerUseAgent.takeScreenshot,
    HookRegistry.triggerBeforeScreenshot, HookRegistry.triggerAfterScreenshot.
  fr; try apply fr_observe.
  intros w. unfold ComputerUseAgent.captureBase64. simpl.
  apply frame_log. by apply P_dispatch.
Qed.

Lemma fr_executeTool ag toolName toolInput :
  robot_within P (ComputerUseAgent.executor ag) ->
  ok (ComputerUseAgent.executeTool ag toolName toolInput).
Proof.
  intros Hex. unfold ComputerUseAgent.executeTool,
    HookRegistry.triggerAfterAction.
  apply fr_bind; [apply fr_triggerOnToolCall|intros modifiedInput].
  destruct (WorkflowEngine.hasTool _ _).
  { fr. apply fr_workflow_executeTool. }
  repeat (destruct (String.eqb toolName _));
    fr;
    auto using fr_takeScreenshot, fr_triggerBeforeAction, fr_observe,
      fr_checkConditionalHandlers, fr_mouseMove, fr_click, fr_typeText,
      fr_pressKey, fr_scroll.
Qed.

End FrameMethods.
(** * The allowed region: proofs *)

Lemma checkAllowed_inside `{JsRuntime} ex r (x y : Z) :
  ActionExecutor.allowedRegion ex = Some r ->
  ActionExecutor.checkAllowed ex (JNum x) (JNum y) = true <-> inside r x y.
Proof.
  intros Hr. unfold ActionExecutor.checkAllowed, inside, num_le_js, js_le_num.
  rewrite Hr. simpl. rewrite !andb_true_iff, !Z.leb_le. tauto.
Qed.

Lemma checkAllowed_outside `{JsRuntime} ex r (x y : Z) :
  ActionExecutor.allowedRegion ex = Some r ->
  ~ inside r x y ->
  ActionExecutor.checkAllowed ex (JNum x) (JNum y) = false.
Proof.
  intros Hr Hout. apply not_true_is_false. intros Hc.
  apply Hout. by apply (checkAllowed_inside ex r).
Qed.

(** C4.  With an allowed region [r] configured, a coordinate-bearing
    operation at [(x, y)] ([mouseMove], [click], [doubleClick], [scroll]
    with both coordinates) passes the region check exactly when
    [r.x <= x <= r.x + r.width] and [r.y <= y <= r.y + r.height], bounds
    included.  Inside, the operation is handed to [executeWithSafety];
    outside, it returns a failed result whose error spells out the
    coordinates, and leaves the world untouched: no robot call is made. *)
Theorem region_check_inclusive `{JsRuntime} (ex : ActionExecutor.t)
  (r : ScreenRegion.t) (x y : Z) :
  ActionExecutor.allowedRegion ex = Some r ->
  (inside r x y ->
     ActionExecutor.mouseMove ex (JNum x) (JNum y)
       = ActionExecutor.executeWithSafety ex
           (ActionExecutor.mouseMove_actionFunc ex (JNum x) (JNum y)) MOUSE_MOVE
     /\ (forall button clicks,
           ActionExecutor.click ex (JNum x) (JNum y) button clicks
           = ActionExecutor.executeWithSafety ex
               (ActionExecutor.click_actionFunc ex (JNum x) (JNum y)
                  (default_param button MouseButton.LEFT)
                  (default_param clicks (JNum 1))) CLICK)
     /\ (forall direction amount,
           ActionExecutor.scroll ex direction amount (JNum x) (JNum y)
           = ActionExecutor.executeWithSafety ex
               (ActionExecutor.scroll_actionFunc ex direction
                  (default_param amount (JNum 3)) (JNum x) (JNum y)) SCROLL))
  /\ (~ inside r x y ->
      forall w,
        let failed actionType :=
          (w, Returned
                {| success := false; actionType := actionType;
                   error := Some ("Coordinates (" +:+ decimal x +:+ ", "
                                  +:+ decimal y +:+ ") outside allowed region");
                   data := JUndefined |}) in
        ActionExecutor.mouseMove ex (JNum x) (JNum y) w = failed MOUSE_MOVE
        /\ (forall button clicks,
              ActionExecutor.click ex (JNum x) (JNum y) button clicks w
              = failed CLICK)
        /\ ActionExecutor.doubleClick ex (JNum x) (JNum y) w = failed CLICK
        /\ (forall direction amount,
              ActionExecutor.scroll ex direction amount (JNum x) (JNum y) w
              = failed SCROLL)).
Proof.
  intros Hr. split.
  - intros Hin. apply (checkAllowed_inside ex r) in Hin; [|exact Hr].
    unfold ActionExecutor.mouseMove, ActionExecutor.click, ActionExecutor.scroll.
    rewrite Hin. simpl. rewrite ?andb_false_r. auto.
  - intros Hout w. pose proof (checkAllowed_outside ex r x y Hr Hout) as Hc.
    unfold ActionExecutor.doubleClick, ActionExecutor.mouseMove,
      ActionExecutor.click, ActionExecutor.scroll.
    rewrite Hc. simpl. auto.
Qed.

(** In the region [{x:100, y:100, width:800, height:600}] a click at the
    corner [(900, 700)] is permitted and one at [(50, 50)] is refused. *)
Lemma region_check_inclusive_witness :
  (forall button clicks,
     @ActionExecutor.click stub_runtime region_executor (JNum 900) (JNum 700)
       button clicks
     = ActionExecutor.executeWithSafety region_executor
         (@ActionExecutor.click_actionFunc stub_runtime region_executor
            (JNum 900) (JNum 700)
            (default_param button MouseButton.LEFT)
            (default_param clicks (JNum 1))) CLICK)
  /\ (forall w button clicks,
        @ActionExecutor.click stub_runtime region_executor (JNum 50) (JNum 50)
          button clicks w
        = (w, Returned
                {| success := false; actionType := CLICK;
                   error := Some "Coordinates (50, 50) outside allowed region";
                   data := JUndefined |})).
Proof.
  split.
  - apply (@region_check_inclusive stub_runtime region_executor
             region_100_100_800_600 900 700 eq_refl).
    unfold inside; simpl; lia.
  - intros w.
    apply (@region_check_inclusive stub_runtime region_executor
             region_100_100_800_600 50 50 eq_refl).
    unfold inside; simpl; lia.
Defined.

(** * Dry-run mode *)

Lemma bind_Returned {A B} (m : M A) (k : A -> M B) w w' b :
  bind m k w = (w', Returned b) ->
  exists w1 a, m w = (w1, Returned a) /\ k a w1 = (w', Returned b).
Proof.
  unfold bind. destruct (m w) as [w1 [a|e]]; [eauto|discriminate].
Qed.

Lemma ret_Returned {A} (a b : A) w w' :
  ret a w = (w', Returned b) -> w' = w /\ b = a.
Proof. unfold ret. intros [= -> ->]. auto. Qed.

Ltac inv_bind H :=
  let w := fresh "w" in
  let a := fresh "a" in
  let H1 := fresh "H" in
  apply bind_Returned in H; destruct H as (w & a & H1 & H).

Section DryRun.
Context `{JsRuntime}.
Variable ex : ActionExecutor.t.
Hypothesis Hdry : ActionExecutor.confirmationMode ex = "dry-run".

Lemma executeWithSafety_dry f t w :
  ActionExecutor.executeWithSafety ex f t w
  = (w, Returned {| success := true; actionType := t; error := None;
                    data := JObj [("dryRun", JBool true)] |}).
Proof. unfold ActionExecutor.executeWithSafety. by rewrite Hdry. Qed.

Lemma dry_result f t w w' r :
  ActionExecutor.executeWithSafety ex f t w = (w', Returned r) ->
  dry_run_marked r.
Proof. rewrite executeWithSafety_dry. intros [= _ <-]. by split. Qed.

Lemma mouseMove_dry x y w w' r :
  ActionExecutor.mouseMove ex x y w = (w', Returned r) ->
  dry_run_marked r \/ out_of_region r.
Proof.
  unfold ActionExecutor.mouseMove. destruct (negb _).
  - intros [= _ <-]. right. by eexists _, _, _.
  - intros Hr. left. by eapply dry_result.
Qed.

Lemma click_dry x y b c w w' r :
  ActionExecutor.click ex x y b c w = (w', Returned r) ->
  dry_run_marked r \/ out_of_region r.
Proof.
  unfold ActionExecutor.click. destruct (negb _).
  - intros [= _ <-]. right. by eexists _, _, _.
  - intros Hr. left. by eapply dry_result.
Qed.

Lemma scroll_dry d a x y w w' r :
  ActionExecutor.scroll ex d a x y w = (w', Returned r) ->
  dry_run_marked r \/ out_of_region r.
Proof.
  unfold ActionExecutor.scroll. destruct (_ && negb _).
  - intros [= _ <-]. right. by eexists _, _, _.
  - intros Hr. left. by eapply dry_result.
Qed.

End DryRun.

Lemma executeTool_dry_result `{JsRuntime} ag toolName toolInput w w' r :
  ActionExecutor.confirmationMode (ComputerUseAgent.executor ag) = "dry-run" ->
  WorkflowEngine.hasTool (ComputerUseAgent.workflow ag) toolName = false ->
  executor_action toolName ->
  ComputerUseAgent.executeTool ag toolName toolInput w = (w', Returned r) ->
  dry_run_marked r \/ out_of_region r.
Proof.
  intros Hdry Hno Hname Hrun. unfold ComputerUseAgent.executeTool in Hrun.
  inv_bind Hrun. rewrite Hno in Hrun.
  destruct Hname as [-> | [-> | [-> | [-> | ->]]]]; simpl in Hrun;
    repeat inv_bind Hrun; apply ret_Returned in Hrun as [_ ->].
  - eapply mouseMove_dry; eauto.
  - eapply click_dry; eauto.
  - left. eapply dry_result; eauto.
  - left. eapply dry_result; eauto.
  - eapply scroll_dry; eauto.
Qed.

(** C5, as the code has it.  In dry-run mode every executor operation whose
    coordinates pass the region check returns the success
    [{dryRun: true}] and leaves the world untouched; dispatching
    [mouse_move], [click], [type], [key] or [scroll] can only return that
    success or the out-of-region refusal; and no dispatch whatever, the
    really captured [screenshot] included, makes a robot call. *)
Theorem dry_run_isolation `{JsRuntime} (ag : ComputerUseAgent.t) :
  let ex := ComputerUseAgent.executor ag in
  ActionExecutor.confirmationMode ex = "dry-run" ->
  (forall w,
     let dry t :=
       (w, Returned {| success := true; actionType := t; error := None;
                       data := JObj [("dryRun", JBool true)] |}) in
     (forall x y, ActionExecutor.checkAllowed ex x y = true ->
                  ActionExecutor.mouseMove ex x y w = dry MOUSE_MOVE)
     /\ (forall x y button clicks,
           ActionExecutor.checkAllowed ex x y = true ->
           ActionExecutor.click ex x y button clicks w = dry CLICK)
     /\ (forall text, ActionExecutor.typeText ex text w = dry TYPE)
     /\ (forall key, ActionExecutor.pressKey ex key w = dry KEY)
     /\ (forall direction amount x y,
           ActionExecutor.has_coordinates x y = false
           \/ ActionExecutor.checkAllowed ex x y = true ->
           ActionExecutor.scroll ex direction amount x y w = dry SCROLL))
  /\ (forall toolName toolInput w w' r,
        WorkflowEngine.hasTool (ComputerUseAgent.workflow ag) toolName = false ->
        executor_action toolName ->
        ComputerUseAgent.executeTool ag toolName toolInput w = (w', Returned r) ->
        dry_run_marked r \/ out_of_region r)
  /\ (forall toolName toolInput w,
        frame no_robot_call w
          (ComputerUseAgent.executeTool ag toolName toolInput w).1).
Proof.
  intros ex Hdry. split; [|split].
  - intros w dry. subst dry.
    unfold ActionExecutor.mouseMove, ActionExecutor.click,
      ActionExecutor.typeText, ActionExecutor.pressKey, ActionExecutor.scroll.
    repeat split; intros.
    + rewrite H0. simpl. by apply executeWithSafety_dry.
    + rewrite H0. simpl. by apply executeWithSafety_dry.
    + by apply executeWithSafety_dry.
    + by apply executeWithSafety_dry.
    + replace (_ && negb _) with false; [by apply executeWithSafety_dry|].
      destruct H0 as [-> | ->]; [reflexivity|by rewrite andb_false_r].
  - intros. by eapply executeTool_dry_result.
  - intros toolName toolInput.
    apply (fr_executeTool no_robot_call); [|by left].
    intros e _ He. exact He.
Qed.

(** In dry-run mode a click inside the region returns the marker, and
    the trace of a dispatched click holds no robot call. *)
Lemma dry_run_isolation_witness :
  @ActionExecutor.click stub_runtime (ComputerUseAgent.executor dry_run_agent)
    (JNum 900) (JNum 700) JUndefined JUndefined init_world
  = (init_world,
     Returned {| success := true; actionType := CLICK; error := None;
                 data := JObj [("dryRun", JBool true)] |})
  /\ frame no_robot_call init_world
       (@ComputerUseAgent.executeTool stub_runtime dry_run_agent "click"
          (point 900 700) init_world).1.
Proof.
  destruct (@dry_run_isolation stub_runtime dry_run_agent eq_refl)
    as (Hex & _ & Hframe).
  split.
  - apply (Hex init_world). reflexivity.
  - apply Hframe.
Defined.

(** C5 as stated fails: in dry-run mode a dispatched [screenshot] is
    captured for real and its data is the image, not a dry-run marker;
    and a click outside the allowed region fails. *)
Lemma dry_run_screenshot_not_marked :
  exists w r,
    @ComputerUseAgent.executeTool stub_runtime dry_run_agent "screenshot"
      (JObj []) init_world = (w, Returned r)
    /\ data r = JObj [("image", JStr "iVBORw0KGgo=")]
    /\ trace w = [EvCapture (Returned "iVBORw0KGgo=")]
    /\ ~ dry_run_marked r
    /\ exists w2 r2,
         @ComputerUseAgent.executeTool stub_runtime dry_run_agent "click"
           (point 50 50) init_world = (w2, Returned r2)
         /\ success r2 = false.
Proof.
  eexists _, _. split; [vm_compute; reflexivity|].
  split; [reflexivity|]. split; [reflexivity|]. split.
  - intros [_ Hm]. discriminate Hm.
  - eexists _, _. split; [vm_compute; reflexivity|]. reflexivity.
Qed.

(** * The before-action chain (hooks.ts) *)

Section Chain.
Variable point : HookPoint.
Variable mk : JsValue -> list JsValue.

Local Abbreviation body := (chain_step point mk).

Lemma chain_trace hooks :
  forall i candidate w,
  exists results,
    match forEach_var_from i body hooks candidate w with
    | (w', Returned p) =>
        length results = length hooks
        /\ trace w' = trace w ++ chain_events point mk i candidate results
        /\ p = chain_result candidate results
    | (w', Raised e) =>
        length results < length hooks
        /\ trace w' = trace w ++ chain_events point mk i candidate results
                        ++ [EvHook point (i + length results)
                              (mk (chain_result candidate results)) (Raised e)]
    end.
Proof.
  induction hooks as [|h hooks IH]; intros i candidate w.
  - exists []. simpl. by rewrite app_nil_r.
  - simpl. unfold bind at 1. unfold chain_step at 1. unfold bind at 1, call_hook at 1.
    destruct (h (context w) (mk candidate)) as [s [r|e]] eqn:Hh.
    + simpl.
      set (w1 := log _ _).
      set (c1 := if negb (is_undefined r) then r else candidate).
      destruct (IH (S i) c1 w1) as (rs & Hrs).
      assert (Hc : c1 = replace_if_defined candidate r)
        by (subst c1; unfold replace_if_defined; by destruct (is_undefined r)).
      exists (r :: rs).
      destruct (forEach_var_from (S i) body hooks c1 w1) as [w' [p|e]].
      * destruct Hrs as (Hlen & Htr & Hp). simpl.
        split; [by rewrite Hlen|]. split.
        -- rewrite Htr. subst w1. simpl. rewrite <- app_assoc. simpl.
           by rewrite Hc.
        -- rewrite Hp. unfold chain_result. simpl. by rewrite Hc.
      * destruct Hrs as (Hlen & Htr). simpl.
        split; [lia|].
        rewrite Htr. subst w1. simpl. rewrite <- !app_assoc. simpl.
        rewrite Hc. unfold chain_result. simpl.
        by replace (i + S (length rs)) with (S i + length rs) by lia.
    + exists []. simpl. split; [lia|]. by rewrite Nat.add_0_r.
Qed.

Lemma chain_const hooks results :
  Forall2 hook_returns hooks results ->
  forall i candidate w,
    (forEach_var_from i body hooks candidate w).2
    = Returned (chain_result candidate results).
Proof.
  induction 1 as [|h r hooks results Hh _ IH]; intros i candidate w.
  - reflexivity.
  - simpl. unfold bind at 1. unfold chain_step at 1. unfold bind at 1, call_hook at 1.
    specialize (Hh (context w) (mk candidate)).
    destruct (h (context w) (mk candidate)) as [s o]. simpl in Hh. subst o.
    simpl. rewrite IH. unfold chain_result. simpl.
    unfold replace_if_defined. by destruct (is_undefined r).
Qed.

End Chain.

Lemma chain_result_undefined original n :
  chain_result original (replicate n JUndefined) = original.
Proof. induction n; [reflexivity|]. exact IHn. Qed.

(** C6.  [triggerBeforeAction] folds the registered callbacks in
    registration order: the callback at position [i] receives the
    candidate left by those before it, a callback returning [undefined]
    leaves the candidate unchanged and any other value replaces it, and
    the payload returned for dispatch is the last candidate.  (A callback
    that throws ends the chain there.)  Hence for callbacks returning
    [A], [undefined], [B] the payload is [B], and when every callback
    returns [undefined] it is the original payload. *)
Theorem before_action_chain (hooks : HookRegistry.t) (action : JsValue) (w : World) :
  (forall func,
     HookRegistry.beforeAction (HookRegistry.registerBeforeAction func hooks)
     = HookRegistry.beforeAction hooks ++ [func])
  /\ (exists results,
        match HookRegistry.triggerBeforeAction hooks action w with
        | (w', Returned payload) =>
            length results = length (HookRegistry.beforeAction hooks)
            /\ trace w' = trace w
                 ++ chain_events BeforeAction (fun c => [c]) 0 action results
            /\ payload = chain_result action results
        | (w', Raised e) =>
            length results < length (HookRegistry.beforeAction hooks)
            /\ trace w' = trace w
                 ++ chain_events BeforeAction (fun c => [c]) 0 action results
                 ++ [EvHook BeforeAction (length results)
                       [chain_result action results] (Raised e)]
        end)
  /\ (forall h1 h2 h3 A B,
        HookRegistry.beforeAction hooks = [h1; h2; h3] ->
        hook_returns h1 A -> hook_returns h2 JUndefined -> hook_returns h3 B ->
        B <> JUndefined ->
        (HookRegistry.triggerBeforeAction hooks action w).2 = Returned B)
  /\ (Forall (fun h => hook_returns h JUndefined) (HookRegistry.beforeAction hooks) ->
      (HookRegistry.triggerBeforeAction hooks action w).2 = Returned action).
Proof.
  split; [reflexivity|]. split; [|split].
  - apply (chain_trace BeforeAction (fun c => [c])).
  - intros h1 h2 h3 A B Hhooks H1 H2 H3 HB.
    unfold HookRegistry.triggerBeforeAction, forEach_var. rewrite Hhooks.
    rewrite (chain_const BeforeAction (fun c => [c]) _ [A; JUndefined; B])
      by (repeat constructor; assumption).
    unfold chain_result. simpl. unfold replace_if_defined at 1.
    by destruct B.
  - intros Hall.
    unfold HookRegistry.triggerBeforeAction, forEach_var.
    rewrite (chain_const BeforeAction (fun c => [c]) _
               (replicate (length (HookRegistry.beforeAction hooks)) JUndefined)).
    + by rewrite chain_result_undefined.
    + induction Hall; simpl; by constructor.
Qed.

(** The chain registered as [A], [undefined], [B] dispatches [B]. *)
Lemma before_action_chain_witness :
  (HookRegistry.triggerBeforeAction chain_A_undefined_B (point 0 0) init_world).2
  = Returned (point 3 4).
Proof.
  destruct (before_action_chain chain_A_undefined_B (point 0 0) init_world)
    as (_ & _ & HB & _).
  apply (HB (const_hook (point 1 2)) (const_hook JUndefined)
            (const_hook (point 3 4)) (point 1 2) (point 3 4) eq_refl).
  - intros ctx args. reflexivity.
  - intros ctx args. reflexivity.
  - intros ctx args. reflexivity.
  - discriminate.
Defined.

(** The payload left by the chain is the one the executor acts on: with
    the hooks [A], [undefined], [B], a click requested at [(0, 0)] moves
    the mouse to [B = (3, 4)]. *)
Example chain_payload_reaches_executor :
  trace (@ComputerUseAgent.executeTool stub_runtime chained_agent "click"
           (point 0 0) init_world).1
  = [EvHook BeforeAction 0 [point 0 0] (Returned (point 1 2));
     EvHook BeforeAction 1 [point 1 2] (Returned JUndefined);
     EvHook BeforeAction 2 [point 1 2] (Returned (point 3 4));
     EvRobot (moveMouse (JNum 3) (JNum 4));
     EvRobot (mouseClick MouseButton.LEFT)].
Proof. vm_compute. reflexivity. Qed.
(** * Conditional handlers (workflow.ts) *)

Lemma pair_firings_length handlers action ctx :
  length (pair_firings handlers action ctx) = length handlers.
Proof.
  revert ctx. induction handlers as [|ch handlers IH]; intros ctx; simpl;
    [reflexivity|by rewrite IH].
Qed.

(** The pair at position [i] is evaluated in the context left by the
    [i] pairs before it. *)
Lemma pair_firings_lookup handlers action :
  forall ctx i ch,
    handlers !! i = Some ch ->
    pair_firings handlers action ctx !! i
    = Some (pair_firing ch action (pairs_context (take i handlers) action ctx)).
Proof.
  induction handlers as [|ch0 handlers IH]; intros ctx i ch Hi; [discriminate Hi|].
  destruct i as [|i]; simpl in *.
  - by injection Hi as ->.
  - by apply IH.
Qed.

Section ConditionalHandlers.
Variable kind : string.
Variable action : JsValue.

Local Abbreviation body := (handler_step kind action).

Lemma handler_step_eq i ch w :
  exists w',
    body i ch w = (w', Returned tt)
    /\ trace w' = trace w ++ firing_events kind i (pair_firing ch action (context w))
    /\ context w' = pair_context ch action (context w)
    /\ messages w' = messages w.
Proof.
  unfold handler_step, try_catch. rewrite bind_eq.
  unfold WorkflowEngine.call_condition, pair_firing, pair_context.
  destruct (condition ch (context w) action) as [s [[|]|e]]; simpl.
  - unfold WorkflowEngine.call_handler. simpl.
    change {| state := s; iteration := iteration (context w);
              actionHistory := actionHistory (context w);
              lastScreenshot := lastScreenshot (context w);
              lastScreenshotText := lastScreenshotText (context w) |}
      with (with_state s (context w)).
    destruct (handler ch (with_state s (context w)) action) as [s' [[]|e]]; simpl.
    + eexists. split; [reflexivity|]. simpl. rewrite <- app_assoc. by repeat split.
    + eexists. split; [reflexivity|]. simpl. rewrite <- !app_assoc. by repeat split.
  - eexists. split; [reflexivity|]. by repeat split.
  - eexists. split; [reflexivity|]. simpl. rewrite <- app_assoc. by repeat split.
Qed.

Lemma handlers_isolated handlers :
  forall i w,
  exists w',
    forEach_from i body handlers w = (w', Returned tt)
    /\ trace w' = trace w
                  ++ firings_trace kind i (pair_firings handlers action (context w))
    /\ context w' = pairs_context handlers action (context w)
    /\ messages w' = messages w.
Proof.
  induction handlers as [|ch handlers IH]; intros i w.
  - exists w. simpl. rewrite app_nil_r. by repeat split.
  - destruct (handler_step_eq i ch w) as (w1 & Hstep & Ht1 & Hc1 & Hm1).
    destruct (IH (S i) w1) as (w' & Hrun & Ht & Hc & Hm).
    exists w'. simpl. rewrite bind_eq, Hstep. split; [exact Hrun|].
    rewrite Ht, Ht1, Hc, Hc1, Hm, Hm1, <- app_assoc. by repeat split.
Qed.

End ConditionalHandlers.

(** C8.  [checkConditionalHandlers] never throws.  It goes through the
    pairs registered for the action kind in registration order: each
    pair is evaluated in the context left by the pairs before it,
    whatever these did; its condition is applied once, its handler is
    applied when the condition returned true, what they do to the state
    stays, and an exception from either is written to the console and
    followed by the evaluation of the next pair.  So a handler whose
    condition holds is applied whatever the pairs registered before it
    did. *)
Theorem conditional_handlers_isolated (wf : WorkflowEngine.t) (kind : string)
  (action : JsValue) (w : World) :
  let handlers := default [] (WorkflowEngine.conditionalHandlers wf !! kind) in
  let firings := pair_firings handlers action (context w) in
  exists w',
    WorkflowEngine.checkConditionalHandlers wf kind action w = (w', Returned tt)
    /\ length firings = length handlers
    /\ trace w' = trace w ++ firings_trace kind 0 firings
    /\ context w' = pairs_context handlers action (context w)
    /\ messages w' = messages w
    /\ (forall i ch,
          handlers !! i = Some ch ->
          let ctx := pairs_context (take i handlers) action (context w) in
          firings !! i = Some (pair_firing ch action ctx)
          /\ (always_true (condition ch) ->
              firings !! i
              = Some (Fired (handler ch
                               (with_state (condition ch ctx action).1 ctx)
                               action).2))).
Proof.
  intros handlers firings.
  assert (Hrun : exists w',
            WorkflowEngine.checkConditionalHandlers wf kind action w
            = (w', Returned tt)
            /\ trace w' = trace w ++ firings_trace kind 0 firings
            /\ context w' = pairs_context handlers action (context w)
            /\ messages w' = messages w).
  { subst firings handlers. unfold WorkflowEngine.checkConditionalHandlers.
    destruct (WorkflowEngine.conditionalHandlers wf !! kind) as [handlers|]; simpl.
    - apply (handlers_isolated kind action handlers 0 w).
    - exists w. simpl. rewrite app_nil_r. by repeat split. }
  destruct Hrun as (w' & Hrun & Ht & Hc & Hm). exists w'.
  split; [exact Hrun|]. split; [apply pair_firings_length|].
  split; [exact Ht|]. split; [exact Hc|]. split; [exact Hm|].
  intros i ch Hi ctx.
  pose proof (pair_firings_lookup handlers action (context w) i ch Hi) as Hf.
  split; [exact Hf|]. intros Htrue. subst firings ctx. rewrite Hf.
  unfold pair_firing. by rewrite Htrue.
Qed.

(** With a first handler that throws, the exception is written to the
    console and the second handler is still applied: it records [seen]
    in the state. *)
Lemma conditional_handlers_isolated_witness :
  exists w',
    WorkflowEngine.checkConditionalHandlers throwing_then_counting "click"
      (point 1 1) init_world = (w', Returned tt)
    /\ state (context w') !! "seen" = Some (JNum 1)
    /\ trace w'
       = [EvCondition "click" 0 (Returned true);
          EvHandler "click" 0 (Raised "Error: handler failed");
          EvConsoleError "Error in conditional handler: Error: handler failed";
          EvCondition "click" 1 (Returned true);
          EvHandler "click" 1 (Returned tt)].
Proof.
  destruct (conditional_handlers_isolated throwing_then_counting "click"
              (point 1 1) init_world) as (w' & Hrun & _ & Htr & Hctx & _).
  exists w'. split; [exact Hrun|]. rewrite Hctx, Htr. split; reflexivity.
Defined.

(** * Routing of a dispatch (agent.ts, [executeTool]) *)

Lemma hasTool_get wf toolName :
  WorkflowEngine.hasTool wf toolName = true ->
  exists tool, Map_get toolName (WorkflowEngine.customTools wf) = Some tool.
Proof.
  unfold WorkflowEngine.hasTool, Map_has.
  destruct (Map_get _ _) as [tool|]; [eauto|discriminate].
Qed.

Lemma executeTool_unknown `{JsRuntime} ag toolName toolInput :
  WorkflowEngine.hasTool (ComputerUseAgent.workflow ag) toolName = false ->
  builtin_name toolName = false ->
  ComputerUseAgent.executeTool ag toolName toolInput
  = (HookRegistry.triggerOnToolCall (ComputerUseAgent.hooks ag) toolName toolInput ;;
     ret (unknown_tool_result toolName)).
Proof.
  intros Hno Hname. unfold ComputerUseAgent.executeTool. rewrite Hno.
  unfold builtin_name in Hname.
  repeat (apply orb_false_elim in Hname as [Hname ?]).
  repeat match goal with Heq : String.eqb toolName _ = false |- _ =>
    rewrite Heq; clear Heq end.
  reflexivity.
Qed.

Lemma executeTool_custom `{JsRuntime} ag toolName toolInput w :
  WorkflowEngine.hasTool (ComputerUseAgent.workflow ag) toolName = true ->
  ComputerUseAgent.executeTool ag toolName toolInput w
  = match HookRegistry.triggerOnToolCall (ComputerUseAgent.hooks ag)
            toolName toolInput w with
    | (w1, Raised e) => (w1, Raised e)
    | (w1, Returned modifiedInput) =>
        let '(w2, o) := WorkflowEngine.executeTool (ComputerUseAgent.workflow ag)
                          toolName modifiedInput w1 in
        (w2, Returned (custom_tool_result o))
    end.
Proof.
  intros Hhas. unfold ComputerUseAgent.executeTool. rewrite Hhas.
  unfold bind at 1.
  destruct (HookRegistry.triggerOnToolCall _ _ _ w) as [w1 [mi|e]]; [|reflexivity].
  unfold try_catch, bind.
  by destruct (WorkflowEngine.executeTool _ _ _ w1) as [w2 [v|e]].
Qed.

Lemma triggerOnToolCall_frame hooks toolName args w :
  frame on_tool_call_hook w (HookRegistry.triggerOnToolCall hooks toolName args w).1.
Proof. apply respects_triggerOnToolCall. intros. exact I. Qed.

Lemma executeTool_frame `{JsRuntime} ag toolName toolInput w :
  frame any_event w (ComputerUseAgent.executeTool ag toolName toolInput w).1.
Proof.
  apply (fr_executeTool any_event); [intros; exact I|]. right. intros. exact I.
Qed.

(** C7, as the code has it.  For a tool name that is neither built in nor
    registered, the dispatch runs the on-tool-call hooks and nothing
    else: when they return, it yields the failed result
    [Unknown tool: <name>]; when one of them throws, the exception is
    the outcome.  Either way the trace gains on-tool-call hook events
    only, so no before-action hook, after-action hook or conditional
    handler is invoked. *)
Theorem unknown_tool_dispatch `{JsRuntime} (ag : ComputerUseAgent.t)
  (toolName : string) (toolInput : JsValue) (w : World) :
  WorkflowEngine.hasTool (ComputerUseAgent.workflow ag) toolName = false ->
  builtin_name toolName = false ->
  let '(w1, o) := HookRegistry.triggerOnToolCall (ComputerUseAgent.hooks ag)
                    toolName toolInput w in
  ComputerUseAgent.executeTool ag toolName toolInput w
  = (w1, match o with
         | Returned _ => Returned (unknown_tool_result toolName)
         | Raised e => Raised e
         end)
  /\ frame on_tool_call_hook w w1.
Proof.
  intros Hno Hname. rewrite executeTool_unknown by assumption.
  pose proof (triggerOnToolCall_frame (ComputerUseAgent.hooks ag) toolName
                toolInput w) as Hfr.
  unfold bind.
  destruct (HookRegistry.triggerOnToolCall _ _ _ w) as [w1 [mi|e]]; by split.
Qed.

(** With no hook registered, dispatching the unknown tool [fly] yields
    the failed result that names it and leaves the world as it was. *)
Lemma unknown_tool_dispatch_witness :
  @ComputerUseAgent.executeTool stub_runtime auto_agent "fly" (JObj []) init_world
  = (init_world, Returned (unknown_tool_result "fly")).
Proof.
  pose proof (@unknown_tool_dispatch stub_runtime auto_agent "fly" (JObj [])
                init_world eq_refl eq_refl) as Hd.
  exact (proj1 Hd).
Defined.

(** C7 as stated fails: when an on-tool-call hook throws, the dispatch of
    an unknown tool throws too and yields no result. *)
Lemma unknown_tool_hook_raises :
  WorkflowEngine.hasTool (ComputerUseAgent.workflow blocking_agent) "fly" = false
  /\ builtin_name "fly" = false
  /\ (@ComputerUseAgent.executeTool stub_runtime blocking_agent "fly" (JObj [])
        init_world).2 = Raised "Error: blocked"
  /\ ~ @yields_unknown_tool_failure stub_runtime blocking_agent "fly" (JObj [])
         init_world.
Proof.
  split; [reflexivity|]. split; [reflexivity|].
  assert (Hrun : (@ComputerUseAgent.executeTool stub_runtime blocking_agent "fly"
                    (JObj []) init_world).2 = Raised "Error: blocked")
    by (vm_compute; reflexivity).
  split; [exact Hrun|].
  intros (w' & r & Hr & _). rewrite Hr in Hrun. discriminate.
Qed.

(** C9, as the code has it.  When a custom tool is registered under the
    dispatched name, whether or not the name is a built-in one, the
    dispatch runs the on-tool-call hooks and then, if they returned,
    calls the tool with the arguments they left and wraps its outcome;
    if one of them throws, the exception is the outcome and the tool is
    not called.  The trace gains on-tool-call hook events and the call
    of the tool only: no screenshot, before- or after-action hook, robot
    call or conditional handler. *)
Theorem custom_tool_takes_precedence `{JsRuntime} (ag : ComputerUseAgent.t)
  (toolName : string) (toolInput : JsValue) (w : World) (tool : ToolDefinition) :
  Map_get toolName (WorkflowEngine.customTools (ComputerUseAgent.workflow ag))
  = Some tool ->
  (let '(w1, o) := HookRegistry.triggerOnToolCall (ComputerUseAgent.hooks ag)
                     toolName toolInput w in
   frame on_tool_call_hook w w1
   /\ match o with
      | Raised e =>
          ComputerUseAgent.executeTool ag toolName toolInput w = (w1, Raised e)
      | Returned modifiedInput =>
          let '(s, result) := function tool (state (context w1)) modifiedInput in
          ComputerUseAgent.executeTool ag toolName toolInput w
          = (log (EvCustomTool toolName modifiedInput result) (set_state s w1),
             Returned (custom_tool_result result))
      end)
  /\ frame (custom_path_event toolName) w
       (ComputerUseAgent.executeTool ag toolName toolInput w).1.
Proof.
  intros Hget.
  assert (Hhas : WorkflowEngine.hasTool (ComputerUseAgent.workflow ag) toolName = true)
    by (unfold WorkflowEngine.hasTool, Map_has; by rewrite Hget).
  rewrite executeTool_custom by assumption.
  pose proof (triggerOnToolCall_frame (ComputerUseAgent.hooks ag) toolName
                toolInput w) as Hfr.
  assert (Hweak : forall e, on_tool_call_hook e -> custom_path_event toolName e)
    by (intros [[]| | | | | | | |]; simpl; tauto).
  destruct (HookRegistry.triggerOnToolCall _ _ _ w) as [w1 [mi|e]]; simpl in *.
  - unfold WorkflowEngine.executeTool. rewrite Hget.
    unfold WorkflowEngine.call_tool.
    destruct (function tool (state (context w1)) mi) as [s result]. simpl.
    split; [by split|].
    eapply frame_trans; [eapply frame_weaken; eassumption|].
    eapply frame_trans; [apply frame_set_state|]. by apply frame_log.
  - split; [by split|]. eapply frame_weaken; eassumption.
Qed.

(** A tool registered as [click] is called in place of the built-in
    click: the world records its call and no robot call. *)
Lemma custom_tool_takes_precedence_witness :
  exists w',
    @ComputerUseAgent.executeTool stub_runtime shadowing_agent "click"
      (point 10 20) init_world
    = (w', Returned (custom_tool_result (Returned (JStr "recorded"))))
    /\ trace w' = [EvCustomTool "click" (point 10 20) (Returned (JStr "recorded"))].
Proof.
  destruct (@custom_tool_takes_precedence stub_runtime shadowing_agent "click"
              (point 10 20) init_world
              {| name := "click";
                 description := "Record a click instead of making it";
                 inputSchema := JObj [("type", JStr "object");
                                      ("properties", JObj [])];
                 function := fun s args =>
                   (<["clicked" := args]> s, Returned (JStr "recorded")) |}
              eq_refl) as [[_ Hrun] _].
  eexists. split; [exact Hrun|reflexivity].
Defined.

(** C9 as stated fails: when an on-tool-call hook throws, the custom tool
    registered under the dispatched name is not executed. *)
Lemma custom_tool_not_executed_when_hook_raises :
  WorkflowEngine.hasTool (ComputerUseAgent.workflow blocking_agent) "click" = true
  /\ (@ComputerUseAgent.executeTool stub_runtime blocking_agent "click"
        (point 10 20) init_world).2 = Raised "Error: blocked"
  /\ ~ tool_executed "click"
         (trace (@ComputerUseAgent.executeTool stub_runtime blocking_agent "click"
                   (point 10 20) init_world).1).
Proof.
  split; [reflexivity|]. split; [vm_compute; reflexivity|].
  intros (args & o & Hin).
  vm_compute in Hin. destruct Hin as [Heq|[]]. discriminate Heq.
Qed.

(** C10.  Every result returned by the dispatch of a custom tool, be it a
    success or a failure, or of an unknown tool, has action type
    [screenshot]; so has the entry that the loop then appends to
    [actionHistory]. *)
Theorem custom_and_unknown_results_are_screenshot `{JsRuntime}
  (ag : ComputerUseAgent.t) (toolName : string) (toolInput : JsValue) :
  WorkflowEngine.hasTool (ComputerUseAgent.workflow ag) toolName = true
  \/ builtin_name toolName = false ->
  (forall w w' r,
     ComputerUseAgent.executeTool ag toolName toolInput w = (w', Returned r) ->
     actionType r = SCREENSHOT /\ ActionType_str (actionType r) = "screenshot")
  /\ (forall id toolResults w w' toolResults',
        ComputerUseAgent.process_block ag (ToolUseBlock id toolName toolInput)
          toolResults w = (w', Returned toolResults') ->
        exists r,
          actionHistory (context w') = actionHistory (context w) ++ [r]
          /\ actionType r = SCREENSHOT).
Proof.
  intros Hname.
  assert (Hres : forall w w' r,
            ComputerUseAgent.executeTool ag toolName toolInput w = (w', Returned r) ->
            actionType r = SCREENSHOT).
  { intros w w' r Hrun.
    destruct (WorkflowEngine.hasTool (ComputerUseAgent.workflow ag) toolName) eqn:Hhas.
    - rewrite executeTool_custom in Hrun by assumption.
      destruct (HookRegistry.triggerOnToolCall _ _ _ w) as [w1 [mi|e]];
        [|discriminate].
      destruct (WorkflowEngine.executeTool _ _ _ w1) as [w2 [v|e]];
        injection Hrun as _ <-; reflexivity.
    - destruct Hname as [Hname|Hname]; [discriminate|].
      rewrite executeTool_unknown in Hrun by assumption.
      inv_bind Hrun. apply ret_Returned in Hrun as [_ ->]. reflexivity. }
  split.
  - intros w w' r Hrun. apply Hres in Hrun. by rewrite Hrun.
  - intros id toolResults w w' toolResults' Hrun. simpl in Hrun.
    inv_bind Hrun. inv_bind Hrun. apply ret_Returned in Hrun as [-> _].
    injection H1 as <- _.
    pose proof (executeTool_frame ag toolName toolInput w) as Hfr.
    rewrite H0 in Hfr. destruct Hfr as [_ Hh _ _]. simpl in Hh.
    exists a. split; [simpl; by rewrite Hh|]. eapply Hres; eauto.
Qed.

(** The result of the custom tool registered as [click] and that of the
    unknown tool [fly] both have action type [screenshot]. *)
Lemma custom_and_unknown_results_are_screenshot_witness :
  actionType (custom_tool_result (Returned (JStr "recorded"))) = SCREENSHOT
  /\ actionType (unknown_tool_result "fly") = SCREENSHOT.
Proof.
  split.
  - destruct (@custom_and_unknown_results_are_screenshot stub_runtime
                shadowing_agent "click" (point 10 20) (or_introl eq_refl))
      as [Hres _].
    refine (proj1 (Hres init_world _ _ _)). vm_compute. reflexivity.
  - destruct (@custom_and_unknown_results_are_screenshot stub_runtime
                auto_agent "fly" (JObj []) (or_intror eq_refl))
      as [Hres _].
    refine (proj1 (Hres init_world _ _ _)). vm_compute. reflexivity.
Defined.

(** * The agent loop (agent.ts, [run]) *)

Lemma for_of_process_block `{JsRuntime} ag blocks :
  forall toolResults w w' toolResults',
    for_of (ComputerUseAgent.process_block ag) blocks toolResults w
    = (w', Returned toolResults') ->
    exists results,
      Forall2 (dispatched ag) (tool_uses blocks) results
      /\ actionHistory (context w') = actionHistory (context w) ++ results
      /\ messages w' = messages w
      /\ toolResults' = toolResults ++ zip_with tool_result_for (tool_uses blocks) results.
Proof.
  induction blocks as [|block blocks IH]; intros trs w w' trs' Hrun; simpl in Hrun.
  - apply ret_Returned in Hrun as [-> ->]. exists []. simpl.
    rewrite !app_nil_r. repeat split; constructor.
  - inv_bind Hrun. destruct block as [img|txt|id name input|id content];
      simpl in H0; try (apply ret_Returned in H0 as [-> ->]; by apply IH).
    inv_bind H0. inv_bind H0. apply ret_Returned in H0 as [-> ->].
    injection H2 as <- _.
    pose proof (executeTool_frame ag name input w) as Hfr.
    rewrite H1 in Hfr. destruct Hfr as [_ Hh Hm _]. simpl in Hh, Hm.
    apply IH in Hrun as (results & HF & Hhist & Hmsg & Htrs).
    exists (a0 :: results). simpl. split; [|split; [|split]].
    + constructor; [|assumption]. by exists w, w1.
    + rewrite Hhist. simpl. rewrite Hh. by rewrite <- app_assoc.
    + rewrite Hmsg. simpl. exact Hm.
    + rewrite Htrs. by rewrite <- app_assoc.
Qed.

Lemma triggerOnIterationEnd_frame hooks it w :
  frame any_event w (HookRegistry.triggerOnIterationEnd hooks it w).1.
Proof. apply respects_observe. intros. exact I. Qed.

Lemma loop_try_outcome `{JsRuntime} ag system it w :
  ComputerUseAgent.loop_try ag system it w
  = match ComputerUseAgent.guarded_block ag system it w with
    | (w1, Returned c) => (w1, Returned c)
    | (w1, Raised e) =>
        (w1, Returned (Return (ComputerUseAgent.failure_record e it
                                 (state (context w1)))))
    end.
Proof.
  unfold ComputerUseAgent.loop_try, try_catch.
  by destruct (ComputerUseAgent.guarded_block ag system it w) as [w1 [c|e]].
Qed.

Lemma guarded_block_tool_use `{JsRuntime} ag system it w resp w' c :
  ComputerUseAgent.client ag w (ComputerUseAgent.request ag system w) = Returned resp ->
  stop_reason resp = "tool_use" ->
  ComputerUseAgent.guarded_block ag system it w = (w', Returned c) ->
  c = Normal /\ reply_paired ag resp w w'.
Proof.
  intros Hclient Hstop Hrun. unfold ComputerUseAgent.guarded_block in Hrun.
  inv_bind Hrun. unfold ComputerUseAgent.messages_create in H0.
  rewrite Hclient in H0. injection H0 as <- <-.
  unfold ComputerUseAgent.handle_response in Hrun.
  inv_bind Hrun. injection H0 as <- _.
  rewrite Hstop in Hrun. simpl in Hrun.
  inv_bind Hrun. inv_bind H0. injection H0 as <- _.
  inv_bind Hrun. apply ret_Returned in Hrun as [-> ->].
  split; [reflexivity|].
  apply for_of_process_block in H1 as (results & HF & Hhist & Hmsg & ->).
  match goal with
  | Hend : HookRegistry.triggerOnIterationEnd _ _ ?wx = _ |- _ =>
      pose proof (triggerOnIterationEnd_frame (ComputerUseAgent.hooks ag) it wx)
        as Hfr;
      rewrite Hend in Hfr
  end.
  destruct Hfr as [_ Hh Hm _]. simpl in Hh, Hm.
  exists results. split; [assumption|]. split.
  - rewrite Hh, Hhist. reflexivity.
  - rewrite Hm, Hmsg. simpl. by rewrite <- app_assoc.
Qed.

(** C1, as the code has it.  When the reasoning service answers with a
    [tool_use] stop signal, the [try] statement of the pass never throws
    and ends in one of two ways.  Either every [tool_use] block of the
    reply was dispatched: then [actionHistory] gained the results of the
    blocks, one per block and in their order, and the messages gained
    the reply followed by a single user message whose [tool_result]
    blocks carry the ids of the [tool_use] blocks, one each and in the
    same order; this happens inside the pass, hence before any further
    request.  Or an exception cut the pass short: then the pass returns
    the failure record of this iteration, which ends the run. *)
Theorem tool_results_pair_tool_uses `{JsRuntime} (ag : ComputerUseAgent.t)
  (system : string) (it : nat) (w : World) (resp : Response) :
  ComputerUseAgent.client ag w (ComputerUseAgent.request ag system w) = Returned resp ->
  stop_reason resp = "tool_use" ->
  exists w' c,
    ComputerUseAgent.loop_try ag system it w = (w', Returned c)
    /\ match c with
       | Normal => reply_paired ag resp w w'
       | Break => False
       | Return r =>
           exists e, r = ComputerUseAgent.failure_record e it (state (context w'))
       end.
Proof.
  intros Hclient Hstop. rewrite loop_try_outcome.
  destruct (ComputerUseAgent.guarded_block ag system it w) as [w1 [c|e]] eqn:Hg.
  - exists w1, c. split; [reflexivity|].
    destruct (guarded_block_tool_use ag system it w resp w1 c Hclient Hstop Hg)
      as [-> Hp]. exact Hp.
  - eexists _, _. split; [reflexivity|]. by exists e.
Qed.

(** With no hook registered, the reply asking for two clicks is answered by
    two [tool_result] blocks and two history entries. *)
Lemma tool_results_pair_tool_uses_witness :
  exists w',
    @ComputerUseAgent.loop_try stub_runtime clicking_agent "" 0 init_world
    = (w', Returned Normal)
    /\ @reply_paired stub_runtime clicking_agent two_clicks_reply init_world w'.
Proof.
  destruct (@tool_results_pair_tool_uses stub_runtime clicking_agent "" 0
              init_world two_clicks_reply eq_refl eq_refl)
    as (w' & c & Hrun & Hc).
  assert (Hn : (@ComputerUseAgent.loop_try stub_runtime clicking_agent "" 0
                  init_world).2 = Returned Normal) by (vm_compute; reflexivity).
  rewrite Hrun in Hn. simpl in Hn. injection Hn as ->.
  exists w'. split; assumption.
Defined.

(** C1 as stated fails: when the dispatch of the second of two [tool_use]
    blocks throws, the history has gained one entry only and no user
    message has been appended. *)
Lemma second_dispatch_raises_unpaired :
  let w' := (@ComputerUseAgent.loop_try stub_runtime refusing_agent "" 0
               init_world).1 in
  ComputerUseAgent.client refusing_agent init_world
    (@ComputerUseAgent.request refusing_agent "" init_world)
  = Returned two_clicks_reply
  /\ stop_reason two_clicks_reply = "tool_use"
  /\ length (tool_uses (resp_content two_clicks_reply)) = 2
  /\ length (actionHistory (context w')) = 1
  /\ messages w' = [ {| role := assistant;
                        msg_content := resp_content two_clicks_reply |} ]
  /\ ~ @reply_paired stub_runtime refusing_agent two_clicks_reply init_world w'.
Proof.
  intros w'. split; [reflexivity|]. split; [reflexivity|]. split; [reflexivity|].
  assert (Hlen : length (actionHistory (context w')) = 1)
    by (vm_compute; reflexivity).
  split; [exact Hlen|]. split; [vm_compute; reflexivity|].
  intros (results & HF & Hhist & _).
  apply Forall2_length in HF. rewrite Hhist in Hlen. simpl in HF, Hlen. lia.
Qed.

(** ** Failures of a run *)






Lemma every_pass_step `{JsRuntime} (P : nat -> World -> Prop) ag system fuel it
  w w' :
  ComputerUseAgent.loop_pass ag system it w = (w', Returned Normal) ->
  P it w ->
  every_pass P ag system fuel (S it) w' ->
  every_pass P ag system (S fuel) it w.
Proof. intros Hpass HP Hnext. simpl. by rewrite Hpass. Qed.

Lemma loop_pass_started_eq `{JsRuntime} ag system it w w0 :
  HookRegistry.triggerOnIterationStart (ComputerUseAgent.hooks ag) it
    (set_iteration it (log (EvLoopPass it) w)) = (w0, Returned tt) ->
  ComputerUseAgent.loop_pass ag system it w
  = ComputerUseAgent.loop_try ag system it w0.
Proof.
  intros Hstart. unfold ComputerUseAgent.loop_pass.
  rewrite bind_eq. unfold modify at 1. rewrite bind_eq. unfold modify at 1.
  by rewrite bind_eq, Hstart.
Qed.


Lemma run_outcome `{JsRuntime} ag goal n systemPrompt w w1 img w' c :
  ComputerUseAgent.takeScreenshot ag (reset w) = (w1, Returned img) ->
  ComputerUseAgent.loop ag (ComputerUseAgent.effective_system systemPrompt) n 0
    (push_message {| role := user;
                     msg_content := [ImageBlock (JStr img); TextBlock goal] |} w1)
  = (w', Returned c) ->
  ComputerUseAgent.run ag goal n systemPrompt w
  = (w', Returned match c with
                  | Return r => r
                  | _ => ComputerUseAgent.success_record (context w')
                  end).
Proof.
  intros Hshot Hloop. unfold ComputerUseAgent.run.
  unfold bind at 1. simpl. unfold bind at 1. simpl. unfold bind at 1.
  fold (reset w). rewrite Hshot.
  unfold bind at 1. simpl. unfold bind at 1. rewrite Hloop.
  by destruct c.
Qed.




(** ** Counting passes and requests *)

Lemma evolves_refl P w : evolves P w w.
Proof. split; [reflexivity|]. exists []. by rewrite app_nil_r. Qed.

Lemma evolves_trans P w1 w2 w3 : evolves P w1 w2 -> evolves P w2 w3 -> evolves P w1 w3.
Proof.
  intros [Hi1 (evs1 & Ht1 & HP1)] [Hi2 (evs2 & Ht2 & HP2)].
  split; [congruence|].
  exists (evs1 ++ evs2). split; [by rewrite Ht2, Ht1, app_assoc|by apply Forall_app].
Qed.

Lemma frame_evolves P w w' : frame P w w' -> evolves P w w'.
Proof. intros [Hi _ _ Ht]. by split. Qed.

Lemma loop_passes_app evs1 evs2 :
  loop_passes (evs1 ++ evs2) = loop_passes evs1 ++ loop_passes evs2.
Proof.
  induction evs1 as [|e evs1 IH]; [reflexivity|].
  destruct e; simpl; by rewrite IH.
Qed.

Lemma api_calls_app evs1 evs2 :
  api_calls (evs1 ++ evs2) = api_calls evs1 + api_calls evs2.
Proof. unfold api_calls. by rewrite List.filter_app, length_app. Qed.

Lemma dispatch_events_uncounted evs :
  Forall is_dispatch_event evs -> loop_passes evs = [] /\ api_calls evs = 0.
Proof.
  induction 1 as [|e evs He _ [IHp IHa]]; [by split|].
  unfold api_calls in *. destruct e; try discriminate He; simpl; by split.
Qed.

Section Evolves.
Context `{JsRuntime}.
Variable ag : ComputerUseAgent.t.

Local Abbreviation D := is_dispatch_event.

Lemma dispatch_frame_side e :
  dispatch_event e = true -> is_robot_call e = false -> D e.
Proof. intros He _. exact He. Qed.

Lemma executeTool_dispatch name input w :
  frame D w (ComputerUseAgent.executeTool ag name input w).1.
Proof.
  apply (fr_executeTool D dispatch_frame_side). right. intros c. reflexivity.
Qed.

Lemma takeScreenshot_dispatch w :
  frame D w (ComputerUseAgent.takeScreenshot ag w).1.
Proof. apply (fr_takeScreenshot D dispatch_frame_side). Qed.

Lemma observe_dispatch point args hooks w :
  frame D w (HookRegistry.observe point args hooks w).1.
Proof. apply respects_observe. intros. reflexivity. Qed.

Lemma process_block_evolves block toolResults :
  respects (evolves D) (ComputerUseAgent.process_block ag block toolResults).
Proof.
  destruct block as [img|txt|id name input|id content]; simpl;
    try (apply respects_ret; exact (evolves_refl D)).
  apply respects_bind; [exact (evolves_trans D)| |intros r].
  - intros w. apply frame_evolves, executeTool_dispatch.
  - apply respects_bind; [exact (evolves_trans D)| |intros _].
    + intros w. split; [reflexivity|]. exists []. by rewrite app_nil_r.
    + apply respects_ret. exact (evolves_refl D).
Qed.

Lemma push_message_evolves m : respects (evolves D) (modify (push_message m)).
Proof. intros w. split; [reflexivity|]. exists []. by rewrite app_nil_r. Qed.

Lemma triggerOnIterationEnd_evolves it :
  respects (evolves D)
    (HookRegistry.triggerOnIterationEnd (ComputerUseAgent.hooks ag) it).
Proof. intros w. apply frame_evolves, observe_dispatch. Qed.

Lemma handle_response_evolves it resp :
  respects (evolves D) (ComputerUseAgent.handle_response ag it resp).
Proof.
  unfold ComputerUseAgent.handle_response.
  apply respects_bind; [exact (evolves_trans D)|apply push_message_evolves|].
  intros _. destruct (String.eqb (stop_reason resp) "end_turn").
  - apply respects_bind;
      [exact (evolves_trans D)|apply triggerOnIterationEnd_evolves|].
    intros _. apply respects_ret. exact (evolves_refl D).
  - apply respects_bind; [exact (evolves_trans D)| |intros _].
    + destruct (String.eqb (stop_reason resp) "tool_use").
      * apply respects_bind; [exact (evolves_trans D)| |intros trs].
        -- apply respects_for_of;
             [exact (evolves_refl D)|exact (evolves_trans D)|].
           apply process_block_evolves.
        -- apply push_message_evolves.
      * apply respects_ret. exact (evolves_refl D).
    + apply respects_bind;
        [exact (evolves_trans D)|apply triggerOnIterationEnd_evolves|].
      intros _. apply respects_ret. exact (evolves_refl D).
Qed.

Lemma loop_pass_events system it w w' c :
  pass_answered ag system "tool_use" it w ->
  ComputerUseAgent.loop_pass ag system it w = (w', Returned c) ->
  (forall r, c <> Return r) ->
  c = Normal
  /\ iteration (context w') = it
  /\ exists evs,
       trace w' = trace w ++ evs /\ loop_passes evs = [it] /\ api_calls evs = 1.
Proof.
  intros Hanswer Hrun Hc. unfold pass_answered, request_world in Hanswer.
  pose proof (observe_dispatch OnIterationStart [JNum (Z.of_nat it)]
                (HookRegistry.onIterationStart (ComputerUseAgent.hooks ag))
                (set_iteration it (log (EvLoopPass it) w))) as Hstart.
  destruct (HookRegistry.triggerOnIterationStart (ComputerUseAgent.hooks ag) it
              (set_iteration it (log (EvLoopPass it) w)))
    as [w0 [[]|e0]] eqn:Hs; cycle 1.
  { unfold ComputerUseAgent.loop_pass in Hrun.
    rewrite bind_eq in Hrun. unfold modify at 1 in Hrun.
    rewrite bind_eq in Hrun. unfold modify at 1 in Hrun.
    rewrite bind_eq, Hs in Hrun. discriminate Hrun. }
  rewrite (loop_pass_started_eq ag system it w w0 Hs) in Hrun.
  unfold HookRegistry.triggerOnIterationStart in Hs. rewrite Hs in Hstart.
  destruct Hstart as [Hi0 _ _ (evs0 & Ht0 & HD0)]. simpl in Hi0, Ht0.
  simpl in Hanswer. destruct Hanswer as (resp & Hresp & Hstop).
  rewrite loop_try_outcome in Hrun.
  destruct (ComputerUseAgent.guarded_block ag system it w0) as [w3 [c'|e]] eqn:Hg;
    injection Hrun as <- <-; [|by destruct (Hc _ eq_refl)].
  destruct (guarded_block_tool_use ag system it w0 resp w3 c' Hresp Hstop Hg)
    as [-> _].
  unfold ComputerUseAgent.guarded_block in Hg. rewrite bind_eq in Hg.
  unfold ComputerUseAgent.messages_create in Hg. rewrite Hresp in Hg.
  pose proof (handle_response_evolves it resp
                (log (EvApiCall (ComputerUseAgent.request ag system w0)) w0))
    as Hrest.
  rewrite Hg in Hrest. destruct Hrest as [Hi1 (evs1 & Ht1 & HD1)].
  simpl in Hi1, Ht1.
  split; [reflexivity|]. split; [congruence|].
  exists ([EvLoopPass it] ++ evs0
          ++ [EvApiCall (ComputerUseAgent.request ag system w0)] ++ evs1).
  destruct (dispatch_events_uncounted evs0 HD0) as [Hp0 Ha0].
  destruct (dispatch_events_uncounted evs1 HD1) as [Hp1 Ha1].
  split; [|split].
  - rewrite Ht1, Ht0. by rewrite <- !app_assoc.
  - rewrite !loop_passes_app, Hp0, Hp1. reflexivity.
  - rewrite !api_calls_app, Ha0, Ha1. reflexivity.
Qed.

Lemma loop_exhausts system fuel :
  forall it w,
  every_pass (tool_use_pass ag system) ag system fuel it w ->
  exists w' evs,
    ComputerUseAgent.loop ag system fuel it w = (w', Returned Normal)
    /\ trace w' = trace w ++ evs
    /\ loop_passes evs = seq it fuel
    /\ api_calls evs = fuel
    /\ (0 < fuel -> iteration (context w') + 1 = it + fuel).
Proof.
  induction fuel as [|fuel IH]; intros it w Hpasses; simpl.
  - exists w, []. rewrite app_nil_r. repeat split; try reflexivity. lia.
  - destruct Hpasses as [[Hanswer (w1 & c & Hrun & Hc)] Hnext].
    destruct (loop_pass_events system it w w1 c Hanswer Hrun Hc)
      as (-> & Hit & evs1 & Ht1 & Hp1 & Ha1).
    rewrite Hrun in Hnext.
    destruct (IH (S it) w1 Hnext) as (w' & evs & Hloop & Ht & Hp & Ha & Hi).
    exists w', (evs1 ++ evs). rewrite bind_eq, Hrun, Hloop.
    split; [reflexivity|]. split; [by rewrite Ht, Ht1, app_assoc|].
    split; [by rewrite loop_passes_app, Hp1, Hp|].
    split; [by rewrite api_calls_app, Ha1, Ha|].
    intros _. destruct fuel as [|fuel].
    + simpl in Hloop. injection Hloop as <-. lia.
    + specialize (Hi ltac:(lia)). lia.
Qed.

End Evolves.

(** C3, as the code has it.  For a bound [n >= 1], if the initial
    screenshot succeeds and, in every pass that the run enters, the
    reasoning service answers the request with a [tool_use] stop signal
    and the pass is not cut short by an exception, then [run] makes
    exactly the passes [0 .. n-1] and exactly [n] requests, and returns
    the success record with [iterations = n]. *)
Theorem bounded_by_max_iterations `{JsRuntime} (ag : ComputerUseAgent.t)
  (goal : string) (n : nat) (systemPrompt : option string) (w w1 : World)
  (img : string) :
  1 <= n ->
  ComputerUseAgent.takeScreenshot ag (reset w) = (w1, Returned img) ->
  every_pass (tool_use_pass ag (ComputerUseAgent.effective_system systemPrompt))
    ag (ComputerUseAgent.effective_system systemPrompt) n 0
    (push_message (initial_message img goal) w1) ->
  exhausts ag goal n systemPrompt w.
Proof.
  intros Hn Hshot Hpasses.
  pose proof (takeScreenshot_dispatch ag (reset w)) as Hfr.
  rewrite Hshot in Hfr. destruct Hfr as [_ _ _ (evs0 & Ht0 & HD0)].
  simpl in Ht0.
  destruct (loop_exhausts ag
              (ComputerUseAgent.effective_system systemPrompt) n 0
              (push_message (initial_message img goal) w1) Hpasses)
    as (w' & evs & Hloop & Ht & Hp & Ha & Hi).
  exists w', (ComputerUseAgent.success_record (context w')), (evs0 ++ evs).
  split; [exact (run_outcome ag goal n systemPrompt w w1 img w' Normal Hshot Hloop)|].
  destruct (dispatch_events_uncounted evs0 HD0) as [Hp0 Ha0].
  split; [|split; [|split; [|split]]].
  - rewrite Ht. simpl. rewrite Ht0. by rewrite app_assoc.
  - by rewrite loop_passes_app, Hp0, Hp.
  - by rewrite api_calls_app, Ha0, Ha.
  - reflexivity.
  - simpl. f_equal. specialize (Hi ltac:(lia)). lia.
Qed.

(** With a bound of 3 and a service stub that always asks for two clicks,
    the dry-run agent makes 3 passes and 3 requests and reports success
    after 3 iterations, although one of its hooks would throw in a pass
    that this run does not reach. *)
Lemma bounded_by_max_iterations_witness :
  @exhausts stub_runtime impatient_agent "click around" 3 None init_world.
Proof.
  eapply (@bounded_by_max_iterations stub_runtime impatient_agent
            "click around" 3 None init_world).
  - lia.
  - vm_compute. reflexivity.
  - repeat (eapply every_pass_step;
            [ vm_compute; reflexivity
            | split;
              [ exists two_clicks_reply; split; vm_compute; reflexivity
              | eexists _, _; split; [vm_compute; reflexivity|discriminate] ]
            | ]).
    exact I.
Defined.

(** C3 as stated fails: with a service that always answers [tool_use] and
    a bound of 2, a before-action hook that throws ends the run in the
    first pass, after one request, with a failure record. *)
Lemma raising_hook_stops_before_bound :
  always_tool_use refusing_agent
  /\ (exists w' st,
        @ComputerUseAgent.run stub_runtime refusing_agent "click around" 2 None
          init_world
        = (w', Returned (ComputerUseAgent.failure_record
                           "Error: second action refused" 0 st))
        /\ api_calls (trace w') = 1
        /\ loop_passes (trace w') = [0])
  /\ ~ @exhausts stub_runtime refusing_agent "click around" 2 None init_world.
Proof.
  split; [|split].
  - intros w req. exists two_clicks_reply. split; reflexivity.
  - eexists _, _. split; [vm_compute; reflexivity|]. split; reflexivity.
  - intros (w' & r & evs & Hrun & _ & _ & _ & Hs & _).
    assert (Hr : RunResult.success
                   match (@ComputerUseAgent.run stub_runtime refusing_agent
                            "click around" 2 None init_world).2 with
                   | Returned r' => r'
                   | Raised _ => r
                   end = false) by (vm_compute; reflexivity).
    rewrite Hrun in Hr. simpl in Hr. congruence.
Qed.

(** * The tool registry and the handler registry (workflow.ts) *)

Lemma Map_get_set_eq {V} k (v : V) m : Map_get k (Map_set k v m) = Some v.
Proof.
  induction m as [|[k' v'] m IH]; simpl.
  - by rewrite String.eqb_refl.
  - destruct (String.eqb k k') eqn:Hk; simpl; rewrite Hk; [reflexivity|exact IH].
Qed.

Lemma Map_get_set_ne {V} k k' (v : V) m :
  k <> k' -> Map_get k' (Map_set k v m) = Map_get k' m.
Proof.
  intros Hne. induction m as [|[k0 v0] m IH]; simpl.
  - destruct (String.eqb k' k) eqn:Hk; [|reflexivity].
    apply String.eqb_eq in Hk. congruence.
  - destruct (String.eqb k k0) eqn:Hk; simpl.
    + apply String.eqb_eq in Hk. subst k0.
      destruct (String.eqb k' k) eqn:Hk'; [|reflexivity].
      apply String.eqb_eq in Hk'. congruence.
    + by rewrite IH.
Qed.

Lemma Map_get_In {V} k (m : list (string * V)) :
  Map_has k m = true <-> In k (map fst m).
Proof.
  unfold Map_has. induction m as [|[k' v'] m IH]; simpl; [split; [discriminate|tauto]|].
  destruct (String.eqb k k') eqn:Hk.
  - apply String.eqb_eq in Hk. subst. tauto.
  - apply String.eqb_neq in Hk. rewrite IH. split; [tauto|].
    intros [Heq|Hin]; [congruence|assumption].
Qed.

Lemma Map_set_keys {V} k (v : V) m :
  map fst (Map_set k v m)
  = if Map_has k m then map fst m else map fst m ++ [k].
Proof.
  unfold Map_has. induction m as [|[k' v'] m IH]; simpl; [reflexivity|].
  destruct (String.eqb k k') eqn:Hk; simpl; [reflexivity|].
  rewrite IH. by destruct (Map_get k m).
Qed.

Lemma Map_set_NoDup {V} k (v : V) m :
  NoDup (map fst m) -> NoDup (map fst (Map_set k v m)).
Proof.
  intros Hnd. rewrite Map_set_keys. destruct (Map_has k m) eqn:Hk; [assumption|].
  apply NoDup_app. split; [assumption|]. split.
  - intros x Hx Hx'. apply list_elem_of_In in Hx, Hx'. destruct Hx' as [<-|[]].
    apply Map_get_In in Hx. congruence.
  - apply NoDup_singleton.
Qed.

Lemma Map_set_keyed k t m :
  name t = k -> keyed_by_name m -> keyed_by_name (Map_set k t m).
Proof.
  intros Ht. unfold keyed_by_name. induction 1 as [|[k' t'] m Hkt Hm IH]; simpl.
  - by repeat constructor.
  - destruct (String.eqb k k') eqn:Hk.
    + apply String.eqb_eq in Hk. subst k'. constructor; [exact Ht|assumption].
    + constructor; assumption.
Qed.

Lemma Registered_invariant wf :
  Registered wf ->
  NoDup (map fst (WorkflowEngine.customTools wf))
  /\ keyed_by_name (WorkflowEngine.customTools wf).
Proof.
  induction 1 as [|name description func wf _ [IHn IHk]|? ? ? wf _ IH]; simpl.
  - split; constructor.
  - split; [by apply Map_set_NoDup|by apply Map_set_keyed].
  - exact IH.
Qed.

(** X1.  After [registerTool(name, description, func)] the tool [name] is
    present and [executeTool] on it calls [func], whatever was registered
    under [name] before; the tools registered under other names are the
    ones that were there. *)
Theorem registerTool_lookup (wf : WorkflowEngine.t) (name description : string)
  (func : ToolFunction) :
  let wf' := WorkflowEngine.registerTool name description func wf in
  WorkflowEngine.hasTool wf' name = true
  /\ (forall args w,
        WorkflowEngine.executeTool wf' name args w = tool_call name func args w)
  /\ (forall other,
        other <> name ->
        WorkflowEngine.hasTool wf' other = WorkflowEngine.hasTool wf other
        /\ forall args w,
             WorkflowEngine.executeTool wf' other args w
             = WorkflowEngine.executeTool wf other args w).
Proof.
  intros wf'. subst wf'.
  unfold WorkflowEngine.hasTool, WorkflowEngine.executeTool, Map_has. simpl.
  rewrite Map_get_set_eq. split; [reflexivity|]. split.
  - intros args w. unfold WorkflowEngine.call_tool, tool_call. simpl.
    by destruct (func (state (context w)) args).
  - intros other Hne. rewrite Map_get_set_ne by congruence. by split.
Qed.

Lemma executeTool_get wf toolName args w :
  WorkflowEngine.executeTool wf toolName args w
  = match option_map function (Map_get toolName (WorkflowEngine.customTools wf)) with
    | Some func => tool_call toolName func args w
    | None => (w, Raised (tool_not_found toolName))
    end.
Proof.
  unfold WorkflowEngine.executeTool.
  destruct (Map_get toolName (WorkflowEngine.customTools wf)) as [tool|]; simpl;
    [|reflexivity].
  unfold WorkflowEngine.call_tool, tool_call.
  by destruct (function tool (state (context w)) args).
Qed.

Lemma register_all_get toolName regs :
  forall wf,
    option_map function
      (Map_get toolName (WorkflowEngine.customTools (register_all regs wf)))
    = last_registered toolName regs
        (option_map function
           (Map_get toolName (WorkflowEngine.customTools wf))).
Proof.
  unfold register_all, last_registered.
  induction regs as [|[[name description] func] regs IH]; intros wf; simpl;
    [reflexivity|].
  rewrite IH. f_equal. simpl.
  destruct (String.eqb toolName name) eqn:Hn.
  - apply String.eqb_eq in Hn. subst name. by rewrite Map_get_set_eq.
  - apply String.eqb_neq in Hn. rewrite Map_get_set_ne by congruence. reflexivity.
Qed.

Lemma last_registered_Some toolName regs :
  forall func, last_registered toolName regs (Some func) <> None.
Proof.
  unfold last_registered.
  induction regs as [|[[name description] f] regs IH]; intros func; simpl;
    [discriminate|].
  destruct (String.eqb toolName name); apply IH.
Qed.

Lemma last_registered_In toolName regs :
  forall earlier,
    match last_registered toolName regs earlier with
    | Some _ => earlier <> None \/ In toolName (map (fun r => r.1.1) regs)
    | None => ~ In toolName (map (fun r => r.1.1) regs)
    end.
Proof.
  induction regs as [|[[name description] func] regs IH]; intros earlier.
  - unfold last_registered. simpl. destruct earlier; [by left|tauto].
  - change (last_registered toolName ((name, description, func) :: regs) earlier)
      with (last_registered toolName regs
              (if String.eqb toolName name then Some func else earlier)).
    simpl. destruct (String.eqb toolName name) eqn:Hn.
    + apply String.eqb_eq in Hn. subst name.
      pose proof (last_registered_Some toolName regs func) as Hsome.
      destruct (last_registered toolName regs (Some func)); [tauto|congruence].
    + apply String.eqb_neq in Hn. specialize (IH earlier).
      destruct (last_registered toolName regs earlier); [tauto|].
      intros [Heq|Hin]; [congruence|tauto].
Qed.

(** X2.  After any sequence of [registerTool] calls on a new engine,
    [executeTool] on a name calls the function of the last registration
    made under that name, and only that one; on a name under which no
    registration was made it throws [Tool '<name>' not found] and
    leaves the world as it was: no function is called.  [hasTool] tells
    the two cases apart. *)
Theorem executeTool_last_registration (regs : list (string * string * ToolFunction))
  (toolName : string) (args : JsValue) (w : World) :
  let wf := register_all regs WorkflowEngine.new in
  match last_registered toolName regs None with
  | Some func =>
      In toolName (map (fun r => r.1.1) regs)
      /\ WorkflowEngine.hasTool wf toolName = true
      /\ WorkflowEngine.executeTool wf toolName args w
         = tool_call toolName func args w
  | None =>
      ~ In toolName (map (fun r => r.1.1) regs)
      /\ WorkflowEngine.hasTool wf toolName = false
      /\ WorkflowEngine.executeTool wf toolName args w
         = (w, Raised (tool_not_found toolName))
  end.
Proof.
  intros wf.
  pose proof (register_all_get toolName regs WorkflowEngine.new) as Hget.
  fold wf in Hget. simpl in Hget.
  pose proof (last_registered_In toolName regs None) as Hin.
  rewrite executeTool_get, Hget. unfold WorkflowEngine.hasTool, Map_has.
  destruct (last_registered toolName regs None) as [func|] eqn:Hlast.
  - destruct Hin as [Hne|Hin]; [congruence|].
    split; [exact Hin|]. split; [|reflexivity].
    destruct (Map_get toolName (WorkflowEngine.customTools wf)); [reflexivity|].
    discriminate Hget.
  - split; [exact Hin|]. split; [|reflexivity].
    destruct (Map_get toolName (WorkflowEngine.customTools wf)); [|reflexivity].
    discriminate Hget.
Qed.

(** X3.  In a registry built by the registration methods, the schemas
    returned by [getToolSchemas] have pairwise distinct names, and they
    are exactly the names for which [hasTool] holds. *)
Theorem tool_schemas_distinct (wf : WorkflowEngine.t) :
  Registered wf ->
  NoDup (schema_names (WorkflowEngine.getToolSchemas wf))
  /\ forall toolName,
       WorkflowEngine.hasTool wf toolName = true
       <-> In toolName (schema_names (WorkflowEngine.getToolSchemas wf)).
Proof.
  intros Hreg. destruct (Registered_invariant wf Hreg) as [Hnd Hkey].
  assert (Hnames : schema_names (WorkflowEngine.getToolSchemas wf)
                   = map fst (WorkflowEngine.customTools wf)).
  { unfold schema_names, WorkflowEngine.getToolSchemas, Map_values.
    rewrite !map_map. simpl. unfold keyed_by_name in Hkey.
    induction Hkey as [|kt m Hkt _ IH]; simpl; [reflexivity|].
    rewrite Hkt. f_equal. apply IH. by inversion Hnd. }
  rewrite Hnames. split; [exact Hnd|].
  intros toolName. apply Map_get_In.
Qed.

Lemma tool_schemas_distinct_witness :
  NoDup (schema_names (WorkflowEngine.getToolSchemas two_tools))
  /\ (WorkflowEngine.hasTool two_tools "status" = true
      <-> In "status" (schema_names (WorkflowEngine.getToolSchemas two_tools))).
Proof.
  destruct (tool_schemas_distinct two_tools) as [Hnd Hin].
  - repeat constructor.
  - split; [exact Hnd|apply Hin].
Defined.

(** X4.  Registering a tool under a name that is already present replaces
    the tool in place: the schemas keep their number and order.  Under a
    fresh name the schema of the new tool is appended after the others. *)
Theorem registerTool_schemas (wf : WorkflowEngine.t) (name description : string)
  (func : ToolFunction) :
  Registered wf ->
  let wf' := WorkflowEngine.registerTool name description func wf in
  schema_names (WorkflowEngine.getToolSchemas wf')
  = if WorkflowEngine.hasTool wf name
    then schema_names (WorkflowEngine.getToolSchemas wf)
    else schema_names (WorkflowEngine.getToolSchemas wf) ++ [name].
Proof.
  intros Hreg wf'.
  assert (Hnames : forall wf0, Registered wf0 ->
            schema_names (WorkflowEngine.getToolSchemas wf0)
            = map fst (WorkflowEngine.customTools wf0)).
  { intros wf0 H0. destruct (Registered_invariant wf0 H0) as [_ Hkey].
    unfold schema_names, WorkflowEngine.getToolSchemas, Map_values.
    rewrite !map_map. simpl. unfold keyed_by_name in Hkey.
    induction Hkey as [|kt m Hkt _ IH]; simpl; [reflexivity|]. by rewrite Hkt, IH. }
  rewrite Hnames by (subst wf'; by constructor).
  rewrite (Hnames wf Hreg). subst wf'. simpl. apply Map_set_keys.
Qed.

(** Registering [double] a second time keeps the two schemas in their
    order of first registration. *)
Lemma registerTool_schemas_witness :
  schema_names (WorkflowEngine.getToolSchemas two_tools) = ["double"; "status"].
Proof.
  pose proof (registerTool_schemas
                (WorkflowEngine.registerTool "status" "Report the status" failing_tool
                   (WorkflowEngine.registerTool "double" "Double a number"
                      failing_tool WorkflowEngine.new))
                "double" "Double a number, second version" doubling_tool
                ltac:(repeat constructor)) as Hs.
  exact Hs.
Defined.

(** * Registration and triggers (hooks.ts, workflow.ts) *)

Lemma forEach_from_app {A} (f : nat -> A -> M unit) l1 l2 :
  forall i w,
    forEach_from i f (l1 ++ l2) w
    = match forEach_from i f l1 w with
      | (w1, Returned _) => forEach_from (i + length l1) f l2 w1
      | (w1, Raised e) => (w1, Raised e)
      end.
Proof.
  induction l1 as [|a l1 IH]; intros i w; simpl.
  - by rewrite Nat.add_0_r.
  - unfold bind. destruct (f i a w) as [w1 [[]|e]]; [|reflexivity].
    rewrite IH. by replace (S i + length l1) with (i + S (length l1)) by lia.
Qed.

Lemma forEach_var_from_app {A V} (f : nat -> A -> V -> M V) l1 l2 :
  forall i v w,
    forEach_var_from i f (l1 ++ l2) v w
    = match forEach_var_from i f l1 v w with
      | (w1, Returned v1) => forEach_var_from (i + length l1) f l2 v1 w1
      | (w1, Raised e) => (w1, Raised e)
      end.
Proof.
  induction l1 as [|a l1 IH]; intros i v w; simpl.
  - by rewrite Nat.add_0_r.
  - unfold bind. destruct (f i a v w) as [w1 [v1|e]]; [|reflexivity].
    rewrite IH. by replace (S i + length l1) with (i + S (length l1)) by lia.
Qed.

Lemma checkConditionalHandlers_returns wf kind action w :
  (WorkflowEngine.checkConditionalHandlers wf kind action w).2 = Returned tt.
Proof.
  unfold WorkflowEngine.checkConditionalHandlers.
  destruct (WorkflowEngine.conditionalHandlers wf !! kind) as [handlers|];
    [|reflexivity].
  destruct (handlers_isolated kind action handlers 0 w) as (w' & Hrun & _).
  unfold forEach. unfold handler_step in Hrun. by rewrite Hrun.
Qed.

(** X5.  A handler registered with [registerConditionalHandler] is evaluated
    after all the handlers registered before it for the same action kind,
    whatever those did; the handlers of the other kinds and the custom
    tools are not affected. *)
Theorem registerConditionalHandler_appends (wf : WorkflowEngine.t)
  (kind : string) (c : ConditionFunction) (h : HandlerFunction) :
  let wf' := WorkflowEngine.registerConditionalHandler kind c h wf in
  let earlier := default [] (WorkflowEngine.conditionalHandlers wf !! kind) in
  (forall action w,
     WorkflowEngine.checkConditionalHandlers wf' kind action w
     = handler_step kind action (length earlier) {| condition := c; handler := h |}
         (WorkflowEngine.checkConditionalHandlers wf kind action w).1)
  /\ (forall other action w,
        other <> kind ->
        WorkflowEngine.checkConditionalHandlers wf' other action w
        = WorkflowEngine.checkConditionalHandlers wf other action w)
  /\ (forall toolName,
        WorkflowEngine.hasTool wf' toolName = WorkflowEngine.hasTool wf toolName).
Proof.
  intros wf' earlier. split; [|split].
  - intros action w.
    pose proof (checkConditionalHandlers_returns wf kind action w) as Hret.
    subst wf' earlier. unfold WorkflowEngine.checkConditionalHandlers in *. simpl.
    rewrite lookup_insert_eq.
    destruct (WorkflowEngine.conditionalHandlers wf !! kind) as [handlers|]; simpl.
    + unfold forEach in *. rewrite forEach_from_app.
      destruct (forEach_from 0 _ handlers w) as [w1 [[]|e]]; [|discriminate Hret].
      simpl. unfold bind, handler_step.
      by destruct (try_catch _ _ w1) as [w2 [[]|e]].
    + unfold forEach. simpl. unfold bind, handler_step.
      by destruct (try_catch _ _ w) as [w2 [[]|e]].
  - intros other action w Hne. subst wf'.
    unfold WorkflowEngine.checkConditionalHandlers. simpl.
    by rewrite lookup_insert_ne.
  - reflexivity.
Qed.

(** X6.  A hook registered with [registerOnToolCall] under a tool name
    (other than the empty string and [*]) does not change what
    [triggerOnToolCall] does for any other tool name. *)
Theorem named_hook_only_for_its_tool (hooks : HookRegistry.t) (n : string)
  (func : HookFunction) (toolName : string) (args : JsValue) (w : World) :
  n <> "" -> n <> "*" -> toolName <> n ->
  HookRegistry.triggerOnToolCall
    (HookRegistry.registerOnToolCall (Some n) func hooks) toolName args w
  = HookRegistry.triggerOnToolCall hooks toolName args w.
Proof.
  intros Hne Hns Hname. unfold HookRegistry.triggerOnToolCall. simpl.
  apply String.eqb_neq in Hne. rewrite Hne.
  by rewrite !lookup_insert_ne by congruence.
Qed.

Lemma named_hook_only_for_its_tool_witness :
  HookRegistry.triggerOnToolCall
    (HookRegistry.registerOnToolCall (Some "click") shift_x HookRegistry.new)
    "type" (point 1 2) init_world
  = (init_world, Returned (point 1 2)).
Proof.
  rewrite (named_hook_only_for_its_tool HookRegistry.new "click" shift_x "type"
             (point 1 2) init_world); [reflexivity|discriminate..].
Defined.

(** X7.  A hook registered with [registerOnToolCall] under [null] or the
    empty string is a wildcard hook: on the dispatch of any tool name
    other than [*] it is called after the hooks registered before it,
    name-specific ones included, with the tool name and the arguments
    they left; what it returns, unless [undefined], replaces them. *)
Theorem wildcard_hook_for_every_tool (hooks : HookRegistry.t)
  (key : option string) (func : HookFunction) (toolName : string)
  (args : JsValue) (w : World) :
  key = None \/ key = Some "" ->
  toolName <> "*" ->
  HookRegistry.triggerOnToolCall
    (HookRegistry.registerOnToolCall key func hooks) toolName args w
  = match HookRegistry.triggerOnToolCall hooks toolName args w with
    | (w1, Returned modifiedArgs) =>
        chain_step (OnToolCall "*") (fun c => [JStr toolName; c])
          (length (wildcard_hooks hooks)) func modifiedArgs w1
    | (w1, Raised e) => (w1, Raised e)
    end.
Proof.
  intros Hkey Hname. unfold HookRegistry.triggerOnToolCall, wildcard_hooks.
  assert (Hreg : HookRegistry.onToolCall
                   (HookRegistry.registerOnToolCall key func hooks)
                 = <["*" := default [] (HookRegistry.onToolCall hooks !! "*")
                            ++ [func]]> (HookRegistry.onToolCall hooks))
    by (destruct Hkey as [-> | ->]; reflexivity).
  rewrite Hreg. rewrite lookup_insert_ne by congruence. rewrite lookup_insert_eq.
  rewrite !bind_eq.
  destruct (match HookRegistry.onToolCall hooks !! toolName with
            | Some hs => _
            | None => ret args
            end w) as [w1 [mi|e]]; [|reflexivity].
  unfold forEach_var. rewrite forEach_var_from_app.
  destruct (HookRegistry.onToolCall hooks !! "*") as [wild|]; simpl.
  - destruct (forEach_var_from 0 _ wild mi w1) as [w2 [p|e]]; [|reflexivity].
    unfold chain_step, bind.
    by destruct (call_hook _ _ func _ w2) as [w3 [r|e]].
  - unfold chain_step, bind.
    by destruct (call_hook _ _ func _ w1) as [w3 [r|e]].
Qed.

Lemma wildcard_hook_for_every_tool_witness :
  HookRegistry.triggerOnToolCall
    (HookRegistry.registerOnToolCall (Some "") shift_x HookRegistry.new)
    "type" (point 1 2) init_world
  = chain_step (OnToolCall "*") (fun c => [JStr "type"; c]) 0 shift_x (point 1 2)
      init_world.
Proof.
  exact (wildcard_hook_for_every_tool HookRegistry.new (Some "") shift_x "type"
           (point 1 2) init_world (or_intror eq_refl) ltac:(discriminate)).
Defined.

(** X8.  [triggerOnToolCall] runs the hooks registered for the tool name
    first, in registration order, then the wildcard hooks; each hook
    receives the arguments left by those before it, the wildcard hooks
    after the tool name, and the arguments returned are the last ones.  A
    hook that throws ends the trigger: no later hook of either list is
    called. *)
Theorem on_tool_call_order (hooks : HookRegistry.t) (toolName : string)
  (args : JsValue) (w : World) :
  exists rs1 rs2,
    let named := chain_events (OnToolCall toolName) (fun c => [c]) 0 args rs1 in
    let wild := chain_events (OnToolCall "*") (fun c => [JStr toolName; c]) 0
                  (chain_result args rs1) rs2 in
    match HookRegistry.triggerOnToolCall hooks toolName args w with
    | (w', Returned modifiedArgs) =>
        length rs1 = length (specific_hooks hooks toolName)
        /\ length rs2 = length (wildcard_hooks hooks)
        /\ trace w' = trace w ++ named ++ wild
        /\ modifiedArgs = chain_result (chain_result args rs1) rs2
    | (w', Raised e) =>
        (length rs1 < length (specific_hooks hooks toolName)
         /\ trace w' = trace w ++ named
                         ++ [EvHook (OnToolCall toolName) (length rs1)
                               [chain_result args rs1] (Raised e)])
        \/ (length rs1 = length (specific_hooks hooks toolName)
            /\ length rs2 < length (wildcard_hooks hooks)
            /\ trace w' = trace w ++ named ++ wild
                            ++ [EvHook (OnToolCall "*") (length rs2)
                                  [JStr toolName;
                                   chain_result (chain_result args rs1) rs2]
                                  (Raised e)])
    end.
Proof.
  unfold HookRegistry.triggerOnToolCall, specific_hooks, wildcard_hooks.
  rewrite bind_eq.
  destruct (chain_trace (OnToolCall toolName) (fun c => [c])
              (default [] (HookRegistry.onToolCall hooks !! toolName)) 0 args w)
    as (rs1 & H1).
  assert (Hfirst :
    match HookRegistry.onToolCall hooks !! toolName with
    | Some hs =>
        forEach_var
          (fun i hook modifiedArgs =>
             result <- call_hook (OnToolCall toolName) i hook [modifiedArgs] ;;
             ret (if negb (is_undefined result) then result else modifiedArgs))
          hs args
    | None => ret args
    end w
    = forEach_var_from 0 (chain_step (OnToolCall toolName) (fun c => [c]))
        (default [] (HookRegistry.onToolCall hooks !! toolName)) args w)
    by (by destruct (HookRegistry.onToolCall hooks !! toolName)).
  rewrite Hfirst. clear Hfirst.
  destruct (forEach_var_from 0 _ _ args w) as [w1 [mi|e]].
  - destruct H1 as (Hlen1 & Ht1 & ->).
    destruct (chain_trace (OnToolCall "*") (fun c => [JStr toolName; c])
                (default [] (HookRegistry.onToolCall hooks !! "*")) 0
                (chain_result args rs1) w1) as (rs2 & H2).
    assert (Hsecond :
      match HookRegistry.onToolCall hooks !! "*" with
      | Some hs =>
          forEach_var
            (fun i hook modifiedArgs =>
               result <- call_hook (OnToolCall "*") i hook
                           [JStr toolName; modifiedArgs] ;;
               ret (if negb (is_undefined result) then result else modifiedArgs))
            hs (chain_result args rs1)
      | None => ret (chain_result args rs1)
      end w1
      = forEach_var_from 0 (chain_step (OnToolCall "*")
                              (fun c => [JStr toolName; c]))
          (default [] (HookRegistry.onToolCall hooks !! "*"))
          (chain_result args rs1) w1)
      by (by destruct (HookRegistry.onToolCall hooks !! "*")).
    rewrite Hsecond. clear Hsecond.
    exists rs1, rs2.
    destruct (forEach_var_from 0 _ _ (chain_result args rs1) w1) as [w2 [p|e]].
    + destruct H2 as (Hlen2 & Ht2 & ->).
      repeat split; try assumption. by rewrite Ht2, Ht1, app_assoc.
    + destruct H2 as (Hlen2 & Ht2). right.
      repeat split; try assumption.
      rewrite Ht2, Ht1. simpl. by rewrite <- !app_assoc.
  - destruct H1 as (Hlen1 & Ht1). exists rs1, []. left. simpl in *.
    split; assumption.
Qed.

Lemma observe_trace point args hooks :
  forall i w,
  exists results,
    match forEach_from i (fun i hook => _ <- call_hook point i hook args ;; ret tt)
            hooks w with
    | (w', Returned _) =>
        length results = length hooks
        /\ trace w' = trace w ++ observer_events point args i results
    | (w', Raised e) =>
        length results < length hooks
        /\ trace w' = trace w ++ observer_events point args i results
                        ++ [EvHook point (i + length results) args (Raised e)]
    end.
Proof.
  induction hooks as [|h hooks IH]; intros i w.
  - exists []. simpl. by rewrite app_nil_r.
  - simpl. rewrite !bind_eq. unfold call_hook at 1.
    destruct (h (context w) args) as [s [r|e]]; simpl.
    + match goal with |- context [forEach_from _ _ _ ?w1] =>
        destruct (IH (S i) w1) as (rs & Hrs); exists (r :: rs);
        destruct (forEach_from (S i) _ hooks w1) as [w' [[]|e]] end.
      * destruct Hrs as (Hlen & Ht). simpl. split; [by rewrite Hlen|].
        rewrite Ht. simpl. by rewrite <- app_assoc.
      * destruct Hrs as (Hlen & Ht). simpl. split; [lia|].
        rewrite Ht. simpl. rewrite <- !app_assoc. simpl.
        by replace (i + S (length rs)) with (S i + length rs) by lia.
    + exists []. simpl. split; [lia|]. by rewrite Nat.add_0_r.
Qed.

Lemma observe_observed point args hooks w :
  observed point args hooks w (HookRegistry.observe point args hooks w).
Proof.
  unfold observed, HookRegistry.observe, forEach.
  destruct (observe_trace point args hooks 0 w) as (rs & Hrs).
  exists rs. by destruct (forEach_from 0 _ hooks w) as [w' [[]|e]].
Qed.

(** X9.  The observer triggers (before and after screenshot, after action,
    iteration start and end) call the registered hooks in registration
    order with the same arguments, ignoring what they return.  There is
    no isolation between them: the first hook that throws ends the
    trigger with its exception, and the hooks registered after it are
    not called. *)
Theorem observers_stop_at_first_exception (hooks : HookRegistry.t) (w : World) :
  observed BeforeScreenshot [] (HookRegistry.beforeScreenshot hooks) w
    (HookRegistry.triggerBeforeScreenshot hooks w)
  /\ (forall image,
        observed AfterScreenshot [JStr image] (HookRegistry.afterScreenshot hooks) w
          (HookRegistry.triggerAfterScreenshot hooks image w))
  /\ (forall action result,
        observed AfterAction [action; ActionResult_js result]
          (HookRegistry.afterAction hooks) w
          (HookRegistry.triggerAfterAction hooks action result w))
  /\ (forall it,
        observed OnIterationStart [JNum (Z.of_nat it)]
          (HookRegistry.onIterationStart hooks) w
          (HookRegistry.triggerOnIterationStart hooks it w))
  /\ (forall it,
        observed OnIterationEnd [JNum (Z.of_nat it)]
          (HookRegistry.onIterationEnd hooks) w
          (HookRegistry.triggerOnIterationEnd hooks it w)).
Proof. repeat split; intros; apply observe_observed. Qed.

(** X10.  A hook registered with [registerBeforeAction] runs after the
    before-action hooks registered earlier, on the payload they left: it
    is not called when one of them throws, and what it returns, unless
    [undefined], is the payload dispatched. *)
Theorem registerBeforeAction_composes (hooks : HookRegistry.t)
  (func : HookFunction) (action : JsValue) (w : World) :
  HookRegistry.triggerBeforeAction
    (HookRegistry.registerBeforeAction func hooks) action w
  = match HookRegistry.triggerBeforeAction hooks action w with
    | (w1, Returned payload) =>
        chain_step BeforeAction (fun c => [c])
          (length (HookRegistry.beforeAction hooks)) func payload w1
    | (w1, Raised e) => (w1, Raised e)
    end.
Proof.
  unfold HookRegistry.triggerBeforeAction, forEach_var. simpl.
  rewrite forEach_var_from_app.
  destruct (forEach_var_from 0 _ (HookRegistry.beforeAction hooks) action w)
    as [w1 [p|e]]; [|reflexivity].
  simpl. unfold chain_step, bind.
  by destruct (call_hook _ _ func _ w1) as [w2 [r|e]].
Qed.

(** * The executor (actions.ts) *)

Lemma rateLimit_eq ex w :
  exists w1,
    ActionExecutor.rateLimit ex w = (w1, Returned tt)
    /\ trace w1 = trace w /\ context w1 = context w /\ messages w1 = messages w.
Proof.
  unfold ActionExecutor.rateLimit. eexists. split; [reflexivity|].
  destruct (_ <? _)%Z; by repeat split.
Qed.



(** X12.  The rate limiter waits until at least [rateLimitDelay]
    milliseconds separate the clock from the time recorded at the
    previous physical action, without ever turning the clock back, and
    records the resulting time as the new [lastActionTime]; when the
    delay has already elapsed it does not wait. *)
Theorem rateLimit_spacing (ex : ActionExecutor.t) (w : World) :
  exists w',
    ActionExecutor.rateLimit ex w = (w', Returned tt)
    /\ lastActionTime w' = now w'
    /\ (ActionExecutor.rateLimitDelay ex <= now w' - lastActionTime w)%Z
    /\ (now w <= now w')%Z
    /\ ((ActionExecutor.rateLimitDelay ex <= now w - lastActionTime w)%Z ->
        now w' = now w).
Proof.
  unfold ActionExecutor.rateLimit. eexists. split; [reflexivity|].
  destruct (Z.ltb_spec (now w - lastActionTime w) (ActionExecutor.rateLimitDelay ex));
    simpl; repeat split; lia.
Qed.

Section ScrollEvents.
Context `{JsRuntime}.
Variable ex : ActionExecutor.t.
Variables direction amount x y : JsValue.

Local Abbreviation P := (scroll_robot_event direction amount x y).

Lemma scroll_actionFunc_events :
  respects (frame P) (ActionExecutor.scroll_actionFunc ex direction amount x y).
Proof.
  unfold ActionExecutor.scroll_actionFunc.
  apply fr_bind; [|intros _; apply fr_bind; [|intros _; apply fr_ret]].
  - destruct (ActionExecutor.has_coordinates x y) eqn:Hxy; [|apply fr_ret].
    apply fr_robot_call. simpl. by rewrite Hxy.
  - apply fr_robot_call. by split.
Qed.

End ScrollEvents.

Lemma robot_call_reliable ex c w :
  robot_reliable ex ->
  ActionExecutor.robot_call ex c w = (log (EvRobot c) w, Returned tt).
Proof. intros Hr. unfold ActionExecutor.robot_call. by rewrite Hr. Qed.

Lemma executeWithSafety_acting ex f t w :
  acting ex ->
  exists w1,
    trace w1 = trace w
    /\ ActionExecutor.executeWithSafety ex f t w
       = match f w1 with
         | (w2, Returned result) =>
             (sleep (ActionExecutor.safetyDelay ex) w2,
              Returned {| success := true; actionType := t; error := None;
                          data := result |})
         | (w2, Raised e) =>
             (w2, Returned {| success := false; actionType := t; error := Some e;
                              data := JUndefined |})
         end.
Proof.
  intros Hact. unfold ActionExecutor.executeWithSafety. rewrite Hact.
  rewrite bind_eq. destruct (rateLimit_eq ex w) as (w1 & -> & Ht & _).
  exists w1. split; [exact Ht|].
  unfold try_catch. rewrite bind_eq.
  by destruct (f w1) as [w2 [v|e]].
Qed.

(** X13.  A scroll never scrolls horizontally: the only robot calls it can
    make are a move to [(x, y)], when both coordinates are given, and one
    [scrollMouse(0, d)] where [d] is [-amount] for the directions [up]
    and [left] and [amount] for any other.  When the executor acts, the
    robot does not throw and a coordinate is missing, that scroll is the
    one robot call made and the result is the success
    [{direction, amount}], with the amount 3 when none was given. *)
Theorem scroll_is_vertical `{JsRuntime} (ex : ActionExecutor.t)
  (direction amount x y : JsValue) (w : World) :
  let amount' := default_param amount (JNum 3) in
  let d := if js_is_str direction "up" || js_is_str direction "left"
           then js_neg amount' else amount' in
  frame (scroll_robot_event direction amount' x y) w
    (ActionExecutor.scroll ex direction amount x y w).1
  /\ (acting ex -> robot_reliable ex ->
      ActionExecutor.has_coordinates x y = false ->
      exists w',
        ActionExecutor.scroll ex direction amount x y w
        = (w', Returned {| success := true; actionType := SCROLL; error := None;
                           data := JObj [("direction", direction);
                                         ("amount", amount')] |})
        /\ trace w' = trace w ++ [EvRobot (scrollMouse (JNum 0) d)]).
Proof.
  intros amount' d. split.
  - unfold ActionExecutor.scroll. fold amount'.
    destruct (_ && negb _); [apply frame_refl|].
    apply fr_executeWithSafety, scroll_actionFunc_events.
  - intros Hact Hrob Hxy. unfold ActionExecutor.scroll. fold amount'.
    rewrite Hxy. simpl.
    destruct (executeWithSafety_acting ex
                (ActionExecutor.scroll_actionFunc ex direction amount' x y)
                SCROLL w Hact) as (w1 & Ht & ->).
    unfold ActionExecutor.scroll_actionFunc. rewrite Hxy.
    rewrite !bind_eq. unfold ret at 1. rewrite bind_eq.
    rewrite robot_call_reliable by assumption.
    eexists. split; [reflexivity|]. simpl. by rewrite Ht.
Qed.

(** Scrolling left by 5 with the free executor calls [scrollMouse(0, -5)]. *)
Lemma scroll_is_vertical_witness :
  exists w',
    (@ActionExecutor.scroll stub_runtime free_executor ScrollDirection.LEFT
       (JNum 5) JUndefined JUndefined init_world).1 = w'
    /\ trace w' = [EvRobot (scrollMouse (JNum 0) (JNum (-5)))].
Proof.
  destruct (@scroll_is_vertical stub_runtime free_executor ScrollDirection.LEFT
              (JNum 5) JUndefined JUndefined init_world) as [_ Hex].
  destruct Hex as (w' & Hrun & Ht).
  - reflexivity.
  - intros w c. reflexivity.
  - reflexivity.
  - exists w'. rewrite Hrun. split; [reflexivity|exact Ht].
Defined.

Lemma repeat_robot_call ex c n :
  robot_reliable ex ->
  forall w,
  exists w',
    repeat_M n (ActionExecutor.robot_call ex c) w = (w', Returned tt)
    /\ trace w' = trace w ++ replicate n (EvRobot c).
Proof.
  intros Hr. induction n as [|n IH]; intros w; simpl.
  - exists w. by rewrite app_nil_r.
  - rewrite bind_eq, robot_call_reliable by assumption.
    destruct (IH (log (EvRobot c) w)) as (w' & -> & Ht).
    exists w'. split; [reflexivity|]. rewrite Ht. simpl. by rewrite <- app_assoc.
Qed.

(** X14.  When the executor acts, the robot does not throw and the
    coordinates pass the region check, a click moves the mouse to
    [(x, y)] and then calls [mouseClick(button)] once per requested click,
    not at all when the number of clicks is zero or negative; the button
    is [left] and the number of clicks 1 when they are not given, and
    [doubleClick] makes two left clicks. *)
Theorem click_repeats `{JsRuntime} (ex : ActionExecutor.t)
  (x y button clicks : JsValue) (n : Z) (w : World) :
  acting ex -> robot_reliable ex ->
  ActionExecutor.checkAllowed ex x y = true ->
  let button' := default_param button MouseButton.LEFT in
  let clicks' := default_param clicks (JNum 1) in
  ToNumber clicks' = Some n ->
  (exists w',
     ActionExecutor.click ex x y button clicks w
     = (w', Returned {| success := true; actionType := CLICK; error := None;
                        data := JObj [("x", x); ("y", y); ("button", button');
                                      ("clicks", clicks')] |})
     /\ trace w' = trace w ++ EvRobot (moveMouse x y)
                     :: replicate (Z.to_nat n) (EvRobot (mouseClick button')))
  /\ (exists w',
        (ActionExecutor.doubleClick ex x y w).1 = w'
        /\ trace w' = trace w ++ [EvRobot (moveMouse x y);
                                  EvRobot (mouseClick MouseButton.LEFT);
                                  EvRobot (mouseClick MouseButton.LEFT)]).
Proof.
  intros Hact Hrob Hok button' clicks' Hn.
  assert (Hclick : forall b c m w0,
            ToNumber c = Some m ->
            exists w',
              ActionExecutor.executeWithSafety ex
                (ActionExecutor.click_actionFunc ex x y b c) CLICK w0
              = (w', Returned {| success := true; actionType := CLICK;
                                 error := None;
                                 data := JObj [("x", x); ("y", y); ("button", b);
                                               ("clicks", c)] |})
              /\ trace w' = trace w0 ++ EvRobot (moveMouse x y)
                              :: replicate (Z.to_nat m) (EvRobot (mouseClick b))).
  { intros b c m w0 Hm.
    destruct (executeWithSafety_acting ex
                (ActionExecutor.click_actionFunc ex x y b c) CLICK w0 Hact)
      as (w1 & Ht & ->).
    unfold ActionExecutor.click_actionFunc. rewrite Hm.
    rewrite bind_eq, robot_call_reliable by assumption.
    rewrite bind_eq.
    destruct (repeat_robot_call ex (mouseClick b) (Z.to_nat m) Hrob
                (log (EvRobot (moveMouse x y)) w1)) as (w2 & -> & Ht2).
    eexists. split; [reflexivity|]. simpl. rewrite Ht2. simpl.
    rewrite Ht. by rewrite <- app_assoc. }
  split.
  - unfold ActionExecutor.click. fold button' clicks'. rewrite Hok. simpl.
    by apply Hclick.
  - unfold ActionExecutor.doubleClick, ActionExecutor.click. rewrite Hok. simpl.
    destruct (Hclick MouseButton.LEFT (JNum 2) 2%Z w eq_refl) as (w' & Hrun & Ht).
    unfold default_param. simpl. exists w'. rewrite Hrun. by split.
Qed.

(** Three right clicks at (10, 20) with the free executor. *)
Lemma click_repeats_witness :
  trace (@ActionExecutor.click stub_runtime free_executor (JNum 10) (JNum 20)
           MouseButton.RIGHT (JNum 3) init_world).1
  = [EvRobot (moveMouse (JNum 10) (JNum 20));
     EvRobot (mouseClick MouseButton.RIGHT);
     EvRobot (mouseClick MouseButton.RIGHT);
     EvRobot (mouseClick MouseButton.RIGHT)].
Proof.
  destruct (@click_repeats stub_runtime free_executor (JNum 10) (JNum 20)
              MouseButton.RIGHT (JNum 3) 3%Z init_world)
    as [(w' & Hrun & Ht) _].
  - reflexivity.
  - intros w c. reflexivity.
  - reflexivity.
  - reflexivity.
  - rewrite Hrun. exact Ht.
Defined.

(** X15.  With an allowed region configured, a [mouseMove] or [click]
    whose [x] or [y] does not convert to a number ([undefined] when the
    coordinate is missing, NaN, an object) is refused like coordinates
    outside the region: it fails, the error prints the values as given,
    and the world is untouched.  Without a region every coordinate
    passes the check. *)
Theorem region_refuses_non_numbers `{JsRuntime} (ex : ActionExecutor.t) :
  (forall r x y w,
     ActionExecutor.allowedRegion ex = Some r ->
     ToNumber x = None \/ ToNumber y = None ->
     ActionExecutor.mouseMove ex x y w
     = (w, Returned (ActionExecutor.outside_allowed_region MOUSE_MOVE x y))
     /\ forall button clicks,
          ActionExecutor.click ex x y button clicks w
          = (w, Returned (ActionExecutor.outside_allowed_region CLICK x y)))
  /\ (ActionExecutor.allowedRegion ex = None ->
      forall x y, ActionExecutor.checkAllowed ex x y = true).
Proof.
  split.
  - intros r x y w Hr Hnan.
    assert (Hc : ActionExecutor.checkAllowed ex x y = false).
    { unfold ActionExecutor.checkAllowed, num_le_js, js_le_num. rewrite Hr.
      destruct Hnan as [-> | ->]; simpl; [reflexivity|].
      by rewrite !andb_false_r. }
    unfold ActionExecutor.mouseMove, ActionExecutor.click. rewrite Hc. by split.
  - intros Hr x y. unfold ActionExecutor.checkAllowed. by rewrite Hr.
Qed.

(** A click without coordinates is refused by the executor restricted to
    a region. *)
Lemma region_refuses_non_numbers_witness :
  @ActionExecutor.click stub_runtime region_executor JUndefined JUndefined
    JUndefined JUndefined init_world
  = (init_world,
     Returned {| success := false; actionType := CLICK;
                 error := Some "Coordinates (undefined, undefined) outside allowed region";
                 data := JUndefined |}).
Proof.
  destruct (@region_refuses_non_numbers stub_runtime region_executor) as [Href _].
  destruct (Href region_100_100_800_600 JUndefined JUndefined init_world eq_refl
              (or_introl eq_refl)) as [_ Hclick].
  apply Hclick.
Defined.

(** X16.  When the executor acts, typing a text that is [undefined] or
    [null] fails: the robot is handed the value once, and the result is a
    failed one, carrying the error of the robot if it threw and otherwise
    the TypeError raised by reading the length of the text. *)
Theorem typeText_without_text_fails (ex : ActionExecutor.t) (text : JsValue)
  (w : World) :
  acting ex ->
  text = JUndefined \/ text = JNull ->
  exists w' e,
    ActionExecutor.typeText ex text w
    = (w', Returned {| success := false; actionType := TYPE; error := Some e;
                       data := JUndefined |})
    /\ trace w' = trace w ++ [EvRobot (typeString text)].
Proof.
  intros Hact Htext. unfold ActionExecutor.typeText.
  destruct (executeWithSafety_acting ex (ActionExecutor.typeText_actionFunc ex text)
              TYPE w Hact) as (w1 & Ht & ->).
  unfold ActionExecutor.typeText_actionFunc. rewrite bind_eq.
  unfold ActionExecutor.robot_call.
  destruct (ActionExecutor.robot ex w1 (typeString text)) as [e|].
  - eexists _, e. split; [reflexivity|]. simpl. by rewrite Ht.
  - rewrite bind_eq.
    destruct Htext as [-> | ->]; simpl; eexists _, _;
      (split; [reflexivity|]); simpl; by rewrite Ht.
Qed.

Lemma typeText_without_text_fails_witness :
  exists w',
    ActionExecutor.typeText free_executor JUndefined init_world
    = (w', Returned
             {| success := false; actionType := TYPE;
                error := Some "TypeError: Cannot read properties of undefined (reading 'length')";
                data := JUndefined |}).
Proof.
  destruct (typeText_without_text_fails free_executor JUndefined init_world
              eq_refl (or_introl eq_refl)) as (w' & e & Hrun & _).
  exists w'. rewrite Hrun.
  assert (He : error (match (ActionExecutor.typeText free_executor JUndefined
                               init_world).2 with
                      | Returned r => r
                      | Raised _ => unknown_tool_result ""
                      end)
               = Some "TypeError: Cannot read properties of undefined (reading 'length')")
    by (vm_compute; reflexivity).
  rewrite Hrun in He. simpl in He. by injection He as ->.
Defined.

(** * Screenshots and dispatch (agent.ts) *)

Lemma observe_keeps_lastScreenshot point args hooks :
  respects keeps_lastScreenshot (HookRegistry.observe point args hooks).
Proof.
  apply respects_forEach; unfold keeps_lastScreenshot; [reflexivity|congruence|].
  intros i h w. rewrite bind_eq. unfold call_hook.
  by destruct (h (context w) args) as [s [r|e]].
Qed.

Lemma takeScreenshot_trace ag w w' img :
  ComputerUseAgent.takeScreenshot ag w = (w', Returned img) ->
  lastScreenshot (context w') = Some img
  /\ exists rs1 rs2,
       length rs1 = length (HookRegistry.beforeScreenshot (ComputerUseAgent.hooks ag))
       /\ length rs2 = length (HookRegistry.afterScreenshot (ComputerUseAgent.hooks ag))
       /\ trace w' = trace w ++ observer_events BeforeScreenshot [] 0 rs1
                       ++ [EvCapture (Returned img)]
                       ++ observer_events AfterScreenshot [JStr img] 0 rs2.
Proof.
  unfold ComputerUseAgent.takeScreenshot, HookRegistry.triggerBeforeScreenshot,
    HookRegistry.triggerAfterScreenshot.
  rewrite bind_eq.
  destruct (observe_observed BeforeScreenshot []
              (HookRegistry.beforeScreenshot (ComputerUseAgent.hooks ag)) w)
    as (rs1 & Hb).
  destruct (HookRegistry.observe BeforeScreenshot [] _ w) as [w0 [[]|e]];
    [|discriminate].
  destruct Hb as (Hlen1 & Ht1).
  rewrite bind_eq. unfold ComputerUseAgent.captureBase64.
  destruct (ComputerUseAgent.screen ag w0) as [im|e]; [|discriminate].
  rewrite bind_eq. unfold modify at 1. rewrite bind_eq.
  set (w2 := set_lastScreenshot im (log (EvCapture (Returned im)) w0)).
  destruct (observe_observed AfterScreenshot [JStr im]
              (HookRegistry.afterScreenshot (ComputerUseAgent.hooks ag)) w2)
    as (rs2 & Ha).
  pose proof (observe_keeps_lastScreenshot AfterScreenshot [JStr im]
                (HookRegistry.afterScreenshot (ComputerUseAgent.hooks ag)) w2)
    as Hkeep.
  unfold keeps_lastScreenshot in Hkeep.
  destruct (HookRegistry.observe AfterScreenshot [JStr im] _ w2) as [w3 [[]|e]];
    [|discriminate].
  destruct Ha as (Hlen2 & Ht2). simpl in Hkeep, Ht2.
  intros [= <- <-]. split; [exact Hkeep|].
  exists rs1, rs2. repeat split; try assumption.
  rewrite Ht2, Ht1. by rewrite <- !app_assoc.
Qed.

(** X17.  When [takeScreenshot] returns an image, all before-screenshot
    hooks ran, then the screen was captured once, then all
    after-screenshot hooks ran with that image, and
    [context.lastScreenshot] is that image.  When the capture itself
    throws, the exception propagates, no after-screenshot hook is called
    and [context.lastScreenshot] keeps its value. *)
Theorem takeScreenshot_records (ag : ComputerUseAgent.t) (w : World) :
  (forall w' img,
     ComputerUseAgent.takeScreenshot ag w = (w', Returned img) ->
     lastScreenshot (context w') = Some img
     /\ exists rs1 rs2,
          length rs1 = length (HookRegistry.beforeScreenshot (ComputerUseAgent.hooks ag))
          /\ length rs2 = length (HookRegistry.afterScreenshot (ComputerUseAgent.hooks ag))
          /\ trace w' = trace w ++ observer_events BeforeScreenshot [] 0 rs1
                          ++ [EvCapture (Returned img)]
                          ++ observer_events AfterScreenshot [JStr img] 0 rs2)
  /\ (forall w1 e,
        HookRegistry.triggerBeforeScreenshot (ComputerUseAgent.hooks ag) w
        = (w1, Returned tt) ->
        ComputerUseAgent.screen ag w1 = Raised e ->
        ComputerUseAgent.takeScreenshot ag w
        = (log (EvCapture (Raised e)) w1, Raised e)
        /\ lastScreenshot (context w1) = lastScreenshot (context w)).
Proof.
  split.
  - apply takeScreenshot_trace.
  - intros w1 e Hbefore Hscreen. split.
    + unfold ComputerUseAgent.takeScreenshot. rewrite bind_eq, Hbefore.
      rewrite bind_eq. unfold ComputerUseAgent.captureBase64. by rewrite Hscreen.
    + pose proof (observe_keeps_lastScreenshot BeforeScreenshot []
                    (HookRegistry.beforeScreenshot (ComputerUseAgent.hooks ag)) w)
        as Hkeep.
      unfold HookRegistry.triggerBeforeScreenshot in Hbefore.
      by rewrite Hbefore in Hkeep.
Qed.

Lemma takeScreenshot_records_witness :
  exists w',
    ComputerUseAgent.takeScreenshot auto_agent init_world
    = (w', Returned "iVBORw0KGgo=")
    /\ lastScreenshot (context w') = Some "iVBORw0KGgo=".
Proof.
  eexists. split; [vm_compute; reflexivity|].
  eapply (proj1 (takeScreenshot_records auto_agent init_world)).
  vm_compute. reflexivity.
Defined.

(** X18.  The dispatch of a [tool_use] block for [screenshot], when no
    custom tool has that name, is answered by a [tool_result] block with
    the id of the request and one image block that holds the image just
    captured, the one left in [context.lastScreenshot]; the history
    gains the matching success. *)
Theorem screenshot_answered_with_image `{JsRuntime} (ag : ComputerUseAgent.t)
  (id : string) (input : JsValue) (toolResults toolResults' : list ContentBlock)
  (w w' : World) :
  WorkflowEngine.hasTool (ComputerUseAgent.workflow ag) "screenshot" = false ->
  ComputerUseAgent.process_block ag (ToolUseBlock id "screenshot" input)
    toolResults w = (w', Returned toolResults') ->
  exists img,
    lastScreenshot (context w') = Some img
    /\ toolResults' = toolResults ++ [ToolResultBlock id [ImageBlock (JStr img)]]
    /\ actionHistory (context w')
       = actionHistory (context w)
         ++ [{| success := true; actionType := SCREENSHOT; error := None;
                data := JObj [("image", JStr img)] |}].
Proof.
  intros Hno Hrun. simpl in Hrun. inv_bind Hrun. inv_bind Hrun.
  apply ret_Returned in Hrun as [-> ->]. injection H1 as <- _.
  pose proof (executeTool_frame ag "screenshot" input w) as Hfr.
  rewrite H0 in Hfr. destruct Hfr as [_ Hh _ _]. simpl in Hh.
  unfold ComputerUseAgent.executeTool in H0. inv_bind H0.
  rewrite Hno in H0. simpl in H0. inv_bind H0.
  apply ret_Returned in H0 as [-> ->].
  destruct (takeScreenshot_trace ag _ _ _ H2) as [Hlast _].
  eexists. simpl. split; [exact Hlast|]. split; [reflexivity|]. by rewrite Hh.
Qed.

Lemma screenshot_answered_with_image_witness :
  exists w',
    @ComputerUseAgent.process_block stub_runtime auto_agent
      (ToolUseBlock "toolu_1" "screenshot" (JObj [])) [] init_world
    = (w', Returned [ToolResultBlock "toolu_1" [ImageBlock (JStr "iVBORw0KGgo=")]]).
Proof.
  destruct (@ComputerUseAgent.process_block stub_runtime auto_agent
              (ToolUseBlock "toolu_1" "screenshot" (JObj [])) [] init_world)
    as [w' [trs|e]] eqn:Hrun; [|vm_compute in Hrun; discriminate Hrun].
  destruct (@screenshot_answered_with_image stub_runtime auto_agent "toolu_1"
              (JObj []) [] trs init_world w' eq_refl Hrun)
    as (img & Hlast & -> & _).
  assert (Hl : lastScreenshot
                 (context (@ComputerUseAgent.process_block stub_runtime auto_agent
                             (ToolUseBlock "toolu_1" "screenshot" (JObj [])) []
                             init_world).1) = Some "iVBORw0KGgo=")
    by (vm_compute; reflexivity).
  rewrite Hrun in Hl. simpl in Hl. rewrite Hlast in Hl. injection Hl as ->.
  by exists w'.
Defined.

(** X19.  When a custom tool is registered under the name [screenshot] and
    returns, whatever it returns, the [tool_result] block that answers
    the request holds an image block whose data is [undefined]: the loop
    reads the field [image] of the wrapped result, which has none.  When
    the tool throws, the block holds the error as text. *)
Theorem shadowed_screenshot_image_undefined `{JsRuntime} (ag : ComputerUseAgent.t)
  (id : string) (input : JsValue) (toolResults toolResults' : list ContentBlock)
  (w w' : World) :
  WorkflowEngine.hasTool (ComputerUseAgent.workflow ag) "screenshot" = true ->
  ComputerUseAgent.process_block ag (ToolUseBlock id "screenshot" input)
    toolResults w = (w', Returned toolResults') ->
  (exists v,
     tool_executed "screenshot" (trace w')
     /\ actionHistory (context w')
        = actionHistory (context w) ++ [custom_tool_result (Returned v)]
     /\ toolResults' = toolResults ++ [ToolResultBlock id [ImageBlock JUndefined]])
  \/ (exists e,
        actionHistory (context w')
        = actionHistory (context w) ++ [custom_tool_result (Raised e)]
        /\ toolResults' = toolResults
                          ++ [ToolResultBlock id [TextBlock ("Error: " +:+ e)]]).
Proof.
  intros Hhas. simpl. rewrite bind_eq.
  pose proof (executeTool_frame ag "screenshot" input w) as Hfr.
  rewrite executeTool_custom in * by assumption.
  destruct (HookRegistry.triggerOnToolCall _ _ _ w) as [w1 [mi|e]]; [|discriminate].
  destruct (hasTool_get _ _ Hhas) as (tool & Hget).
  unfold WorkflowEngine.executeTool in *. rewrite Hget in *.
  unfold WorkflowEngine.call_tool in *.
  destruct (function tool (state (context w1)) mi) as [s [v|e]];
    simpl in *; destruct Hfr as [_ Hh _ _]; simpl in Hh;
    intros [= <- <-]; simpl; rewrite Hh.
  - left. exists v. split; [|by split].
    exists mi, (Returned v). simpl. apply in_or_app. right. by left.
  - right. exists e. by split.
Qed.

(** The description returned by the tool registered as [screenshot] does
    not reach the reasoning service: the block holds an image without
    data. *)
Lemma shadowed_screenshot_image_undefined_witness :
  (@ComputerUseAgent.process_block stub_runtime describing_agent
     (ToolUseBlock "toolu_1" "screenshot" (JObj [])) [] init_world).2
  = Returned [ToolResultBlock "toolu_1" [ImageBlock JUndefined]].
Proof.
  destruct (@ComputerUseAgent.process_block stub_runtime describing_agent
              (ToolUseBlock "toolu_1" "screenshot" (JObj [])) [] init_world)
    as [w' [trs|e]] eqn:Hrun; [|vm_compute in Hrun; discriminate Hrun].
  destruct (@shadowed_screenshot_image_undefined stub_runtime describing_agent
              "toolu_1" (JObj []) [] trs init_world w' eq_refl Hrun)
    as [(v & _ & _ & ->) | (e & Hh & _)]; [reflexivity|].
  assert (Hs : match actionHistory
                       (context (@ComputerUseAgent.process_block stub_runtime
                                   describing_agent
                                   (ToolUseBlock "toolu_1" "screenshot" (JObj []))
                                   [] init_world).1) with
               | [r] => success r
               | _ => false
               end = true) by (vm_compute; reflexivity).
  rewrite Hrun in Hs. simpl in Hs. rewrite Hh in Hs. discriminate Hs.
Defined.

(** The dispatch of a built-in action once the on-tool-call hooks returned
    [modifiedInput] and the before-action hooks made [action] of it. *)
Lemma executeTool_builtin `{JsRuntime} ag toolName toolInput modifiedInput action
  w w1 w2 :
  WorkflowEngine.hasTool (ComputerUseAgent.workflow ag) toolName = false ->
  executor_action toolName ->
  HookRegistry.triggerOnToolCall (ComputerUseAgent.hooks ag) toolName toolInput w
  = (w1, Returned modifiedInput) ->
  HookRegistry.triggerBeforeAction (ComputerUseAgent.hooks ag) modifiedInput w1
  = (w2, Returned action) ->
  ComputerUseAgent.executeTool ag toolName toolInput w
  = (result <- perform (ComputerUseAgent.executor ag) toolName action ;;
     HookRegistry.triggerAfterAction (ComputerUseAgent.hooks ag)
       modifiedInput result ;;
     WorkflowEngine.checkConditionalHandlers (ComputerUseAgent.workflow ag)
       toolName modifiedInput ;;
     ret result) w2.
Proof.
  intros Hno Hname Htc Hbefore. unfold ComputerUseAgent.executeTool.
  rewrite bind_eq, Htc, Hno.
  destruct Hname as [-> | [-> | [-> | [-> | ->]]]]; unfold perform; simpl;
    rewrite bind_eq, Hbefore;
    repeat (rewrite !bind_eq;
            match goal with
            | |- context [get_prop ?a ?k ?w0] =>
                destruct (get_prop a k w0) as [? [?|?]]; [|reflexivity]
            end);
    rewrite !bind_eq; reflexivity.
Qed.

(** X20.  In the dispatch of a built-in action that returns, the
    executor is called on the fields of the payload made by the
    before-action hooks, and returns the result of the dispatch; then
    every registered after-action hook is called once, in registration
    order, with the payload returned by the on-tool-call hooks, not the
    one the executor acted on, and with that result; the conditional
    handlers are then checked on the on-tool-call payload as well. *)
Theorem after_action_sees_tool_call_payload `{JsRuntime} (ag : ComputerUseAgent.t)
  (toolName : string) (toolInput modifiedInput action : JsValue)
  (result : ActionResult) (w w1 w2 w' : World) :
  WorkflowEngine.hasTool (ComputerUseAgent.workflow ag) toolName = false ->
  executor_action toolName ->
  HookRegistry.triggerOnToolCall (ComputerUseAgent.hooks ag) toolName toolInput w
  = (w1, Returned modifiedInput) ->
  HookRegistry.triggerBeforeAction (ComputerUseAgent.hooks ag) modifiedInput w1
  = (w2, Returned action) ->
  ComputerUseAgent.executeTool ag toolName toolInput w = (w', Returned result) ->
  exists w3 w4 results,
    perform (ComputerUseAgent.executor ag) toolName action w2
    = (w3, Returned result)
    /\ HookRegistry.triggerAfterAction (ComputerUseAgent.hooks ag)
         modifiedInput result w3 = (w4, Returned tt)
    /\ length results = length (HookRegistry.afterAction (ComputerUseAgent.hooks ag))
    /\ trace w4
       = trace w3
         ++ observer_events AfterAction [modifiedInput; ActionResult_js result]
              0 results
    /\ WorkflowEngine.checkConditionalHandlers (ComputerUseAgent.workflow ag)
         toolName modifiedInput w4 = (w', Returned tt).
Proof.
  intros Hno Hname Htc Hbefore Hrun.
  rewrite (executeTool_builtin ag toolName toolInput modifiedInput action
             w w1 w2 Hno Hname Htc Hbefore) in Hrun.
  apply bind_Returned in Hrun as (w3 & r & Hop & Hrun).
  apply bind_Returned in Hrun as (w4 & [] & Hafter & Hrun).
  apply bind_Returned in Hrun as (w5 & [] & Hcond & Hrun).
  apply ret_Returned in Hrun as [Hw Hr]. subst w5 r.
  pose proof (observe_observed AfterAction [modifiedInput; ActionResult_js result]
                (HookRegistry.afterAction (ComputerUseAgent.hooks ag)) w3)
    as (results & Hobs).
  unfold HookRegistry.triggerAfterAction in Hafter. rewrite Hafter in Hobs.
  destruct Hobs as [Hlen Htr].
  exists w3, w4, results. by repeat split.
Qed.

(** With a before-action hook that replaces the payload by (3, 4), a
    click requested at (0, 0) is made at (3, 4), while the after-action
    hook is handed (0, 0) and the result of the click at (3, 4). *)
Lemma after_action_sees_tool_call_payload_witness :
  exists w2 w3 w4 result results,
    @perform stub_runtime (ComputerUseAgent.executor observing_agent) "click"
      (point 3 4) w2 = (w3, Returned result)
    /\ get_field (data result) "x" = JNum 3
    /\ In (EvRobot (moveMouse (JNum 3) (JNum 4))) (trace w3)
    /\ HookRegistry.triggerAfterAction (ComputerUseAgent.hooks observing_agent)
         (point 0 0) result w3 = (w4, Returned tt)
    /\ length results = 1
    /\ trace w4
       = trace w3
         ++ observer_events AfterAction [point 0 0; ActionResult_js result]
              0 results.
Proof.
  edestruct (fun result =>
               @after_action_sees_tool_call_payload stub_runtime observing_agent
                 "click" (point 0 0) (point 0 0) (point 3 4) result init_world)
    as (w3 & w4 & results & Hop & Hafter & Hlen & Htr & _).
  - reflexivity.
  - right. left. reflexivity.
  - vm_compute. reflexivity.
  - vm_compute. reflexivity.
  - vm_compute. reflexivity.
  - eexists _, w3, w4, _, results.
    split; [exact Hop|]. split; [reflexivity|].
    split; [|split; [exact Hafter|split; [exact Hlen|exact Htr]]].
    apply (f_equal (fun p => trace p.1)) in Hop. simpl in Hop. rewrite <- Hop.
    vm_compute. tauto.
Defined.

(** * Runs (agent.ts, [run]) *)

Lemma reset_takeScreenshot `{JsRuntime} ag w w1 img :
  ComputerUseAgent.takeScreenshot ag (reset w) = (w1, Returned img) ->
  messages w1 = [] /\ actionHistory (context w1) = []
  /\ iteration (context w1) = 0
  /\ exists evs, trace w1 = trace w ++ evs /\ Forall is_dispatch_event evs.
Proof.
  intros Hshot. pose proof (takeScreenshot_dispatch ag (reset w)) as Hfr.
  rewrite Hshot in Hfr. by destruct Hfr as [Hi Hh Hm Ht].
Qed.

(** X21.  With [maxIterations = 0], [run] still takes the initial
    screenshot and records the first user message, sends no request, and
    returns the success record with [iterations] equal to 1 and an empty
    action history. *)
Theorem run_zero_iterations `{JsRuntime} (ag : ComputerUseAgent.t) (goal : string)
  (systemPrompt : option string) (w w1 : World) (img : string) :
  ComputerUseAgent.takeScreenshot ag (reset w) = (w1, Returned img) ->
  exists w' r evs,
    ComputerUseAgent.run ag goal 0 systemPrompt w = (w', Returned r)
    /\ RunResult.success r = true
    /\ RunResult.iterations r = Some 1
    /\ RunResult.actionHistory r = Some []
    /\ messages w' = [initial_message img goal]
    /\ trace w' = trace w ++ evs
    /\ api_calls evs = 0
    /\ loop_passes evs = [].
Proof.
  intros Hshot.
  destruct (reset_takeScreenshot ag w w1 img Hshot)
    as (Hm & Hh & Hi & evs & Ht & HD).
  destruct (dispatch_events_uncounted evs HD) as [Hp Ha].
  eexists _, _, evs.
  split; [exact (run_outcome ag goal 0 systemPrompt w w1 img _ Normal Hshot eq_refl)|].
  simpl. rewrite Hi, Hh, Hm. by repeat split.
Qed.

Lemma run_zero_iterations_witness :
  exists w' r,
    @ComputerUseAgent.run stub_runtime blocking_agent "open the browser" 0 None
      init_world = (w', Returned r)
    /\ RunResult.iterations r = Some 1.
Proof.
  destruct (@ComputerUseAgent.takeScreenshot blocking_agent (reset init_world))
    as [w1 [img|e]] eqn:Hshot; [|vm_compute in Hshot; discriminate Hshot].
  destruct (@run_zero_iterations stub_runtime blocking_agent "open the browser"
              None init_world w1 img Hshot)
    as (w' & r & evs & Hrun & _ & Hit & _).
  by exists w', r.
Defined.

(** X22.  When the initial screenshot is taken, the reasoning service
    answers the first request with the stop signal [end_turn], and the
    first pass is not cut short by an exception (of an iteration hook),
    [run] makes one pass and one request whatever the bound [n >= 1],
    appends the reply to the messages and returns the success record with
    [iterations] equal to 1 and an empty action history: the blocks of
    the reply are not dispatched.  Nothing is assumed of what the service
    would answer to another request. *)
Theorem end_turn_stops `{JsRuntime} (ag : ComputerUseAgent.t) (goal : string)
  (n : nat) (systemPrompt : option string) (w w1 : World) (img : string) :
  1 <= n ->
  ComputerUseAgent.takeScreenshot ag (reset w) = (w1, Returned img) ->
  pass_answered ag (ComputerUseAgent.effective_system systemPrompt) "end_turn" 0
    (push_message (initial_message img goal) w1) ->
  not_cut_short ag (ComputerUseAgent.effective_system systemPrompt) 0
    (push_message (initial_message img goal) w1) ->
  exists w' r evs resp,
    ComputerUseAgent.run ag goal n systemPrompt w = (w', Returned r)
    /\ RunResult.success r = true
    /\ RunResult.iterations r = Some 1
    /\ RunResult.actionHistory r = Some []
    /\ stop_reason resp = "end_turn"
    /\ messages w' = [initial_message img goal;
                      {| role := assistant; msg_content := resp_content resp |}]
    /\ trace w' = trace w ++ evs
    /\ api_calls evs = 1
    /\ loop_passes evs = [0].
Proof.
  intros Hn Hshot Hanswer (wp & c & Hpass & Hc).
  destruct (reset_takeScreenshot ag w w1 img Hshot)
    as (Hm & Hh & Hi & evs0 & Ht0 & HD0).
  destruct (dispatch_events_uncounted evs0 HD0) as [Hp0 Ha0].
  destruct n as [|n]; [lia|].
  unfold pass_answered, request_world in Hanswer.
  set (system := ComputerUseAgent.effective_system systemPrompt) in *.
  set (w2 := push_message (initial_message img goal) w1) in *.
  set (w3 := set_iteration 0 (log (EvLoopPass 0) w2)) in *.
  pose proof (observe_dispatch OnIterationStart [JNum (Z.of_nat 0)]
                (HookRegistry.onIterationStart (ComputerUseAgent.hooks ag)) w3)
    as Hfs.
  destruct (HookRegistry.triggerOnIterationStart (ComputerUseAgent.hooks ag) 0 w3)
    as [w4 [[]|e0]] eqn:Hstart; cycle 1.
  { unfold ComputerUseAgent.loop_pass in Hpass.
    rewrite bind_eq in Hpass. unfold modify at 1 in Hpass.
    rewrite bind_eq in Hpass. unfold modify at 1 in Hpass.
    fold w3 in Hpass. rewrite bind_eq, Hstart in Hpass. discriminate Hpass. }
  rewrite (loop_pass_started_eq ag system 0 w2 w4 Hstart) in Hpass.
  unfold HookRegistry.triggerOnIterationStart in Hstart. rewrite Hstart in Hfs.
  destruct Hfs as [Hi4 Hh4 Hm4 (evs1 & Ht1 & HD1)]. simpl in Hi4, Hh4, Hm4, Ht1.
  destruct (dispatch_events_uncounted evs1 HD1) as [Hp1 Ha1].
  simpl in Hanswer. destruct Hanswer as (resp & Hresp & Hstop).
  set (w5 := push_message {| role := assistant; msg_content := resp_content resp |}
               (log (EvApiCall (ComputerUseAgent.request ag system w4)) w4)).
  assert (Hguard : ComputerUseAgent.guarded_block ag system 0 w4
                   = match HookRegistry.triggerOnIterationEnd
                             (ComputerUseAgent.hooks ag) 0 w5 with
                     | (w6, Returned _) => (w6, Returned Break)
                     | (w6, Raised e) => (w6, Raised e)
                     end).
  { unfold ComputerUseAgent.guarded_block.
    rewrite bind_eq. unfold ComputerUseAgent.messages_create.
    rewrite Hresp. unfold ComputerUseAgent.handle_response.
    rewrite bind_eq. unfold modify at 1. fold w5. rewrite Hstop. simpl.
    rewrite bind_eq.
    by destruct (HookRegistry.triggerOnIterationEnd _ 0 w5) as [w6 [[]|e]]. }
  rewrite loop_try_outcome, Hguard in Hpass.
  pose proof (observe_dispatch OnIterationEnd [JNum (Z.of_nat 0)]
                (HookRegistry.onIterationEnd (ComputerUseAgent.hooks ag)) w5)
    as Hfe.
  destruct (HookRegistry.triggerOnIterationEnd (ComputerUseAgent.hooks ag) 0 w5)
    as [w6 [[]|e1]] eqn:Hend; cycle 1.
  { injection Hpass as _ <-. by destruct (Hc _ eq_refl). }
  unfold HookRegistry.triggerOnIterationEnd in Hend. rewrite Hend in Hfe.
  destruct Hfe as [Hi6 Hh6 Hm6 (evs2 & Ht2 & HD2)]. simpl in Hi6, Hh6, Hm6, Ht2.
  destruct (dispatch_events_uncounted evs2 HD2) as [Hp2 Ha2].
  assert (Hloop : ComputerUseAgent.loop ag system (S n) 0 w2 = (w6, Returned Break)).
  { simpl. rewrite bind_eq.
    fold (HookRegistry.triggerOnIterationStart (ComputerUseAgent.hooks ag) 0 w3)
      in Hstart.
    rewrite (loop_pass_started_eq ag system 0 w2 w4 Hstart).
    by rewrite loop_try_outcome, Hguard. }
  exists w6, (ComputerUseAgent.success_record (context w6)),
    (evs0 ++ [EvLoopPass 0] ++ evs1
     ++ [EvApiCall (ComputerUseAgent.request ag system w4)] ++ evs2), resp.
  split; [exact (run_outcome ag goal (S n) systemPrompt w w1 img w6 Break Hshot Hloop)|].
  assert (Hapi : api_calls (evs0 ++ [EvLoopPass 0] ++ evs1
             ++ [EvApiCall (ComputerUseAgent.request ag system w4)] ++ evs2) = 1).
  { rewrite !api_calls_app, Ha0, Ha1, Ha2. reflexivity. }
  assert (Hpasses : loop_passes (evs0 ++ [EvLoopPass 0] ++ evs1
             ++ [EvApiCall (ComputerUseAgent.request ag system w4)] ++ evs2) = [0]).
  { rewrite !loop_passes_app, Hp0, Hp1, Hp2. reflexivity. }
  split; [reflexivity|].
  split; [simpl; by rewrite Hi6, Hi4|].
  split; [simpl; by rewrite Hh6, Hh4, Hh|].
  split; [exact Hstop|].
  split; [rewrite Hm6; simpl; by rewrite Hm4, Hm|].
  split; [|by split].
  rewrite Ht2. simpl. rewrite Ht1. simpl. rewrite Ht0.
  by rewrite <- !app_assoc.
Qed.

(** A service that ends the turn at the first request only: the run
    stops after one of the 20 passes allowed. *)
Lemma end_turn_stops_witness :
  exists w' r,
    @ComputerUseAgent.run stub_runtime brief_agent "open the browser" 20 None
      init_world = (w', Returned r)
    /\ RunResult.iterations r = Some 1
    /\ api_calls (trace w') = 1.
Proof.
  edestruct (fun w1 img =>
               @end_turn_stops stub_runtime brief_agent "open the browser" 20
                 None init_world w1 img)
    as (w' & r & evs & resp & Hrun & _ & Hit & _ & _ & _ & Htr & Hapi & _).
  - lia.
  - vm_compute. reflexivity.
  - eexists. split; vm_compute; reflexivity.
  - eexists _, _. split; [vm_compute; reflexivity|]. intros r. discriminate.
  - exists w', r. split; [exact Hrun|]. split; [exact Hit|].
    rewrite Htr. exact Hapi.
Defined.

(** X23.  A reply whose stop signal is neither [end_turn] nor [tool_use]
    is appended to the messages and nothing else is done with it: its
    [tool_use] blocks, if any, are not dispatched, no user message
    answers them, the history is unchanged and only the iteration-end
    hooks run; unless one of them throws, the loop goes on to the next
    pass. *)
Theorem other_stop_signal_skips_tools `{JsRuntime} (ag : ComputerUseAgent.t)
  (it : nat) (resp : Response) (w : World) :
  String.eqb (stop_reason resp) "end_turn" = false ->
  String.eqb (stop_reason resp) "tool_use" = false ->
  let w' := (ComputerUseAgent.handle_response ag it resp w).1 in
  messages w' = messages w
                ++ [{| role := assistant; msg_content := resp_content resp |}]
  /\ actionHistory (context w') = actionHistory (context w)
  /\ (exists evs, trace w' = trace w ++ evs /\ Forall iteration_end_hook evs)
  /\ ((ComputerUseAgent.handle_response ag it resp w).2 = Returned Normal
      \/ exists e, (ComputerUseAgent.handle_response ag it resp w).2 = Raised e).
Proof.
  intros He Ht w'. subst w'.
  set (w1 := push_message
               {| role := assistant; msg_content := resp_content resp |} w).
  assert (Heq : ComputerUseAgent.handle_response ag it resp w
                = bind (HookRegistry.triggerOnIterationEnd
                          (ComputerUseAgent.hooks ag) it)
                    (fun _ => ret Normal) w1).
  { unfold ComputerUseAgent.handle_response. rewrite bind_eq.
    unfold modify. by rewrite He, Ht. }
  rewrite Heq, bind_eq. clear Heq.
  pose proof (respects_observe iteration_end_hook OnIterationEnd
                [JNum (Z.of_nat it)]
                (HookRegistry.onIterationEnd (ComputerUseAgent.hooks ag))
                ltac:(intros; exact I) w1) as Hfr.
  unfold HookRegistry.triggerOnIterationEnd.
  destruct (HookRegistry.observe OnIterationEnd _ _ w1) as [w2 [[]|e]];
    destruct Hfr as [_ Hh Hm Htr]; simpl in *;
    (split; [exact Hm|]); (split; [exact Hh|]); (split; [exact Htr|]);
    [by left|right; by exists e].
Qed.

(** A reply cut off by the token limit: the click it asks for is not made. *)
Lemma other_stop_signal_skips_tools_witness :
  actionHistory
    (context (@ComputerUseAgent.handle_response stub_runtime auto_agent 0
                truncated_reply init_world).1) = []
  /\ trace (@ComputerUseAgent.handle_response stub_runtime auto_agent 0
              truncated_reply init_world).1 = [].
Proof.
  destruct (@other_stop_signal_skips_tools stub_runtime auto_agent 0
              truncated_reply init_world eq_refl eq_refl)
    as (_ & Hh & _ & _).
  split; [exact Hh|reflexivity].
Defined.

(** ** The bound on passes and requests *)

Section Bound.
Context `{JsRuntime}.
Variable ag : ComputerUseAgent.t.

Lemma loop_try_world system it w :
  (ComputerUseAgent.loop_try ag system it w).1
  = (ComputerUseAgent.guarded_block ag system it w).1.
Proof.
  rewrite loop_try_outcome.
  by destruct (ComputerUseAgent.guarded_block ag system it w) as [w1 [c|e]].
Qed.

Lemma guarded_block_trace system it w :
  exists evs,
    trace (ComputerUseAgent.guarded_block ag system it w).1
    = trace w ++ EvApiCall (ComputerUseAgent.request ag system w) :: evs
    /\ Forall is_dispatch_event evs.
Proof.
  unfold ComputerUseAgent.guarded_block. rewrite bind_eq.
  unfold ComputerUseAgent.messages_create.
  destruct (ComputerUseAgent.client ag w (ComputerUseAgent.request ag system w))
    as [resp|e].
  - destruct (handle_response_evolves ag it resp
                (log (EvApiCall (ComputerUseAgent.request ag system w)) w))
      as [_ (evs & Ht & HD)].
    exists evs. split; [|exact HD]. rewrite Ht. simpl. by rewrite <- app_assoc.
  - exists []. by split.
Qed.

Lemma api_calls_cons_request req evs :
  Forall is_dispatch_event evs -> api_calls (EvApiCall req :: evs) = 1.
Proof.
  intros HD. destruct (dispatch_events_uncounted evs HD) as [_ Ha].
  change (EvApiCall req :: evs) with ([EvApiCall req] ++ evs).
  rewrite api_calls_app, Ha. reflexivity.
Qed.

(** The events of one pass when the iteration-start hooks return in [w0]. *)
Lemma loop_pass_started system it w w0 :
  HookRegistry.triggerOnIterationStart (ComputerUseAgent.hooks ag) it
    (set_iteration it (log (EvLoopPass it) w)) = (w0, Returned tt) ->
  messages w0 = messages w
  /\ exists evs0 evs1,
       trace (ComputerUseAgent.loop_pass ag system it w).1
       = trace w ++ EvLoopPass it :: evs0
           ++ EvApiCall (ComputerUseAgent.request ag system w0) :: evs1
       /\ Forall is_dispatch_event evs0
       /\ Forall is_dispatch_event evs1.
Proof.
  intros Hstart.
  pose proof (observe_dispatch OnIterationStart [JNum (Z.of_nat it)]
                (HookRegistry.onIterationStart (ComputerUseAgent.hooks ag))
                (set_iteration it (log (EvLoopPass it) w))) as Hfs.
  unfold HookRegistry.triggerOnIterationStart in Hstart. rewrite Hstart in Hfs.
  destruct Hfs as [_ _ Hm0 (evs0 & Ht0 & HD0)]. simpl in Hm0, Ht0.
  split; [exact Hm0|].
  destruct (guarded_block_trace system it w0) as (evs1 & Ht1 & HD1).
  exists evs0, evs1. split; [|by split].
  unfold ComputerUseAgent.loop_pass. rewrite bind_eq. unfold modify at 1.
  rewrite bind_eq. unfold modify at 1. rewrite bind_eq.
  unfold HookRegistry.triggerOnIterationStart. rewrite Hstart.
  rewrite loop_try_world, Ht1, Ht0. by rewrite <- !app_assoc.
Qed.

Lemma loop_pass_trace system it w :
  exists evs,
    trace (ComputerUseAgent.loop_pass ag system it w).1
    = trace w ++ EvLoopPass it :: evs
    /\ loop_passes evs = []
    /\ api_calls evs <= 1.
Proof.
  pose proof (observe_dispatch OnIterationStart [JNum (Z.of_nat it)]
                (HookRegistry.onIterationStart (ComputerUseAgent.hooks ag))
                (set_iteration it (log (EvLoopPass it) w))) as Hfs.
  destruct (HookRegistry.triggerOnIterationStart (ComputerUseAgent.hooks ag) it
              (set_iteration it (log (EvLoopPass it) w)))
    as [w0 [[]|e]] eqn:Hstart.
  - destruct (loop_pass_started system it w w0 Hstart)
      as (_ & evs0 & evs1 & Ht & HD0 & HD1).
    destruct (dispatch_events_uncounted evs0 HD0) as [Hp0 Ha0].
    destruct (dispatch_events_uncounted evs1 HD1) as [Hp1 _].
    exists (evs0 ++ EvApiCall (ComputerUseAgent.request ag system w0) :: evs1).
    split; [exact Ht|]. split.
    + rewrite loop_passes_app, Hp0. exact Hp1.
    + rewrite api_calls_app, Ha0,
        (api_calls_cons_request (ComputerUseAgent.request ag system w0) evs1 HD1).
      lia.
  - unfold HookRegistry.triggerOnIterationStart in Hstart. rewrite Hstart in Hfs.
    destruct Hfs as [_ _ _ (evs0 & Ht0 & HD0)]. simpl in Ht0.
    destruct (dispatch_events_uncounted evs0 HD0) as [Hp0 Ha0].
    exists evs0. split; [|split; [exact Hp0|lia]].
    unfold ComputerUseAgent.loop_pass. rewrite bind_eq. unfold modify at 1.
    rewrite bind_eq. unfold modify at 1. rewrite bind_eq.
    unfold HookRegistry.triggerOnIterationStart. rewrite Hstart.
    simpl. rewrite Ht0. by rewrite <- app_assoc.
Qed.

Lemma loop_trace system fuel :
  forall it w,
  exists evs k,
    trace (ComputerUseAgent.loop ag system fuel it w).1 = trace w ++ evs
    /\ k <= fuel
    /\ loop_passes evs = seq it k
    /\ api_calls evs <= k.
Proof.
  induction fuel as [|fuel IH]; intros it w.
  - exists [], 0. simpl. rewrite app_nil_r. by repeat split.
  - destruct (loop_pass_trace system it w) as (evs & Ht & Hp & Ha).
    assert (Hone : forall w1, trace w1 = trace w ++ EvLoopPass it :: evs ->
              exists evs' k,
                trace w1 = trace w ++ evs' /\ k <= S fuel
                /\ loop_passes evs' = seq it k /\ api_calls evs' <= k).
    { intros w1 Hw1. exists (EvLoopPass it :: evs), 1.
      split; [exact Hw1|]. split; [lia|]. split; [simpl; by rewrite Hp|].
      change (EvLoopPass it :: evs) with ([EvLoopPass it] ++ evs).
      rewrite api_calls_app. change (api_calls [EvLoopPass it]) with 0. lia. }
    simpl. rewrite bind_eq.
    destruct (ComputerUseAgent.loop_pass ag system it w) as [w1 [c|e]];
      simpl in Ht; [destruct c as [| |r]|]; try (apply Hone; exact Ht).
    destruct (IH (S it) w1) as (evs' & k & Ht' & Hk & Hp' & Ha').
    exists ((EvLoopPass it :: evs) ++ evs'), (S k).
    split; [rewrite Ht', Ht; by rewrite <- app_assoc|].
    split; [lia|]. split.
    + rewrite loop_passes_app. simpl. by rewrite Hp, Hp'.
    + change (EvLoopPass it :: evs) with ([EvLoopPass it] ++ evs).
      rewrite !api_calls_app. change (api_calls [EvLoopPass it]) with 0. lia.
Qed.

Lemma run_world goal n systemPrompt w w1 img :
  ComputerUseAgent.takeScreenshot ag (reset w) = (w1, Returned img) ->
  (ComputerUseAgent.run ag goal n systemPrompt w).1
  = (ComputerUseAgent.loop ag (ComputerUseAgent.effective_system systemPrompt) n 0
       (push_message (initial_message img goal) w1)).1.
Proof.
  intros Hshot. unfold ComputerUseAgent.run.
  rewrite bind_eq. unfold modify at 1. rewrite bind_eq. unfold modify at 1.
  rewrite bind_eq. change (set_messages [] (set_context new_AgentContext w))
    with (reset w). rewrite Hshot.
  rewrite bind_eq. unfold modify at 1. rewrite bind_eq.
  fold (initial_message img goal).
  destruct (ComputerUseAgent.loop ag _ n 0 _) as [w' [[| |r]|e]]; reflexivity.
Qed.

(** X24.  Whatever the hooks, the tools, the handlers, the screen and the
    reasoning service do, a run with bound [n] enters the loop body for
    the iterations [0, 1, ..., k-1] in this order with [k <= n], and
    sends at most one request per pass, hence at most [n] requests. *)
Theorem requests_never_exceed_bound (goal : string) (n : nat)
  (systemPrompt : option string) (w : World) :
  exists evs k,
    trace (ComputerUseAgent.run ag goal n systemPrompt w).1 = trace w ++ evs
    /\ k <= n
    /\ loop_passes evs = seq 0 k
    /\ api_calls evs <= k.
Proof.
  pose proof (takeScreenshot_dispatch ag (reset w)) as Hfs.
  destruct (ComputerUseAgent.takeScreenshot ag (reset w)) as [w1 [img|e]] eqn:Hshot;
    destruct Hfs as [_ _ _ (evs0 & Ht0 & HD0)]; simpl in Ht0;
    destruct (dispatch_events_uncounted evs0 HD0) as [Hp0 Ha0].
  - rewrite (run_world goal n systemPrompt w w1 img Hshot).
    destruct (loop_trace (ComputerUseAgent.effective_system systemPrompt) n 0
                (push_message (initial_message img goal) w1))
      as (evs & k & Ht & Hk & Hp & Ha).
    exists (evs0 ++ evs), k. split; [|split; [exact Hk|split]].
    + rewrite Ht. simpl. rewrite Ht0. by rewrite <- app_assoc.
    + rewrite loop_passes_app, Hp0. exact Hp.
    + rewrite api_calls_app, Ha0. exact Ha.
  - exists evs0, 0. unfold ComputerUseAgent.run.
    rewrite bind_eq. unfold modify at 1. rewrite bind_eq. unfold modify at 1.
    rewrite bind_eq. change (set_messages [] (set_context new_AgentContext w))
      with (reset w). rewrite Hshot. simpl.
    split; [exact Ht0|]. split; [lia|]. split; [exact Hp0|lia].
Qed.



End Bound.


(** ** Messages and action history only grow *)

Section Grows.
Context `{JsRuntime}.
Variable ag : ComputerUseAgent.t.

Lemma grows_refl w : grows w w.
Proof. split; exists []; by rewrite app_nil_r. Qed.

Lemma grows_trans w1 w2 w3 : grows w1 w2 -> grows w2 w3 -> grows w1 w3.
Proof.
  intros [(ms1 & Hm1) (rs1 & Hr1)] [(ms2 & Hm2) (rs2 & Hr2)]. split.
  - exists (ms1 ++ ms2). by rewrite Hm2, Hm1, app_assoc.
  - exists (rs1 ++ rs2). by rewrite Hr2, Hr1, app_assoc.
Qed.

Lemma frame_grows P w w' : frame P w w' -> grows w w'.
Proof.
  intros [_ Hh Hm _]. split; exists []; by rewrite app_nil_r.
Qed.

Lemma push_message_grows m : respects grows (modify (push_message m)).
Proof. intros w. split; [by exists [m]|exists []; by rewrite app_nil_r]. Qed.

Lemma process_block_grows block toolResults :
  respects grows (ComputerUseAgent.process_block ag block toolResults).
Proof.
  destruct block as [img|txt|id name input|id content]; simpl;
    try (apply respects_ret; exact grows_refl).
  apply respects_bind; [exact grows_trans| |intros r].
  - intros w. exact (frame_grows _ _ _ (executeTool_dispatch ag name input w)).
  - apply respects_bind; [exact grows_trans| |intros _].
    + intros w. split; [exists []; by rewrite app_nil_r|by exists [r]].
    + apply respects_ret. exact grows_refl.
Qed.

Lemma triggerOnIterationEnd_grows it :
  respects grows
    (HookRegistry.triggerOnIterationEnd (ComputerUseAgent.hooks ag) it).
Proof. intros w. exact (frame_grows _ _ _ (observe_dispatch _ _ _ w)). Qed.

Lemma handle_response_grows it resp :
  respects grows (ComputerUseAgent.handle_response ag it resp).
Proof.
  unfold ComputerUseAgent.handle_response.
  apply respects_bind; [exact grows_trans|apply push_message_grows|].
  intros _. destruct (String.eqb (stop_reason resp) "end_turn").
  - apply respects_bind; [exact grows_trans|apply triggerOnIterationEnd_grows|].
    intros _. apply respects_ret. exact grows_refl.
  - apply respects_bind; [exact grows_trans| |intros _].
    + destruct (String.eqb (stop_reason resp) "tool_use").
      * apply respects_bind; [exact grows_trans| |intros trs].
        -- apply respects_for_of; [exact grows_refl|exact grows_trans|].
           apply process_block_grows.
        -- apply push_message_grows.
      * apply respects_ret. exact grows_refl.
    + apply respects_bind; [exact grows_trans|apply triggerOnIterationEnd_grows|].
      intros _. apply respects_ret. exact grows_refl.
Qed.

Lemma loop_pass_grows system it :
  respects grows (ComputerUseAgent.loop_pass ag system it).
Proof.
  unfold ComputerUseAgent.loop_pass.
  apply respects_bind; [exact grows_trans|intros w; exact (grows_refl _)|].
  intros _. apply respects_bind;
    [exact grows_trans|intros w; exact (grows_refl _)|].
  intros _. apply respects_bind; [exact grows_trans| |intros _].
  - intros w. exact (frame_grows _ _ _ (observe_dispatch _ _ _ w)).
  - intros w. rewrite loop_try_world. unfold ComputerUseAgent.guarded_block.
    revert w. apply respects_bind; [exact grows_trans| |intros resp].
    + intros w. exact (grows_refl _).
    + apply handle_response_grows.
Qed.

(** X26.  During the loop the conversation and the action history only
    grow: whatever the reasoning service answers and whatever hooks,
    tools and handlers do with the state, the messages and the action
    history found at the start of a pass, or of the whole loop, are a
    prefix of those left at its end. *)
Theorem loop_append_only (system : string) (fuel it : nat) (w : World) :
  grows w (ComputerUseAgent.loop_pass ag system it w).1
  /\ grows w (ComputerUseAgent.loop ag system fuel it w).1.
Proof.
  split; [apply loop_pass_grows|].
  revert it w. induction fuel as [|fuel IH]; intros it w; simpl.
  - apply grows_refl.
  - revert w. apply respects_bind; [exact grows_trans|apply loop_pass_grows|].
    intros [| |r]; [intros w; apply IH| |]; apply respects_ret; exact grows_refl.
Qed.

End Grows.

(** ** The tools sent with a request (agent.ts, [buildTools]) *)

Lemma count_builtin_names toolName :
  count_occ String.string_dec builtin_names toolName
  = if builtin_name toolName then 1 else 0.
Proof.
  unfold builtin_name, builtin_names.
  destruct (String.eqb_spec toolName "screenshot") as [->|H1]; [reflexivity|].
  destruct (String.eqb_spec toolName "mouse_move") as [->|H2]; [reflexivity|].
  destruct (String.eqb_spec toolName "click") as [->|H3]; [reflexivity|].
  destruct (String.eqb_spec toolName "type") as [->|H4]; [reflexivity|].
  destruct (String.eqb_spec toolName "key") as [->|H5]; [reflexivity|].
  destruct (String.eqb_spec toolName "scroll") as [->|H6]; [reflexivity|].
  repeat (rewrite count_occ_cons_neq; [|congruence]). reflexivity.
Qed.

Lemma schema_names_keys wf :
  Registered wf ->
  schema_names (WorkflowEngine.getToolSchemas wf)
  = map fst (WorkflowEngine.customTools wf).
Proof.
  intros Hreg. destruct (Registered_invariant wf Hreg) as [_ Hkey].
  unfold schema_names, WorkflowEngine.getToolSchemas, Map_values.
  rewrite !map_map. simpl. unfold keyed_by_name in Hkey.
  induction Hkey as [|kt m Hkt _ IH]; simpl; [reflexivity|].
  by rewrite Hkt, IH.
Qed.

(** X27.  Every request carries the six default schemas followed by one
    schema per custom tool, without any check between the two lists: a
    custom tool registered under the name of a built-in tool is
    advertised twice under that name, any other tool name once, and a
    name that is neither built in nor registered never. *)
Theorem advertised_tools (ag : ComputerUseAgent.t) (toolName : string) :
  Registered (ComputerUseAgent.workflow ag) ->
  schema_names (ComputerUseAgent.buildTools ag)
  = builtin_names
    ++ schema_names (WorkflowEngine.getToolSchemas (ComputerUseAgent.workflow ag))
  /\ advertised ag toolName
     = (if builtin_name toolName then 1 else 0)
       + (if WorkflowEngine.hasTool (ComputerUseAgent.workflow ag) toolName
          then 1 else 0).
Proof.
  intros Hreg.
  assert (Hnames : schema_names (ComputerUseAgent.buildTools ag)
                   = builtin_names
                     ++ schema_names (WorkflowEngine.getToolSchemas
                                        (ComputerUseAgent.workflow ag))).
  { unfold ComputerUseAgent.buildTools, schema_names. by rewrite map_app. }
  split; [exact Hnames|].
  unfold advertised. rewrite Hnames, count_occ_app, count_builtin_names.
  f_equal. rewrite (schema_names_keys _ Hreg).
  destruct (Registered_invariant _ Hreg) as [Hnd _].
  destruct (WorkflowEngine.hasTool (ComputerUseAgent.workflow ag) toolName)
    eqn:Hhas.
  - apply NoDup_count_occ'; [by apply NoDup_ListNoDup|].
    apply Map_get_In. exact Hhas.
  - apply count_occ_not_In. intros Hin. apply Map_get_In in Hin.
    unfold WorkflowEngine.hasTool in Hhas. congruence.
Qed.

(** The agent whose custom tool is called [click] advertises two tools
    of that name. *)
Lemma advertised_tools_witness : advertised shadowing_agent "click" = 2.
Proof.
  destruct (advertised_tools shadowing_agent "click") as [_ Hcount].
  - repeat constructor.
  - exact Hcount.
Defined.

(** * The registration methods of the agent (agent.ts) *)

Lemma executeTool_registered wf name description func args w :
  WorkflowEngine.executeTool
    (WorkflowEngine.registerTool name description func wf) name args w
  = tool_call name func args w.
Proof.
  unfold WorkflowEngine.executeTool. simpl. rewrite Map_get_set_eq.
  unfold WorkflowEngine.call_tool, tool_call. simpl.
  by destruct (func (state (context w)) args).
Qed.

(** X28.  A tool registered with [agent.tool(name, description, func)] is
    what the agent runs for [name] from then on, also when [name] is the
    name of a built-in tool: [callTool] calls [func] directly, without any
    hook; the dispatch of a [tool_use] block first runs the tool-call
    hooks and then calls [func] once on the arguments they return,
    wrapping what it returns or throws in a result, unless a hook throws,
    in which case [func] is not called. *)
Theorem agent_tool_dispatch `{JsRuntime} (ag : ComputerUseAgent.t)
  (name description : string) (func : ToolFunction) (input : JsValue)
  (w : World) :
  let ag' := AgentMethods.tool name description func ag in
  ComputerUseAgent.callTool ag' name input w = tool_call name func input w
  /\ ComputerUseAgent.executeTool ag' name input w
     = match HookRegistry.triggerOnToolCall (ComputerUseAgent.hooks ag)
               name input w with
       | (w1, Raised e) => (w1, Raised e)
       | (w1, Returned modifiedInput) =>
           ((tool_call name func modifiedInput w1).1,
            Returned (custom_tool_result
                        (tool_call name func modifiedInput w1).2))
       end.
Proof.
  intros ag'. split.
  - unfold ComputerUseAgent.callTool. subst ag'. simpl.
    apply executeTool_registered.
  - rewrite executeTool_custom.
    + subst ag'. simpl.
      destruct (HookRegistry.triggerOnToolCall _ name input w)
        as [w1 [modifiedInput|e]]; [|reflexivity].
      rewrite executeTool_registered. reflexivity.
    + subst ag'. unfold WorkflowEngine.hasTool, Map_has. simpl.
      by rewrite Map_get_set_eq.
Qed.
